(** * PredictTensorflow: packaging a TensorFlow model for Triton

    A shallow embedding of [merlin/systems/dag/ops/tensorflow.py] and of the
    collaborators it calls, followed by the properties of the exporter:
    dimension vectors, schema derivation from a serving signature, the
    package layout written by [export], the request issued by [transform]
    and the behaviour of the [from_path] class method.

    Python values are modelled by the data they carry; a dict is an
    association list in insertion order; a raised exception is the [Raise]
    outcome of a computation in the monad [M], whose state holds the
    filesystem and the log of calls made to TensorFlow and Triton. *)

From Stdlib Require Import ZArith List String Ascii Bool Lia DecimalString DecimalZ.
Import ListNotations.
Local Open Scope string_scope.
Local Open Scope list_scope.

(* ===================================================================== *)
(** ** Python basics: exceptions, dicts, strings *)
(* ===================================================================== *)

Inductive ExnKind :=
| KeyError | IndexError | AttributeError | TypeError | ValueError
| FileNotFoundError | FileExistsError | IsADirectoryError | NotADirectoryError
| ShutilError
| TritonModelException.

Record PyExn := mkExn { exn_kind : ExnKind; exn_msg : string }.

Inductive result (A : Type) :=
| Ok (a : A)
| Raise (e : PyExn).
Arguments Ok {A} a.
Arguments Raise {A} e.

Definition rbind {A B} (r : result A) (k : A -> result B) : result B :=
  match r with
  | Ok a => k a
  | Raise e => Raise e
  end.

(** A dict: keys are unique, iteration follows insertion order. *)
Definition dict (V : Type) := list (string * V).

Fixpoint dict_get {V} (d : dict V) (k : string) : option V :=
  match d with
  | [] => None
  | (k', v) :: r => if String.eqb k' k then Some v else dict_get r k
  end.

(** [d[k] = v]: an existing key keeps its position, a new key goes last. *)
Fixpoint dict_set {V} (d : dict V) (k : string) (v : V) : dict V :=
  match d with
  | [] => [(k, v)]
  | (k', v') :: r =>
      if String.eqb k' k then (k', v) :: r else (k', v') :: dict_set r k v
  end.

Definition dict_keys {V} (d : dict V) : list string := map fst d.

(** [str.lower()] on ASCII text. *)
Definition lower_ascii (c : ascii) : ascii :=
  let n := nat_of_ascii c in
  if (65 <=? n)%nat && (n <=? 90)%nat then ascii_of_nat (n + 32) else c.

Fixpoint lower (s : string) : string :=
  match s with
  | EmptyString => EmptyString
  | String c r => String (lower_ascii c) (lower r)
  end.

(** [str(n)] and the [{n}] of an f-string, for an int. *)
Definition str_int (n : Z) : string := NilZero.string_of_int (Z.to_int n).

(** [needle in haystack] for strings. *)
Fixpoint str_contains (needle haystack : string) : bool :=
  String.prefix needle haystack ||
  match haystack with
  | EmptyString => false
  | String _ r => str_contains needle r
  end.

(* ===================================================================== *)
(** ** merlin.schema: column descriptors *)
(* ===================================================================== *)

Inductive NPDType :=
| np_float16 | np_float32 | np_float64
| np_int8 | np_int16 | np_int32 | np_int64 | np_uint8
| np_bool | np_object.

(** One entry of a shape: [None], a literal such as [2], or a
    (min, max) pair such as [(1, 4)]. *)
Inductive Dim :=
| DNone
| DInt (n : Z)
| DRange (lo hi : Z).

Record ColumnSchema := mkColumnSchema {
  cs_name : string;
  cs_dtype : option NPDType;
  cs_is_list : bool;
  cs_is_ragged : bool;
  cs_value_count : option (Z * Z);      (* properties["value_count"]: min, max *)
  cs_dims : option (list Dim)
}.

(** [ColumnSchema(name, dtype=dtype)] *)
Definition ColumnSchema_new (name : string) (dtype : option NPDType) : ColumnSchema :=
  mkColumnSchema name dtype false false None None.

(** [col.with_dtype(dtype, is_list=.., is_ragged=..)] *)
Definition with_dtype (c : ColumnSchema) (dtype : option NPDType)
    (is_list is_ragged : bool) : ColumnSchema :=
  mkColumnSchema (cs_name c) dtype is_list is_ragged (cs_value_count c) (cs_dims c).

(** [col.with_properties({"value_count": {"min": lo, "max": hi}})] *)
Definition with_properties (c : ColumnSchema) (value_count : Z * Z) : ColumnSchema :=
  mkColumnSchema (cs_name c) (cs_dtype c) (cs_is_list c) (cs_is_ragged c)
    (Some value_count) (cs_dims c).

Record Schema := mkSchema { column_schemas : dict ColumnSchema }.

(** [Schema()] *)
Definition Schema_new : Schema := mkSchema [].

Definition column_names (s : Schema) : list string := dict_keys (column_schemas s).

(* ===================================================================== *)
(** ** merlin.systems.dag.ops: dimension vectors *)
(* ===================================================================== *)

Definition dim_value (d : Dim) : Z :=
  match d with
  | DInt n => n
  | DNone | DRange _ _ => (-1)%Z
  end.

(** Modelled from the spec: [compute_dims] lives in
    [merlin/systems/dag/ops/__init__.py], which is not among the sources.
    The first entry is the batch dimension and is always -1.  A column with
    explicit shape dims gets one entry per later dim: the literal integer,
    or -1 for [None] and for a (min, max) pair.  Without explicit dims a
    list column gets [-1; -1] and a plain scalar column the unit feature
    dim, [-1; 1].  [scalar_shape] is the second argument passed by
    [_export_model_config]; the spec describes the call without it, where
    the feature dims of a scalar column are [[1]]. *)
Definition compute_dims (col_schema : ColumnSchema)
    (scalar_shape : option (list Z)) : list Z :=
  match cs_dims col_schema with
  | Some ds => (-1)%Z :: map dim_value (tl ds)
  | None =>
      if cs_is_list col_schema then [(-1)%Z; (-1)%Z]
      else (-1)%Z :: match scalar_shape with
                     | Some column_dims => column_dims
                     | None => [1%Z]
                     end
  end.

(** Modelled from the spec: [add_model_param] lives in
    [merlin/systems/dag/ops/operator.py], which is not among the sources.
    It appends to the repeated field [params] one descriptor of class
    [paramclass] with the column's name, its data type and the given dims. *)
Definition add_model_param {P : Type} (params : list P)
    (paramclass : string -> option NPDType -> list Z -> P)
    (col_schema : ColumnSchema) (dims : list Z) : list P :=
  params ++ [paramclass (cs_name col_schema) (cs_dtype col_schema) dims].

(* ===================================================================== *)
(** ** TensorFlow: tensor specs, serving signatures, models *)
(* ===================================================================== *)

Inductive TFDType :=
| tf_float16 | tf_float32 | tf_float64
| tf_int8 | tf_int16 | tf_int32 | tf_int64 | tf_uint8
| tf_bool | tf_string.

(** [dtype.as_numpy_dtype] *)
Definition as_numpy_dtype (d : TFDType) : NPDType :=
  match d with
  | tf_float16 => np_float16 | tf_float32 => np_float32 | tf_float64 => np_float64
  | tf_int8 => np_int8 | tf_int16 => np_int16 | tf_int32 => np_int32
  | tf_int64 => np_int64 | tf_uint8 => np_uint8
  | tf_bool => np_bool | tf_string => np_object
  end.

(** A [TensorShape] is [None] when the rank is unknown, else one entry per
    dimension, [None] for an unknown one. *)
Definition TensorShape := option (list (option Z)).

Record TensorSpec := mkTensorSpec {
  ts_shape : TensorShape;
  ts_dtype : TFDType;
  ts_name : option string
}.

(** [shape[i]]: [None] under unknown rank, [IndexError] past the rank. *)
Definition shape_getitem (shape : TensorShape) (i : nat) : result (option Z) :=
  match shape with
  | None => Ok None
  | Some ds =>
      match nth_error ds i with
      | Some d => Ok d
      | None => Raise (mkExn IndexError "tuple index out of range")
      end
  end.

(** A concrete function of a SavedModel: [structured_input_signature[1]]
    and [structured_outputs], both dicts of tensor specs. *)
Record Signature := mkSignature {
  structured_input_signature_1 : dict TensorSpec;
  structured_outputs : dict TensorSpec
}.

(** The [signatures] attribute of a model object. *)
Inductive SignaturesAttr :=
| SigMissing                         (* no such attribute *)
| SigNone                            (* the attribute is None *)
| SigMap (d : dict Signature).

(** One value of the dict [model._saved_model_inputs_spec]. *)
Inductive SpecItem :=
| SpecTuple (s0 s1 : TensorSpec) (rest : list TensorSpec)
| SpecOne (s : TensorSpec).

Inductive InputsSpec :=
| SpecDict (d : dict SpecItem)
| SpecOther.                         (* None, a single spec, a list *)

Record Model := mkModel {
  model_id : string;                 (* stands for layers and weights *)
  signatures : SignaturesAttr;
  _saved_model_inputs_spec : InputsSpec
}.

(* ===================================================================== *)
(** ** Paths and the filesystem *)
(* ===================================================================== *)

(** A path is its list of components; an absolute one starts with "/". *)
Definition PurePath := list string.

Fixpoint split_sep (s cur : string) : list string :=
  match s with
  | EmptyString => [cur]
  | String c r =>
      if Ascii.eqb c "/" then cur :: split_sep r ""
      else split_sep r (cur ++ String c "")
  end.

(** [pathlib.Path(s)]: empty and "." components vanish. *)
Definition Path (s : string) : PurePath :=
  let parts := filter (fun c => negb (String.eqb c "" || String.eqb c "."))
                      (split_sep s "") in
  if String.prefix "/" s then "/" :: parts else parts.

(** [p / name] for a name that holds no separator (node names, version
    numbers and the fixed file names joined below). *)
Definition pjoin (p : PurePath) (name : string) : PurePath := p ++ [name].
Infix "//" := pjoin (at level 40, left associativity).

(** A [str] or an [os.PathLike] given by the caller. *)
Inductive PathLike :=
| PStr (s : string)
| PPath (p : PurePath).

Definition fspath (p : PathLike) : PurePath :=
  match p with
  | PStr s => Path s
  | PPath p => p
  end.

(** Truth value of [self.path]: [None] and the empty [str] are false. *)
Definition path_truthy (p : option PathLike) : bool :=
  match p with
  | None => false
  | Some (PStr s) => negb (String.eqb s "")
  | Some (PPath _) => true
  end.

Fixpoint path_eqb (p q : PurePath) : bool :=
  match p, q with
  | [], [] => true
  | a :: p', b :: q' => String.eqb a b && path_eqb p' q'
  | _, _ => false
  end.

(** [strip_prefix d p = Some rel] when [p = d ++ rel]. *)
Fixpoint strip_prefix (d p : PurePath) : option PurePath :=
  match d, p with
  | [], _ => Some p
  | a :: d', b :: p' => if String.eqb a b then strip_prefix d' p' else None
  | _ :: _, [] => None
  end.

Definition is_under (d p : PurePath) : bool :=
  match strip_prefix d p with
  | Some _ => true
  | None => false
  end.

Inductive Node :=
| Dir
| File (content : string).

Definition FS := PurePath -> option Node.

Definition fs_set (fs : FS) (p : PurePath) (n : Node) : FS :=
  fun q => if path_eqb q p then Some n else fs q.

Definition fs_exists (fs : FS) (p : PurePath) : bool :=
  match p with
  | [] => true
  | _ => match fs p with Some _ => true | None => false end
  end.

Definition fs_is_dir (fs : FS) (p : PurePath) : bool :=
  match p with
  | [] => true
  | _ => match fs p with Some Dir => true | _ => false end
  end.

(** Whether the nearest entry that exists, going up from the path given
    in reverse, is a regular file. *)
Fixpoint nearest_is_file (fs : FS) (rp : list string) : bool :=
  match rp with
  | [] => false
  | _ :: rest =>
      match fs (rev rp) with
      | Some (File _) => true
      | Some Dir => false
      | None => nearest_is_file fs rest
      end
  end.

(** The [OSError] of a lookup that needs [dir] to be a directory when it
    is none: [ENOTDIR] when the lookup runs into a regular file, [ENOENT]
    when it runs into nothing. *)
Definition lookup_error (fs : FS) (dir : PurePath) : PyExn :=
  if nearest_is_file fs (rev dir)
  then mkExn NotADirectoryError "Not a directory"
  else mkExn FileNotFoundError "No such file or directory".

(** The entries [files], given relative to [dst], laid over [fs]. *)
Definition fs_overlay (fs : FS) (dst : PurePath) (files : PurePath -> option Node) : FS :=
  fun q =>
    match strip_prefix dst q with
    | Some (c :: rel) =>
        match files (c :: rel) with
        | Some n => Some n
        | None => fs q
        end
    | _ => fs q
    end.

Definition fs_rmtree (fs : FS) (d : PurePath) : FS :=
  fun q => if is_under d q then None else fs q.

Fixpoint assoc_path {V} (l : list (PurePath * V)) (p : PurePath) : option V :=
  match l with
  | [] => None
  | (k, v) :: r => if path_eqb k p then Some v else assoc_path r p
  end.

(* ===================================================================== *)
(** ** The operator instance and the Python values passed around *)
(* ===================================================================== *)

(** The state of a [PredictTensorflow] object.  [class_name] is
    [self.__class__.__name__] and [scalar_shape] the property inherited from
    the operator base class; [model], [input_schema] and [output_schema] are
    [None] while the attribute is not set. *)
Record PredictTensorflow := mkPredictTensorflow {
  class_name : string;
  scalar_shape : option (list Z);
  _tf_model_name : option string;
  path : option PathLike;
  model : option Model;
  input_schema : option Schema;
  output_schema : option Schema
}.

(** The values a caller can pass where the code takes any object. *)
Inductive PyVal :=
| VNone
| VInt (n : Z)
| VStr (s : string)
| VPathLike (p : PurePath)
| VDict (keys : list string)
| VModel (m : Model)
| VInstance (op : PredictTensorflow).

(** Truth value of an object. *)
Definition py_truthy (v : PyVal) : bool :=
  match v with
  | VNone => false
  | VInt n => negb (Z.eqb n 0)
  | VStr s => negb (String.eqb s "")
  | VDict keys => match keys with [] => false | _ => true end
  | VPathLike _ | VModel _ | VInstance _ => true
  end.

(* ===================================================================== *)
(** ** Triton: tensors, requests, model configuration *)
(* ===================================================================== *)

Record ndarray := mkArray {
  arr_dtype : NPDType;
  arr_shape : list Z;
  arr_data : list Z
}.

(** [pb_utils.Tensor(name, array)] *)
Record Tensor := mkTensor { tensor_name : string; as_numpy : ndarray }.

(** [pb_utils.InferenceRequest(model_name=.., requested_output_names=..,
    inputs=..)] *)
Record InferenceRequest := mkInferenceRequest {
  req_model_name : option string;
  req_requested_output_names : list string;
  req_inputs : list Tensor
}.

Record InferenceResponse := mkInferenceResponse { output_tensors : list Tensor }.

(** [pb_utils.get_output_tensor_by_name(response, name)]: the first output
    tensor of that name, or [None]. *)
Definition get_output_tensor_by_name (r : InferenceResponse) (name : string)
    : option Tensor :=
  find (fun t => String.eqb (tensor_name t) name) (output_tensors r).

Record ModelInput := mkModelInput {
  in_name : string; in_data_type : option NPDType; in_dims : list Z
}.

Record ModelOutput := mkModelOutput {
  out_name : string; out_data_type : option NPDType; out_dims : list Z
}.

Record ModelConfig := mkModelConfig {
  cfg_name : string;
  cfg_backend : string;
  cfg_platform : string;
  cfg_input : list ModelInput;
  cfg_output : list ModelOutput;
  cfg_parameters : dict string
}.

(** The data handed to [transform]: a dict-like container and its class. *)
Record Transformable := mkTransformable {
  container_type : string;
  columns : dict ndarray
}.

(* ===================================================================== *)
(** ** The world: filesystem, call log, external collaborators *)
(* ===================================================================== *)

Inductive Call :=
| CallSave (m : Model) (dst : PurePath) (include_optimizer : bool)
| CallLoadModel (p : PurePath) (custom_objects : PyVal)
| CallInfer (req : InferenceRequest).

Record World := mkWorld { w_fs : FS; w_log : list Call }.

(** What the code cannot see into: the files a Keras save writes (and the
    error it may end with), the model a load returns and the files of its
    own that TensorFlow leaves in the system temp root while loading
    (generated sources and their caches, given relative to that root), the
    outcome of a recursive copy whose source and destination lie inside
    one another, the name chosen for a temporary directory, protobuf's
    text printer, the Triton server, and the error, if any, with which the
    class of a container refuses the columns it is constructed from. *)
Record Env := mkEnv {
  saved_model_files : Model -> list (PurePath * Node) * option PyExn;
  load_model_from : FS -> PurePath -> PyVal -> result Model;
  keras_temp_files : FS -> PurePath -> list (PurePath * Node);
  copytree_aliased : FS -> PurePath -> PurePath
                     -> list (PurePath * Node) * option PyExn;
  gettempdir : PurePath;
  mkdtemp_name : FS -> string;
  PrintMessage : ModelConfig -> string;
  triton_exec : list Call -> InferenceRequest -> result InferenceResponse;
  container_rejects : string -> dict ndarray -> option PyExn
}.

Definition M (A : Type) := World -> World * result A.

Definition ret {A} (a : A) : M A := fun w => (w, Ok a).

Definition raise {A} (k : ExnKind) (msg : string) : M A :=
  fun w => (w, Raise (mkExn k msg)).

Definition bind {A B} (c : M A) (k : A -> M B) : M B :=
  fun w =>
    match c w with
    | (w', Ok a) => k a w'
    | (w', Raise e) => (w', Raise e)
    end.

Definition lift {A} (r : result A) : M A := fun w => (w, r).

Notation "x <- c ;; k" := (bind c (fun x => k))
  (at level 61, c at next level, right associativity).
Notation "c ;; k" := (bind c (fun _ => k))
  (at level 61, right associativity).

Definition get_fs : M FS := fun w => (w, Ok (w_fs w)).
Definition put_fs (fs : FS) : M unit := fun w => (mkWorld fs (w_log w), Ok tt).
Definition get_log : M (list Call) := fun w => (w, Ok (w_log w)).
Definition log_call (c : Call) : M unit :=
  fun w => (mkWorld (w_fs w) (w_log w ++ [c]), Ok tt).

(** [try: c finally: cleanup] *)
Definition finally {A} (c : M A) (cleanup : World -> World) : M A :=
  fun w => let (w', r) := c w in (cleanup w', r).

(** [os.mkdir(p)] *)
Definition os_mkdir (p : PurePath) : M unit :=
  fs <- get_fs ;;
  if fs_exists fs p then raise FileExistsError "File exists"
  else if fs_is_dir fs (removelast p) then put_fs (fs_set fs p Dir)
  else lift (Raise (lookup_error fs (removelast p))).

(** [p.mkdir(exist_ok=True)]: a missing parent is an error, an existing
    directory is not. *)
Definition Path_mkdir_exist_ok (p : PurePath) : M unit :=
  fun w =>
    match os_mkdir p w with
    | (w', Ok u) => (w', Ok u)
    | (w', Raise e) =>
        match exn_kind e with
        | FileNotFoundError => (w', Raise e)
        | _ => if fs_is_dir (w_fs w') p then (w', Ok tt) else (w', Raise e)
        end
    end.

(** [try: os.mkdir(name) except OSError: if not isdir(name): raise] *)
Definition mkdir_unless_isdir (name : PurePath) : M unit :=
  fun w =>
    match os_mkdir name w with
    | (w', Raise e) =>
        if fs_is_dir (w_fs w') name then (w', Ok tt) else (w', Raise e)
    | ok => ok
    end.

(** [os.makedirs(name, exist_ok=True)], on the reversed name: the head is
    created first when it does not exist, and a [FileExistsError] from
    there is passed over. *)
Fixpoint makedirs_rev (rname : list string) : M unit :=
  match rname with
  | [] => ret tt
  | _ :: rhead =>
      (fun w =>
         match rhead with
         | [] => (w, Ok tt)
         | _ =>
             if fs_exists (w_fs w) (rev rhead) then (w, Ok tt)
             else
               match makedirs_rev rhead w with
               | (w', Raise e) =>
                   match exn_kind e with
                   | FileExistsError => (w', Ok tt)
                   | _ => (w', Raise e)
                   end
               | ok => ok
               end
         end) ;;
      mkdir_unless_isdir (rev rname)
  end.

Definition makedirs (name : PurePath) : M unit := makedirs_rev (rev name).

(** [with open(p, "w") as o: o.write(content)] *)
Definition write_text (p : PurePath) (content : string) : M unit :=
  fs <- get_fs ;;
  match fs p with
  | Some Dir => raise IsADirectoryError "Is a directory"
  | _ =>
      if fs_is_dir fs (removelast p) then put_fs (fs_set fs p (File content))
      else lift (Raise (lookup_error fs (removelast p)))
  end.

(** Cleanup of a temporary directory: [shutil.rmtree]. *)
Definition cleanup (d : PurePath) (w : World) : World :=
  mkWorld (fs_rmtree (w_fs w) d) (w_log w).

Section WithEnv.

Variable env : Env.

(** [with tempfile.TemporaryDirectory() as tmp_dir: body tmp_dir]: the
    directory is made under the temp root and removed when the block is
    left, by return or by exception. *)
Definition TemporaryDirectory {A} (body : PurePath -> M A) : M A :=
  fs <- get_fs ;;
  let tmp_dir := gettempdir env // mkdtemp_name env fs in
  os_mkdir tmp_dir ;;
  finally (body tmp_dir) (cleanup tmp_dir).

(** [model.save(dst, include_optimizer=..)]: the directories down to the
    target are made and the files of the saved model are written below
    it.  What TensorFlow leaves in the system temp root in the course of a
    save and reload is accounted to the reload, see [load_model]. *)
Definition Model_save (model : Model) (dst : PurePath) (include_optimizer : bool)
    : M unit :=
  log_call (CallSave model dst include_optimizer) ;;
  makedirs dst ;;
  fs <- get_fs ;;
  let (files, err) := saved_model_files env model in
  put_fs (fs_overlay fs dst (assoc_path files)) ;;
  match err with
  | Some e => lift (Raise e)
  | None => ret tt
  end.

(** [shutil.copytree(src, dst, dirs_exist_ok=True)].  The source is listed
    first and must be a directory; then the destination is made.  When
    source and destination lie apart, the entries of the source are laid
    over the destination.  When one lies inside the other the copy reads
    what it writes, and may descend into its own output until a path gets
    too long: whether it fails then, and what it leaves below the
    destination when it does, is the environment's; when it does not fail,
    the result is the same overlay. *)
Definition copytree_outcome (fs0 : FS) (src dst : PurePath)
    : (PurePath -> option Node) * option PyExn :=
  if is_under src dst || is_under dst src then
    match copytree_aliased env fs0 src dst with
    | (left_behind, Some e) => (assoc_path left_behind, Some e)
    | (_, None) => (fun rel => fs0 (src ++ rel), None)
    end
  else (fun rel => fs0 (src ++ rel), None).

Definition copytree (src dst : PurePath) : M unit :=
  fs0 <- get_fs ;;
  if fs_is_dir fs0 src then
    makedirs dst ;;
    fs1 <- get_fs ;;
    let (files, err) := copytree_outcome fs0 src dst in
    put_fs (fs_overlay fs1 dst files) ;;
    match err with
    | Some e => lift (Raise e)
    | None => ret tt
    end
  else lift (Raise (lookup_error fs0 src)).

(** [tf.keras.models.load_model(p, custom_objects=..)].  A load that
    succeeds may have left files of TensorFlow's own in the system temp
    root. *)
Definition load_model (p : PurePath) (custom_objects : PyVal) : M Model :=
  log_call (CallLoadModel p custom_objects) ;;
  fs <- get_fs ;;
  m <- lift (load_model_from env fs p custom_objects) ;;
  put_fs (fs_overlay fs (gettempdir env) (assoc_path (keras_temp_files env fs p))) ;;
  ret m.

(** [inference_request.exec()] *)
Definition exec (req : InferenceRequest) : M InferenceResponse :=
  calls <- get_log ;;
  log_call (CallInfer req) ;;
  lift (triton_exec env calls req).

(* ===================================================================== *)
(** ** PredictTensorflow *)
(* ===================================================================== *)

(** [self.tf_model_name] *)
Definition tf_model_name (self : PredictTensorflow) : option string :=
  _tf_model_name self.

Definition set_tf_model_name (self : PredictTensorflow) (tf_model_name : string)
    : PredictTensorflow :=
  mkPredictTensorflow (class_name self) (scalar_shape self) (Some tf_model_name)
    (path self) (model self) (input_schema self) (output_schema self).

(** [self.export_name] *)
Definition export_name (self : PredictTensorflow) : string :=
  lower (class_name self).

Definition _set_list_length (col_schema : ColumnSchema) (list_length : Z)
    : ColumnSchema :=
  with_properties
    (with_dtype col_schema (cs_dtype col_schema) true false)
    (list_length, list_length).

(** [col.shape[1] and col.shape[1] > 1], given the value of [col.shape[1]] *)
Definition second_dim_gt_1 (d : option Z) : bool :=
  match d with
  | None => false
  | Some n => negb (Z.eqb n 0) && Z.ltb 1 n
  end.

(** The body of the two loops of [_construct_schemas_from_model]: the
    column built for the entry [col_name, col] of a signature. *)
Definition column_of_tensor (col_name : string) (col : TensorSpec)
    : result ColumnSchema :=
  let col_schema := ColumnSchema_new col_name (Some (as_numpy_dtype (ts_dtype col))) in
  rbind (shape_getitem (ts_shape col) 1) (fun d =>
    if second_dim_gt_1 d then
      match d with
      | Some list_length => Ok (_set_list_length col_schema list_length)
      | None => Ok col_schema
      end
    else Ok col_schema).

(** [for col_name, col in items: schema.column_schemas[col_name] = ...] *)
Fixpoint schema_of_specs (items : dict TensorSpec) (schema : Schema)
    : result Schema :=
  match items with
  | [] => Ok schema
  | (col_name, col) :: rest =>
      rbind (column_of_tensor col_name col) (fun col_schema =>
        schema_of_specs rest
          (mkSchema (dict_set (column_schemas schema) col_name col_schema)))
  end.

(** [tf.TensorSpec(shape=spec.shape, dtype=spec.dtype, name=key)] *)
Definition named_spec (spec : TensorSpec) (key : string) : TensorSpec :=
  mkTensorSpec (ts_shape spec) (ts_dtype spec) (Some key).

(** The model is changed in place; the changed model is returned. *)
Definition _ensure_input_spec_includes_names (model : Model) : Model :=
  match _saved_model_inputs_spec model with
  | SpecDict d =>
      mkModel (model_id model) (signatures model)
        (SpecDict
           (fold_left
              (fun acc (item : string * SpecItem) =>
                 let (key, spec) := item in
                 dict_set acc key
                   match spec with
                   | SpecTuple s0 s1 _ =>
                       SpecTuple (named_spec s0 key) (named_spec s1 key) []
                   | SpecOne s => SpecOne (named_spec s key)
                   end)
              d d))
  | SpecOther => model
  end.

(** [reloaded.signatures["serving_default"]] *)
Definition signatures_getitem (model : Model) (key : string) : result Signature :=
  match signatures model with
  | SigMissing => Raise (mkExn AttributeError "object has no attribute 'signatures'")
  | SigNone => Raise (mkExn TypeError "'NoneType' object is not subscriptable")
  | SigMap d =>
      match dict_get d key with
      | Some s => Ok s
      | None => Raise (mkExn KeyError key)
      end
  end.

(** The round trip taken when the model shows no default signature. *)
Definition regenerate_signature (model : Model) : M Signature :=
  TemporaryDirectory (fun tmp_dir =>
    let tf_model_path := tmp_dir // "model.savedmodel" in
    Model_save model tf_model_path false ;;
    reloaded <- load_model tf_model_path VNone ;;
    lift (signatures_getitem reloaded "serving_default")).

(** Returns the schemas, and with them the model, which
    [_ensure_input_spec_includes_names] may have changed in place. *)
Definition _construct_schemas_from_model (model : Model)
    : M (Model * (Schema * Schema)) :=
  let signatures :=
    match signatures model with
    | SigMap d => d
    | SigMissing | SigNone => []
    end in
  found <-
    match dict_get signatures "serving_default" with
    | Some default_signature => ret (model, default_signature)
    | None =>
        let model := _ensure_input_spec_includes_names model in
        default_signature <- regenerate_signature model ;;
        ret (model, default_signature)
    end ;;
  let (model, default_signature) := found : Model * Signature in
  input_schema <-
    lift (schema_of_specs (structured_input_signature_1 default_signature) Schema_new) ;;
  output_schema <-
    lift (schema_of_specs (structured_outputs default_signature) Schema_new) ;;
  ret (model, (input_schema, output_schema)).

(** The body of [__init__], run on an instance; [super().__init__()] has
    been called.  Returns the instance as the body leaves it. *)
Definition init_body (self : PredictTensorflow)
    (model_or_path custom_objects backend : PyVal) : M PredictTensorflow :=
  let self := mkPredictTensorflow (class_name self) (scalar_shape self) None
                (path self) (model self) (input_schema self) (output_schema self) in
  match model_or_path with
  | VNone => ret self
  | _ =>
      let custom_objects :=
        if py_truthy custom_objects then custom_objects else VDict [] in
      loaded <-
        match model_or_path with
        | VStr s =>
            m <- load_model (Path s) custom_objects ;; ret (Some (PStr s), m)
        | VPathLike p =>
            m <- load_model p custom_objects ;; ret (Some (PPath p), m)
        | VModel m => ret (None, m)
        | _ =>
            (* any other object: it has no [signatures], and reading its
               [_saved_model_inputs_spec] fails *)
            raise AttributeError
              "object has no attribute '_saved_model_inputs_spec'"
        end ;;
      let (self_path, self_model) := loaded : option PathLike * Model in
      schemas <- _construct_schemas_from_model self_model ;;
      let '(self_model, (input_schema, output_schema)) := schemas in
      ret (mkPredictTensorflow (class_name self) (scalar_shape self) None
             self_path (Some self_model) (Some input_schema) (Some output_schema))
  end.

(** A class: its name and the [scalar_shape] its instances answer. *)
Record OperatorClass := mkOperatorClass {
  cls_name : string;
  cls_scalar_shape : option (list Z)
}.

(** [object.__new__(cls)]: an instance with no attribute set. *)
Definition new_instance (cls : OperatorClass) : PredictTensorflow :=
  mkPredictTensorflow (cls_name cls) (cls_scalar_shape cls) None None None None None.

(** [cls(model_or_path, custom_objects, backend)]: allocate, initialise,
    return the instance. *)
Definition construct (cls : OperatorClass)
    (model_or_path custom_objects backend : PyVal) : M PredictTensorflow :=
  init_body (new_instance cls) model_or_path custom_objects backend.

(** The call [cls.__init__(self_arg, **kwargs)] of the plain function
    [__init__]: the keywords are bound to [model_or_path], [custom_objects]
    and [backend]; zero-argument [super()] needs [self_arg] to be an
    instance of the class or [None]; the body has no [return], so the call
    gives [None]. *)
Definition call___init__ (self_arg : PyVal) (kwargs : dict PyVal) : M PyVal :=
  if negb (forallb
             (fun k => String.eqb k "model_or_path" || String.eqb k "custom_objects"
                       || String.eqb k "backend")
             (dict_keys kwargs))
  then raise TypeError "__init__() got an unexpected keyword argument"
  else
    match dict_get kwargs "model_or_path" with
    | None =>
        raise TypeError
          "__init__() missing 1 required positional argument: 'model_or_path'"
    | Some model_or_path =>
        let custom_objects :=
          match dict_get kwargs "custom_objects" with Some v => v | None => VNone end in
        let backend :=
          match dict_get kwargs "backend" with
          | Some v => v
          | None => VStr "tensorflow"
          end in
        match self_arg with
        | VInstance self =>
            init_body self model_or_path custom_objects backend ;;
            ret VNone
        | VNone =>
            (* [super(cls, None)] is an unbound super object, on which
               [__init__()] passes; the first assignment fails *)
            raise AttributeError
              "'NoneType' object has no attribute '_tf_model_name'"
        | _ =>
            raise TypeError
              "super(type, obj): obj must be an instance or subtype of type"
        end
    end.

(** [from_path(cls, path, **kwargs)] *)
Definition from_path (cls : OperatorClass) (path : PyVal) (kwargs : dict PyVal)
    : M PyVal :=
  call___init__ path kwargs.

(** [self.X] for an attribute that may not be set. *)
Definition getattr {A} (a : option A) (name : string) : M A :=
  match a with
  | Some v => ret v
  | None => raise AttributeError name
  end.

Definition _export_model_config (self : PredictTensorflow) (name : string)
    (output_path : PurePath) : M ModelConfig :=
  let parameters := dict_set [] "TF_GRAPH_TAG" "serve" in
  let parameters := dict_set parameters "TF_SIGNATURE_DEF" "serving_default" in
  self_input_schema <- getattr (input_schema self) "input_schema" ;;
  let config_input :=
    fold_left
      (fun params (item : string * ColumnSchema) =>
         let col_schema := snd item in
         add_model_param params mkModelInput col_schema
           (compute_dims col_schema (scalar_shape self)))
      (column_schemas self_input_schema) [] in
  self_output_schema <- getattr (output_schema self) "output_schema" ;;
  let config_output :=
    fold_left
      (fun params (item : string * ColumnSchema) =>
         let col_schema := snd item in
         add_model_param params mkModelOutput col_schema
           (compute_dims col_schema (scalar_shape self)))
      (column_schemas self_output_schema) [] in
  let config :=
    mkModelConfig name "tensorflow" "tensorflow_savedmodel"
      config_input config_output parameters in
  write_text (output_path // "config.pbtxt") (PrintMessage env config) ;;
  ret config.

(** [export]: the arguments [input_schema], [output_schema], [params] and
    [backend] are not read.  Returns the config, and the instance with the
    recorded model name. *)
Definition export (self : PredictTensorflow) (path_arg : string)
    (input_schema_arg output_schema_arg : Schema) (params : option (dict string))
    (node_id : option Z) (version : Z) (backend : string)
    : M (PredictTensorflow * ModelConfig) :=
  let export_name := lower (class_name self) in
  let node_name :=
    match node_id with
    | Some n => (str_int n ++ "_" ++ export_name)%string
    | None => export_name
    end in
  let node_export_path := Path path_arg // node_name in
  Path_mkdir_exist_ok node_export_path ;;
  let tf_model_path := node_export_path // str_int version // "model.savedmodel" in
  (if path_truthy (path self) then
     match path self with
     | Some p => copytree (fspath p) tf_model_path
     | None => ret tt
     end
   else
     self_model <- getattr (model self) "model" ;;
     Model_save self_model tf_model_path false) ;;
  let self := set_tf_model_name self node_name in
  backend_model_config <- _export_model_config self node_name node_export_path ;;
  ret (self, backend_model_config).

(** [for col_name in keys: input_tensors.append(Tensor(col_name,
    transformable[col_name]))] *)
Fixpoint collect_inputs (keys : list string) (transformable : Transformable)
    (input_tensors : list Tensor) : result (list Tensor) :=
  match keys with
  | [] => Ok input_tensors
  | col_name :: rest =>
      match dict_get (columns transformable) col_name with
      | Some a => collect_inputs rest transformable (input_tensors ++ [mkTensor col_name a])
      | None => Raise (mkExn KeyError col_name)
      end
  end.

(** [for out_col_name in keys: outputs_dict[out_col_name] =
    get_output_tensor_by_name(response, out_col_name).as_numpy()] *)
Fixpoint collect_outputs (keys : list string) (response : InferenceResponse)
    (outputs_dict : dict ndarray) : result (dict ndarray) :=
  match keys with
  | [] => Ok outputs_dict
  | out_col_name :: rest =>
      match get_output_tensor_by_name response out_col_name with
      | Some t =>
          collect_outputs rest response (dict_set outputs_dict out_col_name (as_numpy t))
      | None =>
          Raise (mkExn AttributeError "'NoneType' object has no attribute 'as_numpy'")
      end
  end.

(** [type(transformable)(outputs_dict)]: the container classes are not
    among the sources; a class may refuse the columns it is given. *)
Definition Transformable_new (container_type : string) (columns : dict ndarray)
    : result Transformable :=
  match container_rejects env container_type columns with
  | Some e => Raise e
  | None => Ok (mkTransformable container_type columns)
  end.

Definition transform (self : PredictTensorflow) (col_selector : list string)
    (transformable : Transformable) : M Transformable :=
  self_input_schema <- getattr (input_schema self) "input_schema" ;;
  input_tensors <-
    lift (collect_inputs (dict_keys (column_schemas self_input_schema)) transformable []) ;;
  self_output_schema <- getattr (output_schema self) "output_schema" ;;
  let inference_request :=
    mkInferenceRequest (tf_model_name self) (column_names self_output_schema)
      input_tensors in
  inference_response <- exec inference_request ;;
  outputs_dict <-
    lift (collect_outputs (dict_keys (column_schemas self_output_schema))
            inference_response []) ;;
  lift (Transformable_new (container_type transformable) outputs_dict).

End WithEnv.

(* ===================================================================== *)
(** ** The pipeline around the operator *)
(* ===================================================================== *)

(** Modelled from the spec: the ensemble runtime and the serving process
    are not among the sources.  The ensemble-level caller runs the
    transforms of its operators in order; an error raised by one of them is
    not caught, the later ones do not run, and the error goes verbatim to
    the caller. *)
Fixpoint run_operators (ops : list (Transformable -> M Transformable))
    (t : Transformable) : M Transformable :=
  match ops with
  | [] => ret t
  | op :: rest => t' <- op t ;; run_operators rest t'
  end.

(** Modelled from the spec: the answer to the client of a top-level
    inference request.  A failed run is surfaced as an error whose text
    holds the original message between whatever the server puts around
    it. *)
Inductive ClientAnswer :=
| Served (outputs : Transformable)
| Failed (message : string).

Definition top_level_infer (server_prefix server_suffix : string)
    (ops : list (Transformable -> M Transformable)) (request : Transformable)
    (w : World) : World * ClientAnswer :=
  match run_operators ops request w with
  | (w', Ok outputs) => (w', Served outputs)
  | (w', Raise e) =>
      (w', Failed (server_prefix ++ exn_msg e ++ server_suffix)%string)
  end.

(* ===================================================================== *)
(** ** A small world to run the definitions in *)
(* ===================================================================== *)

Module Demo.

Definition spec (shape : list (option Z)) (d : TFDType) : TensorSpec :=
  mkTensorSpec (Some shape) d None.

(** Inputs [a], [b] and output [c], as in the end-to-end property. *)
Definition sig_abc : Signature :=
  mkSignature
    [("a", spec [None; Some 1%Z] tf_float32); ("b", spec [None; Some 3%Z] tf_int64)]
    [("c", spec [None; Some 1%Z] tf_float32)].

Definition served_model : Model :=
  mkModel "weights" (SigMap [("serving_default", sig_abc)]) SpecOther.

Definition keras_model : Model :=
  mkModel "weights"
    SigMissing
    (SpecDict [("a", SpecOne (spec [None; Some 1%Z] tf_float32));
               ("b", SpecOne (spec [None; Some 3%Z] tf_int64))]).

(** A model whose saved form still has no default signature. *)
Definition bare_model : Model := mkModel "bare" SigMissing SpecOther.

Definition disk : FS :=
  assoc_path
    [(["/"], Dir);
     (["/"; "tmp"], Dir);
     (["/"; "out"], Dir);
     (["/"; "models"], Dir);
     (["/"; "models"; "m1"], Dir);
     (["/"; "models"; "m1"; "saved_model.pb"], File "weights");
     (["/"; "models"; "m1"; "variables"], Dir);
     (["/"; "models"; "m1"; "variables"; "variables.index"], File "index")].

Definition world : World := mkWorld disk [].

Definition print_config (c : ModelConfig) : string :=
  ("name: " ++ cfg_name c ++ " backend: " ++ cfg_backend c
   ++ " platform: " ++ cfg_platform c)%string.

Definition env : Env :=
  mkEnv
    (fun m => ([(["saved_model.pb"], File (model_id m))], None))
    (fun fs p _ =>
       match fs (p // "saved_model.pb") with
       | Some (File "weights") => Ok served_model
       | Some (File _) => Ok (mkModel "bare" (SigMap []) SpecOther)
       | _ => Raise (mkExn FileNotFoundError "No file or directory found")
       end)
    (fun _ _ => [])
    (fun _ _ _ => ([], Some (mkExn ShutilError "File name too long")))
    ["/"; "tmp"]
    (fun _ => "tmp8x3k")
    print_config
    (fun _ req =>
       match req_model_name req with
       | Some "0_predicttensorflow" =>
           Ok (mkInferenceResponse
                 [mkTensor "c" (mkArray np_float32 [2%Z; 1%Z] [7%Z; 9%Z])])
       | _ => Raise (mkExn TritonModelException "Number Too High!!")
       end)
    (fun _ _ => None).

(** The same surroundings, with a TensorFlow that leaves a generated
    source file in the temp root when it loads a model. *)
Definition env_autograph : Env :=
  mkEnv (saved_model_files env) (load_model_from env)
    (fun _ _ => [(["__autograph_generated_file0a1b2c.py"], File "# coding=utf-8")])
    (copytree_aliased env) (gettempdir env) (mkdtemp_name env)
    (PrintMessage env) (triton_exec env) (container_rejects env).

(** A model whose serving signature has a one-dimensional input. *)
Definition flat_model : Model :=
  mkModel "flat"
    (SigMap [("serving_default",
              mkSignature [("x", spec [None] tf_float32)]
                          [("y", spec [None; Some 1%Z] tf_float32)])])
    SpecOther.

Definition cls : OperatorClass := mkOperatorClass "PredictTensorflow" None.

Definition df : Transformable :=
  mkTransformable "DataFrame"
    [("a", mkArray np_float32 [2%Z; 1%Z] [1%Z; 2%Z]);
     ("b", mkArray np_int64 [2%Z; 3%Z] [1%Z; 2%Z; 3%Z; 4%Z; 5%Z; 6%Z])].

Definition input_cols : dict ColumnSchema :=
  [("a", ColumnSchema_new "a" (Some np_float32));
   ("b", _set_list_length (ColumnSchema_new "b" (Some np_int64)) 3%Z)].

Definition output_cols : dict ColumnSchema :=
  [("c", ColumnSchema_new "c" (Some np_float32))].

(** The operator built from the path [/models/m1]. *)
Definition loaded_op : PredictTensorflow :=
  mkPredictTensorflow "PredictTensorflow" None None
    (Some (PStr "/models/m1")) (Some served_model)
    (Some (mkSchema input_cols)) (Some (mkSchema output_cols)).

(** The operator built from the in-memory model. *)
Definition memory_op : PredictTensorflow :=
  mkPredictTensorflow "PredictTensorflow" None None
    None (Some (_ensure_input_spec_includes_names keras_model))
    (Some (mkSchema input_cols)) (Some (mkSchema output_cols)).

(** [loaded_op] after an export with [node_id=0]. *)
Definition exported_op : PredictTensorflow :=
  set_tf_model_name loaded_op "0_predicttensorflow".

(** An operator of the pipeline whose user code raises. *)
Definition failing_op (t : Transformable) : M Transformable :=
  raise ValueError "Number Too High!!".

Definition rename_op (t : Transformable) : M Transformable :=
  ret (mkTransformable (container_type t)
         (map (fun kv => ((fst kv ++ "_nvt")%string, snd kv)) (columns t))).

End Demo.

(* ===================================================================== *)
(** ** What the spec says of a derived column *)
(* ===================================================================== *)

(** The tensor's second dimension, when it is known. *)
Definition second_dim (col : TensorSpec) : option Z :=
  match ts_shape col with
  | Some (_ :: Some L :: _) => Some L
  | _ => None
  end.

(** The tensor has a second dimension to look at: its rank is unknown or
    at least 2. *)
Definition has_second_dim (col : TensorSpec) : bool :=
  match ts_shape col with
  | None => true
  | Some ds => (2 <=? List.length ds)%nat
  end.

(** A fixed-length list of length [L]: value_count min = max = L, not
    ragged. *)
Definition fixed_list_of (c : ColumnSchema) (L : Z) : Prop :=
  cs_is_list c = true /\ cs_is_ragged c = false /\ cs_value_count c = Some (L, L).

(** [kc], an entry of a derived schema, describes the signature entry
    [entry]: same name, the tensor's element type, a fixed-length list of
    length [L] exactly when the second dimension is [L > 1], and the plain
    scalar column otherwise. *)
Definition column_describes (entry : string * TensorSpec)
    (kc : string * ColumnSchema) : Prop :=
  let (col_name, col) := entry in
  let (key, c) := kc in
  key = col_name
  /\ cs_name c = col_name
  /\ cs_dtype c = Some (as_numpy_dtype (ts_dtype col))
  /\ (forall L, fixed_list_of c L <-> second_dim col = Some L /\ (1 < L)%Z)
  /\ ((forall L, second_dim col = Some L -> (L <= 1)%Z) ->
      c = ColumnSchema_new col_name (Some (as_numpy_dtype (ts_dtype col)))).

(** The two loops of [_construct_schemas_from_model], run on the signature
    [s] for the model [m]. *)
Definition schemas_of_signature (m : Model) (s : Signature)
    : result (Model * (Schema * Schema)) :=
  rbind (schema_of_specs (structured_input_signature_1 s) Schema_new)
    (fun input_schema =>
       rbind (schema_of_specs (structured_outputs s) Schema_new)
         (fun output_schema => Ok (m, (input_schema, output_schema)))).

(** The dict read by [getattr(model, "signatures", {}) or {}]. *)
Definition signatures_or_empty (m : Model) : dict Signature :=
  match signatures m with
  | SigMap d => d
  | SigMissing | SigNone => []
  end.

(** The package directory name the spec gives: ['<node_id>_<export_name>'],
    or ['<export_name>'] alone without a node id. *)
Definition package_name (export_name : string) (node_id : option Z) : string :=
  match node_id with
  | Some n => (str_int n ++ "_" ++ export_name)%string
  | None => export_name
  end.

(** The step of [export] that places the model artifact at [dst]. *)
Definition place_artifact (env : Env) (self : PredictTensorflow) (dst : PurePath)
    : M unit :=
  if path_truthy (path self) then
    match path self with
    | Some p => copytree env (fspath p) dst
    | None => ret tt
    end
  else
    self_model <- getattr (model self) "model" ;;
    Model_save env self_model dst false.

(* ===================================================================== *)
(** ** Comparing filesystems *)
(* ===================================================================== *)

(** [fs'] is [fs] where some missing entries, all of them leading to
    [name], have become directories. *)
Definition adds_dirs_to (name : PurePath) (fs fs' : FS) : Prop :=
  forall p,
    fs' p = fs p
    \/ (fs p = None /\ fs' p = Some Dir /\ exists rest, name = p ++ rest).

(** [fs'] and [fs] agree on every path that is not [d] or below it. *)
Definition same_outside (d : PurePath) (fs fs' : FS) : Prop :=
  forall p, is_under d p = false -> fs' p = fs p.

(* ===================================================================== *)
(** ** The rest of the operator *)
(* ===================================================================== *)

(** [__getstate__]: [{k: v for k, v in self.__dict__.items() if k != "model"}],
    given the instance dict. *)
Definition __getstate__ {V} (__dict__ : dict V) : dict V :=
  filter (fun kv => negb (String.eqb (fst kv) "model")) __dict__.

(** [compute_input_schema]: the four arguments are not read. *)
Definition compute_input_schema (self : PredictTensorflow)
    (root_schema parents_schema deps_schema : Schema) (selector : list string)
    : result Schema :=
  match input_schema self with
  | Some s => Ok s
  | None => Raise (mkExn AttributeError "input_schema")
  end.

(** [compute_output_schema]: the three arguments are not read. *)
Definition compute_output_schema (self : PredictTensorflow)
    (input_schema_arg : Schema) (col_selector : list string)
    (prev_output_schema : option Schema) : result Schema :=
  match output_schema self with
  | Some s => Ok s
  | None => Raise (mkExn AttributeError "output_schema")
  end.

(** [self.exportable_backends] *)
Definition exportable_backends (self : PredictTensorflow) : list string :=
  ["ensemble"; "executor"].

(** What holds of every entry of a schema derived from a signature: the
    key is the column's own name, the element type is known, there are no
    explicit dims and no ragged list, and a list column carries its length
    [L > 1] as value_count min = max = L while a scalar column carries no
    value_count. *)
Definition derived_column_ok (kc : string * ColumnSchema) : Prop :=
  fst kc = cs_name (snd kc)
  /\ cs_dtype (snd kc) <> None
  /\ cs_dims (snd kc) = None
  /\ cs_is_ragged (snd kc) = false
  /\ (if cs_is_list (snd kc)
      then exists L, (1 < L)%Z /\ cs_value_count (snd kc) = Some (L, L)
      else cs_value_count (snd kc) = None).

(** The rewrite [_ensure_input_spec_includes_names] applies to the entry
    [key, spec]. *)
Definition named_item (key : string) (spec : SpecItem) : SpecItem :=
  match spec with
  | SpecTuple s0 s1 _ => SpecTuple (named_spec s0 key) (named_spec s1 key) []
  | SpecOne s => SpecOne (named_spec s key)
  end.

(* ===================================================================== *)
(** * Properties *)
(* ===================================================================== *)

(** ** Dicts and paths *)

Lemma dict_set_fresh {V} (d : dict V) (k : string) (v : V) :
  ~ In k (dict_keys d) -> dict_set d k v = d ++ [(k, v)].
Proof.
  induction d as [|[k' v'] d IH]; simpl; intros Hk.
  - reflexivity.
  - destruct (String.eqb k' k) eqn:E.
    + apply String.eqb_eq in E. exfalso. apply Hk. now left.
    + rewrite IH; [reflexivity|]. intros Hin. apply Hk. now right.
Qed.

Lemma dict_keys_app {V} (d1 d2 : dict V) :
  dict_keys (d1 ++ d2) = dict_keys d1 ++ dict_keys d2.
Proof. unfold dict_keys. apply map_app. Qed.

Lemma path_eqb_refl (p : PurePath) : path_eqb p p = true.
Proof.
  induction p as [|a p IH]; simpl; [reflexivity|].
  now rewrite String.eqb_refl, IH.
Qed.

Lemma path_eqb_eq (p q : PurePath) : path_eqb p q = true <-> p = q.
Proof.
  revert q. induction p as [|a p IH]; intros [|b q]; simpl; split; intros H;
    try reflexivity; try discriminate.
  - apply andb_true_iff in H as [Hab Hpq].
    apply String.eqb_eq in Hab. apply IH in Hpq. now subst.
  - injection H as -> ->. now rewrite String.eqb_refl, path_eqb_refl.
Qed.

Lemma strip_prefix_app (d rel : PurePath) : strip_prefix d (d ++ rel) = Some rel.
Proof.
  induction d as [|a d IH]; simpl; [reflexivity|].
  now rewrite String.eqb_refl.
Qed.

Lemma strip_prefix_Some (d p rel : PurePath) :
  strip_prefix d p = Some rel -> p = d ++ rel.
Proof.
  revert p. induction d as [|a d IH]; intros p H; simpl in *.
  - now injection H as ->.
  - destruct p as [|b p]; [discriminate|].
    destruct (String.eqb a b) eqn:E; [|discriminate].
    apply String.eqb_eq in E. subst b. f_equal. now apply IH.
Qed.

Lemma is_under_app (d rel : PurePath) : is_under d (d ++ rel) = true.
Proof. unfold is_under. now rewrite strip_prefix_app. Qed.

Lemma is_under_inv (d p : PurePath) :
  is_under d p = true -> exists rel, p = d ++ rel.
Proof.
  unfold is_under. destruct (strip_prefix d p) as [rel|] eqn:E; [|discriminate].
  intros _. exists rel. now apply strip_prefix_Some.
Qed.

(** ** C1: dimension vectors *)

(** C1.  [compute_dims], called as the tests call it: a plain scalar column
    (no list flag, no explicit shape) gives [-1; 1]; a list column with no
    explicit shape, ragged or not, gives [-1; -1]; a column with explicit
    shape dims gives -1 for the batch dimension followed, for each later
    dim, by -1 for [None] and for a (min, max) pair and by the literal
    integer otherwise, which for a shape whose first dim is [None] or a
    pair is the whole shape converted dim by dim; the four shapes of the
    tests give the four listed vectors; and in every case the first
    element of the result is -1. *)
Theorem compute_dims_by_case :
  forall (name : string) (dtype : option NPDType) (ragged : bool)
         (vc : option (Z * Z)),
    compute_dims (mkColumnSchema name dtype false ragged vc None) None
      = [-1; 1]%Z
    /\ compute_dims (mkColumnSchema name dtype true ragged vc None) None
      = [-1; -1]%Z
    /\ (forall is_list ds ss,
          compute_dims (mkColumnSchema name dtype is_list ragged vc (Some ds)) ss
          = (-1)%Z :: map dim_value (tl ds))
    /\ (forall is_list ds ss,
          compute_dims (mkColumnSchema name dtype is_list ragged vc (Some (DNone :: ds))) ss
          = map dim_value (DNone :: ds))
    /\ (forall is_list lo hi ds ss,
          compute_dims
            (mkColumnSchema name dtype is_list ragged vc (Some (DRange lo hi :: ds))) ss
          = map dim_value (DRange lo hi :: ds))
    /\ (dim_value DNone = (-1)%Z
        /\ (forall lo hi, dim_value (DRange lo hi) = (-1)%Z)
        /\ (forall n, dim_value (DInt n) = n))
    /\ (forall is_list,
          compute_dims
            (mkColumnSchema name dtype is_list ragged vc (Some [DNone; DInt 2])) None
          = [-1; 2]%Z
          /\ compute_dims
               (mkColumnSchema name dtype is_list ragged vc (Some [DNone; DNone])) None
             = [-1; -1]%Z
          /\ compute_dims
               (mkColumnSchema name dtype is_list ragged vc (Some [DNone; DRange 1 4])) None
             = [-1; -1]%Z
          /\ compute_dims
               (mkColumnSchema name dtype is_list ragged vc
                  (Some [DNone; DInt 3; DInt 4])) None
             = [-1; 3; 4]%Z)
    /\ (forall c ss, hd_error (compute_dims c ss) = Some (-1)%Z).
Proof.
  intros name dtype ragged vc.
  repeat split; intros; try reflexivity.
  unfold compute_dims.
  destruct (cs_dims c); [reflexivity|].
  destruct (cs_is_list c); reflexivity.
Qed.

(** The batch entry is -1 also where the shape starts with a literal:
    [(5, 2)] gives [-1; 2]. *)
Lemma compute_dims_literal_batch_dim (name : string) :
  compute_dims (mkColumnSchema name None false false None (Some [DInt 5; DInt 2]))
    None = [-1; 2]%Z.
Proof. reflexivity. Qed.

(** ** C2: columns derived from a serving signature *)

Ltac describes_case :=
  eexists; split; [reflexivity|]; simpl;
  repeat split; try reflexivity;
  repeat match goal with
         | |- _ -> _ => intro
         | H : _ /\ _ |- _ => destruct H
         | H : forall L, Some ?x = Some L -> _ |- _ => specialize (H x eq_refl)
         | H : Some _ = Some _ |- _ => injection H; clear H; intros; subst
         end;
  try discriminate; try lia; try congruence.

Lemma column_of_tensor_describes (col_name : string) (col : TensorSpec) :
  has_second_dim col = true ->
  exists c, column_of_tensor col_name col = Ok c
            /\ column_describes (col_name, col) (col_name, c).
Proof.
  unfold has_second_dim, column_of_tensor, column_describes, second_dim,
    shape_getitem, fixed_list_of.
  destruct (ts_shape col) as [[|d0 [|d1 ds]]|]; simpl; intros Hrank;
    try discriminate.
  - destruct d1 as [L|]; simpl.
    + destruct (Z.eqb_spec L 0) as [->|Hnz]; simpl.
      * describes_case.
      * destruct (Z.ltb_spec 1 L) as [Hlt|Hle]; describes_case.
    + describes_case.
  - describes_case.
Qed.

Lemma schema_of_specs_describes (items : dict TensorSpec) :
  forall acc : dict ColumnSchema,
    NoDup (dict_keys acc ++ dict_keys items) ->
    forallb has_second_dim (map snd items) = true ->
    exists cols,
      schema_of_specs items (mkSchema acc) = Ok (mkSchema (acc ++ cols))
      /\ Forall2 column_describes items cols.
Proof.
  induction items as [|[col_name col] rest IH]; intros acc Hnd Hall.
  - exists []. rewrite app_nil_r. split; [reflexivity|constructor].
  - simpl in Hall. apply andb_true_iff in Hall as [Hcol Hrest].
    destruct (column_of_tensor_describes col_name col Hcol) as (c & Hc & Hdesc).
    simpl in Hnd.
    assert (Hfresh : ~ In col_name (dict_keys acc)).
    { apply NoDup_remove_2 in Hnd. intros Hin. apply Hnd.
      apply in_or_app. now left. }
    destruct (IH (acc ++ [(col_name, c)])) as (cols & Hrun & Hcols).
    + rewrite dict_keys_app. simpl. now rewrite <- app_assoc.
    + exact Hrest.
    + exists ((col_name, c) :: cols). split.
      * simpl. rewrite Hc. simpl. rewrite dict_set_fresh by exact Hfresh.
        rewrite Hrun. now rewrite <- app_assoc.
      * now constructor.
Qed.

(** C2.  For a model that shows a ['serving_default'] signature whose
    input and output tensors all have a second dimension to read (rank
    unknown or at least 2), the derivation succeeds without touching the
    world, leaves the model as it is, and gives two schemas with one column
    per tensor, in the order of the signature: each column has the tensor's
    name and element type, is a fixed-length list of length [L]
    (value_count min = max = L, not ragged) exactly when the tensor's
    second dimension is [L > 1], and is the plain scalar column
    otherwise. *)
Theorem schemas_follow_signature :
  forall (env : Env) (model : Model) (sigs : dict Signature) (sig : Signature)
         (w : World),
    signatures model = SigMap sigs ->
    dict_get sigs "serving_default" = Some sig ->
    NoDup (dict_keys (structured_input_signature_1 sig)) ->
    NoDup (dict_keys (structured_outputs sig)) ->
    forallb has_second_dim (map snd (structured_input_signature_1 sig)) = true ->
    forallb has_second_dim (map snd (structured_outputs sig)) = true ->
    exists input_cols output_cols,
      _construct_schemas_from_model env model w
      = (w, Ok (model, (mkSchema input_cols, mkSchema output_cols)))
      /\ Forall2 column_describes (structured_input_signature_1 sig) input_cols
      /\ Forall2 column_describes (structured_outputs sig) output_cols.
Proof.
  intros env model sigs sig w Hsigs Hget Hnd_in Hnd_out Hin Hout.
  destruct (schema_of_specs_describes _ [] Hnd_in Hin) as (ic & Hic & Hdi).
  destruct (schema_of_specs_describes _ [] Hnd_out Hout) as (oc & Hoc & Hdo).
  exists ic, oc. split; [|split; assumption].
  unfold _construct_schemas_from_model. rewrite Hsigs, Hget.
  unfold bind, ret, lift, Schema_new. simpl.
  rewrite Hic, Hoc. reflexivity.
Qed.

(** The derivation run on the signature with inputs [a], [b] and output
    [c]. *)
Lemma schemas_follow_signature_witness :
  exists input_cols output_cols,
    _construct_schemas_from_model Demo.env Demo.served_model Demo.world
    = (Demo.world,
       Ok (Demo.served_model, (mkSchema input_cols, mkSchema output_cols)))
    /\ Forall2 column_describes (structured_input_signature_1 Demo.sig_abc) input_cols
    /\ Forall2 column_describes (structured_outputs Demo.sig_abc) output_cols.
Proof.
  apply (schemas_follow_signature Demo.env Demo.served_model
           [("serving_default", Demo.sig_abc)] Demo.sig_abc Demo.world).
  - reflexivity.
  - reflexivity.
  - simpl. repeat constructor; simpl; intuition discriminate.
  - simpl. repeat constructor; simpl; intuition discriminate.
  - reflexivity.
  - reflexivity.
Defined.

(** A tensor of rank 1 has no second dimension: reading it raises, and the
    derivation fails with that error. *)
Lemma column_of_tensor_rank_1 (col_name : string) (d : option Z) (t : TFDType)
    (n : option string) :
  column_of_tensor col_name (mkTensorSpec (Some [d]) t n)
  = Raise (mkExn IndexError "tuple index out of range").
Proof. reflexivity. Qed.

(** Stated for every tensor of the signature, C2 fails: the input [x] of
    this signature is one-dimensional, so it has no second dimension
    greater than 1, yet no scalar column comes out for it, nor any schema
    at all; the derivation raises. *)
Lemma schemas_follow_signature_counterexample :
  let r := _construct_schemas_from_model Demo.env Demo.flat_model Demo.world in
  dict_get (signatures_or_empty Demo.flat_model) "serving_default"
  = Some (mkSignature [("x", Demo.spec [None] tf_float32)]
                      [("y", Demo.spec [None; Some 1%Z] tf_float32)])
  /\ second_dim (Demo.spec [None] tf_float32) = None
  /\ snd r = Raise (mkExn IndexError "tuple index out of range")
  /\ ~ (exists m input_schema output_schema,
          snd r = Ok (m, (input_schema, output_schema))).
Proof.
  cbv zeta. split; [reflexivity|]. split; [reflexivity|].
  split; [reflexivity|].
  intros (m & i & o & H). discriminate H.
Qed.

(** ** C10: the [from_path] class method *)

Lemma call___init___outcome (env : Env) (self_arg : PyVal) (kwargs : dict PyVal)
    (w : World) :
  (exists e, snd (call___init__ env self_arg kwargs w) = Raise e)
  \/ snd (call___init__ env self_arg kwargs w) = Ok VNone.
Proof.
  unfold call___init__.
  destruct (negb (forallb _ (dict_keys kwargs))).
  - left. eexists. reflexivity.
  - destruct (dict_get kwargs "model_or_path") as [model_or_path|].
    + destruct self_arg; try (left; eexists; reflexivity).
      unfold bind.
      destruct (init_body env op model_or_path _ _ w) as [w' [self'|e]].
      * right. reflexivity.
      * left. eexists. reflexivity.
    + left. eexists. reflexivity.
Qed.

(** C10.  For every class, path, keyword arguments and world,
    [from_path] is the call of [__init__] with the path in the place of
    [self]: it raises or returns [None], and never returns an instance.
    When the path is a str, a PathLike, a model or the like, no object
    exists for [super().__init__()] to work on and the call raises
    [TypeError]; when it is [None], the call raises as well, with the
    [TypeError] of keywords that do not bind or else with the
    [AttributeError] of the first assignment to [self]. *)
Theorem from_path_returns_no_instance :
  forall (env : Env) (cls : OperatorClass) (path_arg : PyVal)
         (kwargs : dict PyVal) (w : World),
    from_path env cls path_arg kwargs w = call___init__ env path_arg kwargs w
    /\ ((exists e, snd (from_path env cls path_arg kwargs w) = Raise e)
        \/ snd (from_path env cls path_arg kwargs w) = Ok VNone)
    /\ (forall op, snd (from_path env cls path_arg kwargs w) <> Ok (VInstance op))
    /\ match path_arg with
       | VInstance _ => True
       | VNone =>
           exists e,
             from_path env cls path_arg kwargs w = (w, Raise e)
             /\ if forallb
                     (fun k => String.eqb k "model_or_path"
                               || String.eqb k "custom_objects"
                               || String.eqb k "backend")
                     (dict_keys kwargs)
                   && match dict_get kwargs "model_or_path" with
                      | Some _ => true
                      | None => false
                      end
                then e = mkExn AttributeError
                           "'NoneType' object has no attribute '_tf_model_name'"
                else exn_kind e = TypeError
       | _ => exists msg,
                from_path env cls path_arg kwargs w = (w, Raise (mkExn TypeError msg))
       end.
Proof.
  intros env cls path_arg kwargs w.
  split; [reflexivity|]. split; [apply call___init___outcome|]. split.
  - intros op H.
    destruct (call___init___outcome env path_arg kwargs w) as [[e He]|He];
      unfold from_path in H; rewrite He in H; discriminate.
  - unfold from_path, call___init__.
    destruct path_arg; try exact I;
      destruct (forallb _ (dict_keys kwargs)); cbn [negb andb];
      try (eexists; reflexivity);
      destruct (dict_get kwargs "model_or_path");
      try (eexists; reflexivity);
      eexists; split; reflexivity.
Qed.

(** ** C7: the request issued by [transform] *)

Lemma dict_get_set {V} (d : dict V) (k k' : string) (v : V) :
  dict_get (dict_set d k v) k'
  = if String.eqb k k' then Some v else dict_get d k'.
Proof.
  induction d as [|[k0 v0] d IH]; simpl.
  - reflexivity.
  - destruct (String.eqb k0 k) eqn:E; simpl.
    + apply String.eqb_eq in E. subst k0.
      destruct (String.eqb k k'); reflexivity.
    + destruct (String.eqb k0 k') eqn:E'.
      * apply String.eqb_eq in E'. subst k0. now rewrite String.eqb_sym, E.
      * exact IH.
Qed.

Lemma existsb_eqb_In (k : string) (keys : list string) :
  existsb (String.eqb k) keys = true <-> In k keys.
Proof.
  rewrite existsb_exists. split.
  - intros (x & Hx & E). apply String.eqb_eq in E. now subst.
  - intros H. exists k. split; [exact H|apply String.eqb_refl].
Qed.

Lemma collect_inputs_ok (t : Transformable) (keys : list string) :
  forall acc,
    forallb (fun k => match dict_get (columns t) k with
                      | Some _ => true
                      | None => false
                      end) keys = true ->
    exists tensors,
      collect_inputs keys t acc = Ok (acc ++ tensors)
      /\ Forall2 (fun k x => tensor_name x = k
                             /\ dict_get (columns t) k = Some (as_numpy x))
           keys tensors.
Proof.
  induction keys as [|k keys IH]; intros acc Hall; simpl in *.
  - exists []. rewrite app_nil_r. split; [reflexivity|constructor].
  - destruct (dict_get (columns t) k) as [a|] eqn:Ek; [|discriminate].
    simpl in Hall.
    destruct (IH (acc ++ [mkTensor k a]) Hall) as (tensors & Hrun & Hall2).
    exists (mkTensor k a :: tensors). split.
    + rewrite Hrun. now rewrite <- app_assoc.
    + constructor; [|exact Hall2]. simpl. now split.
Qed.

Lemma collect_outputs_ok (resp : InferenceResponse) (keys : list string) :
  forall acc,
    forallb (fun k => match get_output_tensor_by_name resp k with
                      | Some _ => true
                      | None => false
                      end) keys = true ->
    exists d,
      collect_outputs keys resp acc = Ok d
      /\ forall k,
           dict_get d k
           = if existsb (String.eqb k) keys
             then option_map as_numpy (get_output_tensor_by_name resp k)
             else dict_get acc k.
Proof.
  induction keys as [|k0 keys IH]; intros acc Hall; simpl in *.
  - exists acc. split; reflexivity.
  - destruct (get_output_tensor_by_name resp k0) as [x|] eqn:Ex; [|discriminate].
    simpl in Hall.
    destruct (IH (dict_set acc k0 (as_numpy x)) Hall) as (d & Hrun & Hd).
    exists d. split; [exact Hrun|].
    intros k. rewrite Hd, dict_get_set.
    destruct (existsb (String.eqb k) keys); [now rewrite orb_true_r|].
    rewrite orb_false_r, (String.eqb_sym k k0).
    destruct (String.eqb k0 k) eqn:E; [|reflexivity].
    apply String.eqb_eq in E. subst k0. now rewrite Ex.
Qed.

Lemma collect_outputs_missing (resp : InferenceResponse) (keys : list string) :
  forall acc,
    forallb (fun k => match get_output_tensor_by_name resp k with
                      | Some _ => true
                      | None => false
                      end) keys = false ->
    exists msg, collect_outputs keys resp acc = Raise (mkExn AttributeError msg).
Proof.
  induction keys as [|k0 keys IH]; intros acc Hall; simpl in *.
  - discriminate.
  - destruct (get_output_tensor_by_name resp k0) as [x|].
    + simpl in Hall. now apply IH.
    + eexists. reflexivity.
Qed.

(** One run of [transform], step by step. *)
Lemma transform_run (env : Env) (self : PredictTensorflow)
    (col_selector : list string) (t : Transformable) (w : World)
    (isch osch : Schema) :
  input_schema self = Some isch ->
  output_schema self = Some osch ->
  forallb (fun k => match dict_get (columns t) k with
                    | Some _ => true
                    | None => false
                    end) (column_names isch) = true ->
  exists tensors,
    Forall2 (fun k x => tensor_name x = k
                           /\ dict_get (columns t) k = Some (as_numpy x))
      (column_names isch) tensors
    /\ transform env self col_selector t w
       = let req := mkInferenceRequest (tf_model_name self) (column_names osch)
                      tensors in
         (mkWorld (w_fs w) (w_log w ++ [CallInfer req]),
          rbind (triton_exec env (w_log w) req) (fun resp =>
            rbind (collect_outputs (column_names osch) resp [])
              (Transformable_new env (container_type t)))).
Proof.
  intros Hin Hout Hcols.
  destruct (collect_inputs_ok t (column_names isch) [] Hcols)
    as (tensors & Hrun & Hall).
  exists tensors. split; [exact Hall|].
  unfold transform, column_names in *. rewrite Hin, Hout.
  unfold getattr, bind, ret, lift, exec, get_log, log_call. simpl.
  rewrite Hrun. simpl.
  destruct (triton_exec env (w_log w) _) as [resp|e]; simpl; [|reflexivity].
  destruct (collect_outputs _ resp []); reflexivity.
Qed.

(** C7.  For an operator whose schemas are set and a container that holds
    the input-schema columns, [transform] issues exactly one inference
    request, whatever the server answers: it is addressed to the recorded
    model name, carries one tensor per input-schema column, named after the
    column and taken from the container by that name, and asks for exactly
    the output-schema column names; the filesystem is left alone.  An
    error of the server is raised as it is, with no second attempt.
    Otherwise the result is what the caller's container type makes of the
    columns that hold, for each output-schema column, the output tensor of
    that name, and nothing else: a new container of that type, unless the
    type refuses the columns; a response that lacks one of them is an
    [AttributeError].  The schemas are used for their column names only:
    an operator with other dtypes or shapes under the same names behaves
    the same, so nothing is validated against them. *)
Theorem transform_marshals_one_request :
  forall (env : Env) (self : PredictTensorflow) (col_selector : list string)
         (t : Transformable) (w : World) (isch osch : Schema),
    input_schema self = Some isch ->
    output_schema self = Some osch ->
    forallb (fun k => match dict_get (columns t) k with
                      | Some _ => true
                      | None => false
                      end) (column_names isch) = true ->
    exists tensors,
      Forall2 (fun k x => tensor_name x = k
                             /\ dict_get (columns t) k = Some (as_numpy x))
        (column_names isch) tensors
      /\ let req := mkInferenceRequest (tf_model_name self) (column_names osch)
                      tensors in
         let r := transform env self col_selector t w in
         w_log (fst r) = w_log w ++ [CallInfer req]
         /\ w_fs (fst r) = w_fs w
         /\ match triton_exec env (w_log w) req with
            | Raise e => snd r = Raise e
            | Ok resp =>
                if forallb (fun k => match get_output_tensor_by_name resp k with
                                     | Some _ => true
                                     | None => false
                                     end) (column_names osch)
                then exists outputs,
                       snd r = Transformable_new env (container_type t) outputs
                       /\ match container_rejects env (container_type t)
                                  outputs with
                          | Some e => snd r = Raise e
                          | None =>
                              snd r = Ok (mkTransformable (container_type t)
                                            outputs)
                          end
                       /\ (forall k, In k (column_names osch) ->
                             exists x,
                               get_output_tensor_by_name resp k = Some x
                               /\ dict_get outputs k = Some (as_numpy x))
                       /\ (forall k, ~ In k (column_names osch) ->
                             dict_get outputs k = None)
                else exists msg, snd r = Raise (mkExn AttributeError msg)
            end
         /\ (forall self2 isch2 osch2 col_selector2,
               input_schema self2 = Some isch2 ->
               output_schema self2 = Some osch2 ->
               column_names isch2 = column_names isch ->
               column_names osch2 = column_names osch ->
               tf_model_name self2 = tf_model_name self ->
               transform env self2 col_selector2 t w
               = transform env self col_selector t w).
Proof.
  intros env self col_selector t w isch osch Hin Hout Hcols.
  destruct (transform_run env self col_selector t w isch osch Hin Hout Hcols)
    as (tensors & Hall & Hrun).
  exists tensors. split; [exact Hall|].
  assert (Hnames : forall self2 isch2 osch2 col_selector2,
             input_schema self2 = Some isch2 ->
             output_schema self2 = Some osch2 ->
             column_names isch2 = column_names isch ->
             column_names osch2 = column_names osch ->
             tf_model_name self2 = tf_model_name self ->
             transform env self2 col_selector2 t w
             = transform env self col_selector t w).
  { intros self2 isch2 osch2 col_selector2 Hin2 Hout2 Hni Hno Hname.
    unfold transform, column_names in *.
    rewrite Hin, Hout, Hin2, Hout2, Hname. simpl.
    unfold bind, getattr, ret, lift. simpl. rewrite Hni, Hno. reflexivity. }
  cbv zeta. split; [|split; [|split; [|exact Hnames]]]; rewrite Hrun;
    cbv zeta; simpl fst; simpl snd; try reflexivity.
  clear Hnames Hrun.
  destruct (triton_exec env (w_log w) _) as [resp|e]; simpl; [|reflexivity].
  destruct (forallb _ (column_names osch)) eqn:Hpresent.
  - destruct (collect_outputs_ok resp _ [] Hpresent) as (d & Hd & Hget).
    exists d. rewrite Hd. simpl. split; [reflexivity|]. split; [|split].
    + unfold Transformable_new.
      destruct (container_rejects env (container_type t) d); reflexivity.
    + intros k Hk. rewrite Hget.
      apply existsb_eqb_In in Hk. rewrite Hk.
      rewrite forallb_forall in Hpresent.
      apply existsb_eqb_In in Hk. specialize (Hpresent k Hk).
      destruct (get_output_tensor_by_name resp k) as [x|]; [|discriminate].
      exists x. split; reflexivity.
    + intros k Hk. rewrite Hget.
      destruct (existsb (String.eqb k) (column_names osch)) eqn:E;
        [|reflexivity].
      apply existsb_eqb_In in E. contradiction.
  - destruct (collect_outputs_missing resp _ [] Hpresent) as (msg & Hmsg).
    exists msg. now rewrite Hmsg.
Qed.

(** The request sent for the data frame with columns [a] and [b]. *)
Lemma transform_marshals_one_request_witness :
  exists tensors,
    Forall2 (fun k x => tensor_name x = k
                           /\ dict_get (columns Demo.df) k = Some (as_numpy x))
      ["a"; "b"] tensors
    /\ w_log (fst (transform Demo.env Demo.exported_op [] Demo.df Demo.world))
       = [CallInfer (mkInferenceRequest (Some "0_predicttensorflow") ["c"] tensors)].
Proof.
  destruct (transform_marshals_one_request Demo.env Demo.exported_op []
              Demo.df Demo.world (mkSchema Demo.input_cols)
              (mkSchema Demo.output_cols) eq_refl eq_refl eq_refl)
    as (tensors & Hall & Hlog & _).
  exists tensors. split; [exact Hall|exact Hlog].
Defined.

(** Stated for every input container, C7 fails: for a data frame that
    lacks the input column [b], no request is issued at all. *)
Lemma transform_marshals_one_request_counterexample :
  let t := mkTransformable "DataFrame"
             [("a", mkArray np_float32 [2%Z; 1%Z] [1%Z; 2%Z])] in
  let r := transform Demo.env Demo.exported_op [] t Demo.world in
  snd r = Raise (mkExn KeyError "b")
  /\ w_log (fst r) = w_log Demo.world
  /\ ~ (exists req, w_log (fst r) = w_log Demo.world ++ [CallInfer req]).
Proof.
  cbv zeta. split; [reflexivity|]. split; [reflexivity|].
  intros [req H]. discriminate H.
Qed.

(** ** C8: an error raised while serving reaches the client *)

Lemma prefix_app (m s : string) : String.prefix m (m ++ s) = true.
Proof.
  induction m as [|c m IH]; simpl.
  - destruct s; reflexivity.
  - destruct (ascii_dec c c) as [_|Hne]; [exact IH|now elim Hne].
Qed.

Lemma str_contains_prefix (m h : string) :
  String.prefix m h = true -> str_contains m h = true.
Proof. intros H. destruct h; cbn [str_contains]; now rewrite H. Qed.

Lemma str_contains_app (m p s : string) :
  str_contains m (p ++ m ++ s) = true.
Proof.
  induction p as [|c p IH].
  - change ("" ++ m ++ s)%string with (m ++ s)%string.
    apply str_contains_prefix, prefix_app.
  - change (String c p ++ m ++ s)%string with (String c (p ++ m ++ s)).
    cbn [str_contains]. rewrite IH. apply orb_true_r.
Qed.

Lemma run_operators_app (before after : list (Transformable -> M Transformable)) :
  forall (t : Transformable) (w : World),
    run_operators (before ++ after) t w
    = match run_operators before t w with
      | (w1, Ok t1) => run_operators after t1 w1
      | (w1, Raise e) => (w1, Raise e)
      end.
Proof.
  induction before as [|op before IH]; intros t w; simpl.
  - reflexivity.
  - unfold bind. destruct (op t w) as [w1 [t1|e]]; [apply IH|reflexivity].
Qed.

(** C8.  In a pipeline, let the operators before [op] run to the end and
    let the transform of [op] raise [e].  Nothing catches the error: the
    operators after [op] do not run, the top-level inference call fails in
    the world [op] left behind, and the message surfaced to the client
    holds the original message as a substring. *)
Theorem transform_error_reaches_client :
  forall (server_prefix server_suffix : string)
         (before after : list (Transformable -> M Transformable))
         (op : Transformable -> M Transformable)
         (request t1 : Transformable) (w : World) (e : PyExn),
    snd (run_operators before request w) = Ok t1 ->
    snd (op t1 (fst (run_operators before request w))) = Raise e ->
    exists message,
      top_level_infer server_prefix server_suffix (before ++ op :: after) request w
      = (fst (op t1 (fst (run_operators before request w))), Failed message)
      /\ message = (server_prefix ++ exn_msg e ++ server_suffix)%string
      /\ str_contains (exn_msg e) message = true.
Proof.
  intros server_prefix server_suffix before after op request t1 w e Hbefore Hop.
  exists (server_prefix ++ exn_msg e ++ server_suffix)%string.
  split; [|split; [reflexivity|apply str_contains_app]].
  unfold top_level_infer. rewrite run_operators_app.
  destruct (run_operators before request w) as [w1 r1]. simpl in *. subst r1.
  unfold bind. destruct (op t1 w1) as [w2 r2]. simpl in *. now subst r2.
Qed.

(** A renaming step, then user code that raises "Number Too High!!", then
    the TensorFlow operator, which is never reached. *)
Lemma transform_error_reaches_client_witness :
  exists message,
    top_level_infer "Failed to process the request(s), message: ValueError: " " At: model.py"
      ([Demo.rename_op] ++ Demo.failing_op :: [transform Demo.env Demo.exported_op []])
      Demo.df Demo.world
    = (Demo.world, Failed message)
    /\ str_contains "Number Too High!!" message = true.
Proof.
  destruct (transform_error_reaches_client
              "Failed to process the request(s), message: ValueError: " " At: model.py"
              [Demo.rename_op] [transform Demo.env Demo.exported_op []]
              Demo.failing_op Demo.df
              (mkTransformable "DataFrame"
                 (map (fun kv => ((fst kv ++ "_nvt")%string, snd kv))
                    (columns Demo.df)))
              Demo.world (mkExn ValueError "Number Too High!!")
              eq_refl eq_refl)
    as (message & Hrun & _ & Hsub).
  exists message. split; [exact Hrun|exact Hsub].
Defined.

(** The TensorFlow operator does not catch what the serving call raises:
    asked before any export, the server of the small world refuses, and the
    same error leaves [transform]. *)
Lemma transform_raises_server_error :
  snd (transform Demo.env Demo.loaded_op [] Demo.df Demo.world)
  = Raise (mkExn TritonModelException "Number Too High!!").
Proof. reflexivity. Qed.

(** ** Runs of the filesystem operations *)

Lemma bind_ok_inv {A B} (c : M A) (k : A -> M B) (w w' : World) (b : B) :
  bind c k w = (w', Ok b) ->
  exists a w1, c w = (w1, Ok a) /\ k a w1 = (w', Ok b).
Proof.
  unfold bind. destruct (c w) as [w1 [a|e]]; intros H.
  - now exists a, w1.
  - discriminate.
Qed.

Lemma fs_set_eq (fs : FS) (p : PurePath) (n : Node) : fs_set fs p n p = Some n.
Proof. unfold fs_set. now rewrite path_eqb_refl. Qed.

Lemma fs_set_ne (fs : FS) (p q : PurePath) (n : Node) :
  q <> p -> fs_set fs p n q = fs q.
Proof.
  intros Hne. unfold fs_set. destruct (path_eqb q p) eqn:E; [|reflexivity].
  apply path_eqb_eq in E. contradiction.
Qed.

Lemma os_mkdir_run (p : PurePath) (w : World) :
  os_mkdir p w
  = if fs_exists (w_fs w) p
    then (w, Raise (mkExn FileExistsError "File exists"))
    else if fs_is_dir (w_fs w) (removelast p)
         then (mkWorld (fs_set (w_fs w) p Dir) (w_log w), Ok tt)
         else (w, Raise (lookup_error (w_fs w) (removelast p))).
Proof.
  unfold os_mkdir, bind, get_fs, raise, put_fs.
  destruct (fs_exists (w_fs w) p); [reflexivity|].
  destruct (fs_is_dir (w_fs w) (removelast p)); reflexivity.
Qed.

Lemma fs_exists_false (fs : FS) (p : PurePath) :
  fs_exists fs p = false -> p <> [] /\ fs p = None.
Proof.
  destruct p as [|a p]; simpl; [discriminate|].
  destruct (fs (a :: p)); [discriminate|]. intros _. split; [discriminate|reflexivity].
Qed.

Lemma adds_dirs_to_refl (name : PurePath) (fs : FS) : adds_dirs_to name fs fs.
Proof. intros p. now left. Qed.

Lemma adds_dirs_to_trans (name name' : PurePath) (fs1 fs2 fs3 : FS) :
  (forall p rest, name = p ++ rest -> exists rest', name' = p ++ rest') ->
  adds_dirs_to name fs1 fs2 -> adds_dirs_to name' fs2 fs3 ->
  adds_dirs_to name' fs1 fs3.
Proof.
  intros Hsub H12 H23 p.
  destruct (H12 p) as [E12|(N1 & D2 & rest & Hr)];
    destruct (H23 p) as [E23|(N2 & D3 & rest' & Hr')].
  - left. congruence.
  - right. split; [congruence|]. split; [exact D3|]. now exists rest'.
  - right. split; [exact N1|]. split; [congruence|]. now apply (Hsub p rest).
  - congruence.
Qed.

Lemma os_mkdir_adds (p : PurePath) (w : World) :
  w_log (fst (os_mkdir p w)) = w_log w
  /\ adds_dirs_to p (w_fs w) (w_fs (fst (os_mkdir p w))).
Proof.
  rewrite os_mkdir_run.
  destruct (fs_exists (w_fs w) p) eqn:Ex;
    [split; [reflexivity|apply adds_dirs_to_refl]|].
  destruct (fs_is_dir (w_fs w) (removelast p));
    [|split; [reflexivity|apply adds_dirs_to_refl]].
  split; [reflexivity|]. simpl. intros q.
  destruct (path_eqb q p) eqn:E.
  - apply path_eqb_eq in E. subst q. right.
    apply fs_exists_false in Ex as [_ Hnone].
    split; [exact Hnone|]. split; [apply fs_set_eq|].
    exists []. now rewrite app_nil_r.
  - left. unfold fs_set. now rewrite E.
Qed.

Lemma os_mkdir_ok (p : PurePath) (w : World) :
  snd (os_mkdir p w) = Ok tt -> fs_is_dir (w_fs (fst (os_mkdir p w))) p = true.
Proof.
  rewrite os_mkdir_run.
  destruct (fs_exists (w_fs w) p); [discriminate|].
  destruct (fs_is_dir (w_fs w) (removelast p)); [|discriminate].
  intros _. destruct p as [|a p]; [reflexivity|].
  unfold fs_is_dir. cbn [fst w_fs]. now rewrite fs_set_eq.
Qed.

Lemma mkdir_unless_isdir_adds (p : PurePath) (w : World) :
  w_log (fst (mkdir_unless_isdir p w)) = w_log w
  /\ adds_dirs_to p (w_fs w) (w_fs (fst (mkdir_unless_isdir p w))).
Proof.
  unfold mkdir_unless_isdir.
  pose proof (os_mkdir_adds p w) as H.
  destruct (os_mkdir p w) as [w' [[]|e]]; simpl in *; [exact H|].
  destruct (fs_is_dir (w_fs w') p); exact H.
Qed.

Lemma mkdir_unless_isdir_ok (p : PurePath) (w : World) :
  snd (mkdir_unless_isdir p w) = Ok tt ->
  fs_is_dir (w_fs (fst (mkdir_unless_isdir p w))) p = true.
Proof.
  unfold mkdir_unless_isdir.
  pose proof (os_mkdir_ok p w) as H.
  destruct (os_mkdir p w) as [w' [[]|e]]; simpl in *; [now apply H|].
  destruct (fs_is_dir (w_fs w') p) eqn:E; [now intros _|discriminate].
Qed.

Lemma Path_mkdir_exist_ok_adds (p : PurePath) (w : World) :
  w_log (fst (Path_mkdir_exist_ok p w)) = w_log w
  /\ adds_dirs_to p (w_fs w) (w_fs (fst (Path_mkdir_exist_ok p w))).
Proof.
  unfold Path_mkdir_exist_ok.
  pose proof (os_mkdir_adds p w) as H.
  destruct (os_mkdir p w) as [w' [u|e]]; simpl in *; [exact H|].
  destruct (exn_kind e); try exact H;
    destruct (fs_is_dir (w_fs w') p); exact H.
Qed.

Lemma Path_mkdir_exist_ok_ok (p : PurePath) (w : World) :
  snd (Path_mkdir_exist_ok p w) = Ok tt ->
  fs_is_dir (w_fs (fst (Path_mkdir_exist_ok p w))) p = true.
Proof.
  unfold Path_mkdir_exist_ok.
  pose proof (os_mkdir_ok p w) as H.
  destruct (os_mkdir p w) as [w' [[]|e]]; simpl in *; [now apply H|].
  destruct (exn_kind e); try discriminate;
    destruct (fs_is_dir (w_fs w') p) eqn:E; try discriminate; now intros _.
Qed.

Lemma Path_mkdir_exist_ok_raise (p : PurePath) (w : World) (e : PyExn) :
  snd (Path_mkdir_exist_ok p w) = Raise e -> fst (Path_mkdir_exist_ok p w) = w.
Proof.
  unfold Path_mkdir_exist_ok. rewrite os_mkdir_run.
  destruct (fs_exists (w_fs w) p); simpl.
  - destruct (fs_is_dir (w_fs w) p); [discriminate|reflexivity].
  - destruct (fs_is_dir (w_fs w) (removelast p)); [discriminate|].
    intros _. destruct (exn_kind _); try reflexivity;
      destruct (fs_is_dir (w_fs w) p); reflexivity.
Qed.

Lemma makedirs_rev_cons (x : string) (rhead : list string) (w : World) :
  makedirs_rev (x :: rhead) w
  = match
      match rhead with
      | [] => (w, Ok tt)
      | _ :: _ =>
          if fs_exists (w_fs w) (rev rhead) then (w, Ok tt)
          else
            match makedirs_rev rhead w with
            | (w', Raise e) =>
                match exn_kind e with
                | FileExistsError => (w', Ok tt)
                | _ => (w', Raise e)
                end
            | ok => ok
            end
      end
    with
    | (w1, Ok _) => mkdir_unless_isdir (rev (x :: rhead)) w1
    | (w1, Raise e) => (w1, Raise e)
    end.
Proof. reflexivity. Qed.

Lemma makedirs_rev_adds (rname : list string) :
  forall w,
    w_log (fst (makedirs_rev rname w)) = w_log w
    /\ adds_dirs_to (rev rname) (w_fs w) (w_fs (fst (makedirs_rev rname w))).
Proof.
  induction rname as [|x rhead IH]; intros w.
  - split; [reflexivity|apply adds_dirs_to_refl].
  - rewrite makedirs_rev_cons.
    assert (Hsub : forall p rest, rev rhead = p ++ rest ->
                     exists rest', rev (x :: rhead) = p ++ rest').
    { intros p rest E. exists (rest ++ [x]). simpl. rewrite E. now rewrite app_assoc. }
    assert (Hsame : forall p rest, rev (x :: rhead) = p ++ rest ->
                     exists rest', rev (x :: rhead) = p ++ rest') by eauto.
    assert (Hstep : forall w1 r1,
               (w1, r1) = (w, Ok tt) \/ w1 = fst (makedirs_rev rhead w) ->
               w_log w1 = w_log w /\ adds_dirs_to (rev rhead) (w_fs w) (w_fs w1)).
    { intros w1 r1 [E|E].
      - injection E as -> ->. split; [reflexivity|apply adds_dirs_to_refl].
      - subst w1. apply IH. }
    assert (Hfin : forall w1,
               w_log w1 = w_log w /\ adds_dirs_to (rev rhead) (w_fs w) (w_fs w1) ->
               w_log (fst (mkdir_unless_isdir (rev (x :: rhead)) w1)) = w_log w
               /\ adds_dirs_to (rev (x :: rhead)) (w_fs w)
                    (w_fs (fst (mkdir_unless_isdir (rev (x :: rhead)) w1)))).
    { intros w1 [Hl Ha].
      destruct (mkdir_unless_isdir_adds (rev (x :: rhead)) w1) as [Hl' Ha'].
      split; [congruence|].
      eapply adds_dirs_to_trans; [exact Hsub|exact Ha|exact Ha']. }
    assert (Hraise : forall w1,
               w_log w1 = w_log w /\ adds_dirs_to (rev rhead) (w_fs w) (w_fs w1) ->
               w_log w1 = w_log w
               /\ adds_dirs_to (rev (x :: rhead)) (w_fs w) (w_fs w1)).
    { intros w1 [Hl Ha]. split; [exact Hl|].
      eapply adds_dirs_to_trans; [exact Hsub|exact Ha|apply adds_dirs_to_refl]. }
    destruct rhead as [|y rh].
    + apply Hfin. apply (Hstep w (Ok tt)). now left.
    + destruct (fs_exists (w_fs w) (rev (y :: rh))).
      * apply Hfin. apply (Hstep w (Ok tt)). now left.
      * specialize (Hstep (fst (makedirs_rev (y :: rh) w)) (Ok tt) (or_intror eq_refl)).
        destruct (makedirs_rev (y :: rh) w) as [w' [[]|e]]; simpl fst in Hstep.
        -- now apply Hfin.
        -- destruct (exn_kind e); try (now apply Hraise). now apply Hfin.
Qed.

Lemma makedirs_rev_ok (rname : list string) (w : World) :
  snd (makedirs_rev rname w) = Ok tt ->
  fs_is_dir (w_fs (fst (makedirs_rev rname w))) (rev rname) = true.
Proof.
  destruct rname as [|x rhead]; [reflexivity|].
  rewrite makedirs_rev_cons.
  destruct rhead as [|y rh]; [apply mkdir_unless_isdir_ok|].
  destruct (fs_exists (w_fs w) (rev (y :: rh))); [apply mkdir_unless_isdir_ok|].
  destruct (makedirs_rev (y :: rh) w) as [w' [[]|e]];
    [apply mkdir_unless_isdir_ok|].
  destruct (exn_kind e); try (intros H; discriminate H).
  apply mkdir_unless_isdir_ok.
Qed.

Lemma adds_dirs_to_keeps (name : PurePath) (fs fs' : FS) (p : PurePath) (n : Node) :
  adds_dirs_to name fs fs' -> fs p = Some n -> fs' p = Some n.
Proof.
  intros H E. destruct (H p) as [E'|(N & _)]; congruence.
Qed.

Lemma adds_dirs_to_exists (name : PurePath) (fs fs' : FS) (p : PurePath) :
  adds_dirs_to name fs fs' -> fs_exists fs p = true -> fs_exists fs' p = true.
Proof.
  intros H. destruct p as [|a p]; [reflexivity|]. simpl.
  destruct (fs (a :: p)) as [n|] eqn:E; [|discriminate].
  now rewrite (adds_dirs_to_keeps _ _ _ _ _ H E).
Qed.

Lemma adds_dirs_to_is_dir (name : PurePath) (fs fs' : FS) (p : PurePath) :
  adds_dirs_to name fs fs' -> fs_is_dir fs p = true -> fs_is_dir fs' p = true.
Proof.
  intros H. destruct p as [|a p]; [reflexivity|]. simpl.
  destruct (fs (a :: p)) as [[|c]|] eqn:E; try discriminate.
  now rewrite (adds_dirs_to_keeps _ _ _ _ _ H E).
Qed.

Lemma os_mkdir_only (p q : PurePath) (w : World) :
  q <> p -> w_fs (fst (os_mkdir p w)) q = w_fs w q.
Proof.
  intros Hne. rewrite os_mkdir_run.
  destruct (fs_exists (w_fs w) p); [reflexivity|].
  destruct (fs_is_dir (w_fs w) (removelast p)); [|reflexivity].
  simpl. now apply fs_set_ne.
Qed.

Lemma mkdir_unless_isdir_only (p q : PurePath) (w : World) :
  q <> p -> w_fs (fst (mkdir_unless_isdir p w)) q = w_fs w q.
Proof.
  intros Hne. unfold mkdir_unless_isdir.
  pose proof (os_mkdir_only p q w Hne) as H.
  destruct (os_mkdir p w) as [w' [[]|e]]; simpl in *; [exact H|].
  destruct (fs_is_dir (w_fs w') p); exact H.
Qed.

Lemma rev_nil_inv {A} (l : list A) : rev l = [] -> l = [].
Proof.
  intros H. apply (f_equal (@rev A)) in H. now rewrite rev_involutive in H.
Qed.

Lemma makedirs_snoc (head : PurePath) (x : string) (w : World) :
  head <> [] ->
  makedirs (head ++ [x]) w
  = if fs_exists (w_fs w) head then mkdir_unless_isdir (head ++ [x]) w
    else
      match makedirs head w with
      | (w', Ok _) => mkdir_unless_isdir (head ++ [x]) w'
      | (w', Raise e) =>
          match exn_kind e with
          | FileExistsError => mkdir_unless_isdir (head ++ [x]) w'
          | _ => (w', Raise e)
          end
      end.
Proof.
  intros Hne. unfold makedirs. rewrite rev_unit, makedirs_rev_cons.
  replace (rev (x :: rev head)) with (head ++ [x])
    by (simpl; now rewrite rev_involutive).
  destruct (rev head) as [|y rh] eqn:E.
  - apply rev_nil_inv in E. contradiction.
  - rewrite <- E, rev_involutive.
    destruct (fs_exists (w_fs w) head); [reflexivity|].
    destruct (makedirs_rev (rev head) w) as [w' [[]|e]]; [reflexivity|].
    destruct (exn_kind e); reflexivity.
Qed.

Lemma makedirs_adds (name : PurePath) (w : World) :
  w_log (fst (makedirs name w)) = w_log w
  /\ adds_dirs_to name (w_fs w) (w_fs (fst (makedirs name w))).
Proof.
  unfold makedirs. pose proof (makedirs_rev_adds (rev name) w) as H.
  now rewrite rev_involutive in H.
Qed.

Lemma makedirs_ok (name : PurePath) (w : World) :
  snd (makedirs name w) = Ok tt ->
  fs_is_dir (w_fs (fst (makedirs name w))) name = true.
Proof.
  unfold makedirs. intros H. apply makedirs_rev_ok in H.
  now rewrite rev_involutive in H.
Qed.

Lemma snoc_not_nil {A} (l : list A) (x : A) : l ++ [x] <> [].
Proof. destruct l; discriminate. Qed.

Lemma is_under_false_ne (d p : PurePath) (rel : PurePath) :
  is_under d p = false -> p <> d ++ rel.
Proof. intros H E. subst p. now rewrite is_under_app in H. Qed.

Lemma fs_overlay_outside (fs : FS) (dst : PurePath) (files : PurePath -> option Node)
    (p : PurePath) :
  is_under dst p = false -> fs_overlay fs dst files p = fs p.
Proof.
  unfold fs_overlay, is_under. destruct (strip_prefix dst p); [discriminate|reflexivity].
Qed.

Lemma fs_overlay_at (fs : FS) (dst : PurePath) (files : PurePath -> option Node) :
  fs_overlay fs dst files dst = fs dst.
Proof.
  unfold fs_overlay. replace (strip_prefix dst dst) with (Some (@nil string)).
  - reflexivity.
  - rewrite <- (app_nil_r dst) at 2. now rewrite strip_prefix_app.
Qed.

Lemma fs_overlay_under (fs : FS) (dst : PurePath) (files : PurePath -> option Node)
    (c : string) (rel : PurePath) (n : Node) :
  files (c :: rel) = Some n -> fs_overlay fs dst files (dst ++ c :: rel) = Some n.
Proof.
  intros H. unfold fs_overlay. now rewrite strip_prefix_app, H.
Qed.

Lemma is_under_trans_app (d x p : PurePath) :
  is_under d p = false -> is_under (d ++ x) p = false.
Proof.
  intros H. destruct (is_under (d ++ x) p) eqn:E; [|reflexivity].
  apply is_under_inv in E as (rel & ->).
  now rewrite <- app_assoc, is_under_app in H.
Qed.

(** [Model_save] into a child of an existing directory changes nothing
    outside that directory. *)
Lemma Model_save_same_outside (env : Env) (m : Model) (head : PurePath)
    (x : string) (io : bool) (w : World) :
  head <> [] ->
  fs_exists (w_fs w) head = true ->
  same_outside head (w_fs w) (w_fs (fst (Model_save env m (head // x) io w)))
  /\ fs_exists (w_fs (fst (Model_save env m (head // x) io w))) head = true.
Proof.
  intros Hne Hex.
  unfold Model_save, pjoin, bind, log_call, get_fs, put_fs, lift, ret.
  rewrite makedirs_snoc by exact Hne. cbn [w_fs]. rewrite Hex.
  set (w0 := mkWorld (w_fs w) (w_log w ++ [CallSave m (head ++ [x]) io])).
  pose proof (mkdir_unless_isdir_adds (head ++ [x]) w0) as [_ Hadd].
  assert (Hout : same_outside head (w_fs w)
                   (w_fs (fst (mkdir_unless_isdir (head ++ [x]) w0)))).
  { intros p Hp. rewrite mkdir_unless_isdir_only; [reflexivity|].
    now apply is_under_false_ne. }
  assert (Hex' : fs_exists (w_fs (fst (mkdir_unless_isdir (head ++ [x]) w0))) head
                 = true).
  { eapply adds_dirs_to_exists; [exact Hadd|exact Hex]. }
  destruct (mkdir_unless_isdir (head ++ [x]) w0) as [w1 [[]|e]];
    cbn [fst w_fs] in *; [|split; assumption].
  destruct (saved_model_files env m) as [files err].
  assert (Hgoal : same_outside head (w_fs w)
                    (fs_overlay (w_fs w1) (head ++ [x]) (assoc_path files))
                  /\ fs_exists (fs_overlay (w_fs w1) (head ++ [x]) (assoc_path files))
                       head = true).
  { split.
    - intros p Hp. rewrite fs_overlay_outside by now apply is_under_trans_app.
      now apply Hout.
    - destruct head as [|a head]; [contradiction|].
      cbn [fs_exists] in *. rewrite fs_overlay_outside; [exact Hex'|].
      destruct (is_under ((a :: head) ++ [x]) (a :: head)) eqn:E; [|reflexivity].
      apply is_under_inv in E as (rel & E).
      apply (f_equal (@List.length string)) in E.
      rewrite !length_app in E. simpl in E. lia. }
  destruct err as [e|]; cbn [fst w_fs]; exact Hgoal.
Qed.

Lemma os_mkdir_raise (p : PurePath) (w : World) (e : PyExn) :
  snd (os_mkdir p w) = Raise e -> os_mkdir p w = (w, Raise e).
Proof.
  rewrite os_mkdir_run.
  destruct (fs_exists (w_fs w) p); simpl; [now intros ->|].
  destruct (fs_is_dir (w_fs w) (removelast p)); simpl; [discriminate|now intros ->].
Qed.

Lemma fs_is_dir_exists (fs : FS) (p : PurePath) :
  fs_is_dir fs p = true -> fs_exists fs p = true.
Proof.
  destruct p as [|a p]; [reflexivity|]. simpl.
  destruct (fs (a :: p)) as [[|c]|]; try discriminate; reflexivity.
Qed.

Lemma load_model_run (env : Env) (p : PurePath) (custom_objects : PyVal) (w : World) :
  load_model env p custom_objects w
  = match load_model_from env (w_fs w) p custom_objects with
    | Ok m =>
        (mkWorld (fs_overlay (w_fs w) (gettempdir env)
                    (assoc_path (keras_temp_files env (w_fs w) p)))
           (w_log w ++ [CallLoadModel p custom_objects]),
         Ok m)
    | Raise e =>
        (mkWorld (w_fs w) (w_log w ++ [CallLoadModel p custom_objects]), Raise e)
    end.
Proof.
  unfold load_model, bind, log_call, get_fs, lift, put_fs, ret. cbn.
  destruct (load_model_from env (w_fs w) p custom_objects); reflexivity.
Qed.

Lemma load_model_log (env : Env) (p : PurePath) (custom_objects : PyVal) (w : World) :
  w_log (fst (load_model env p custom_objects w))
  = w_log w ++ [CallLoadModel p custom_objects].
Proof.
  rewrite load_model_run.
  destruct (load_model_from env (w_fs w) p custom_objects); reflexivity.
Qed.

Lemma load_model_result (env : Env) (p : PurePath) (custom_objects : PyVal)
    (w : World) :
  snd (load_model env p custom_objects w)
  = load_model_from env (w_fs w) p custom_objects.
Proof.
  rewrite load_model_run.
  destruct (load_model_from env (w_fs w) p custom_objects); reflexivity.
Qed.

(** An overlay changes a path only by putting one of its files there. *)
Lemma fs_overlay_cases (fs : FS) (dst : PurePath) (files : PurePath -> option Node)
    (p : PurePath) :
  fs_overlay fs dst files p = fs p
  \/ exists rel n,
       p = dst ++ rel /\ files rel = Some n /\ fs_overlay fs dst files p = Some n.
Proof.
  unfold fs_overlay.
  destruct (strip_prefix dst p) as [[|c rel]|] eqn:E; try now left.
  destruct (files (c :: rel)) as [n|] eqn:F; [|now left].
  right. exists (c :: rel), n. apply strip_prefix_Some in E. now split.
Qed.

(** What a load leaves in the temp root is all it changes. *)
Lemma load_model_frame (env : Env) (q : PurePath) (custom_objects : PyVal)
    (w : World) (p : PurePath) :
  w_fs (fst (load_model env q custom_objects w)) p = w_fs w p
  \/ exists rel n,
       p = gettempdir env ++ rel
       /\ assoc_path (keras_temp_files env (w_fs w) q) rel = Some n
       /\ w_fs (fst (load_model env q custom_objects w)) p = Some n.
Proof.
  rewrite load_model_run.
  destruct (load_model_from env (w_fs w) q custom_objects); [|now left].
  cbn [fst w_fs]. apply fs_overlay_cases.
Qed.

(** The block run inside the temporary directory [d]: outside [d] it
    changes nothing but the paths where the reload left a file in the temp
    root. *)
Lemma roundtrip_frame (env : Env) (model : Model) (d : PurePath) (w : World)
    (p : PurePath) :
  let body :=
    Model_save env model (d // "model.savedmodel") false ;;
    reloaded <- load_model env (d // "model.savedmodel") VNone ;;
    lift (signatures_getitem reloaded "serving_default") in
  d <> [] ->
  fs_exists (w_fs w) d = true ->
  is_under d p = false ->
  w_fs (fst (body w)) p = w_fs w p
  \/ exists fs0 rel n,
       p = gettempdir env ++ rel
       /\ assoc_path (keras_temp_files env fs0 (d // "model.savedmodel")) rel
          = Some n
       /\ w_fs (fst (body w)) p = Some n.
Proof.
  intros body Hne Hex Hp.
  assert (Hbody :
    body w
    = match Model_save env model (d // "model.savedmodel") false w with
      | (w1, Ok _) =>
          match load_model env (d // "model.savedmodel") VNone w1 with
          | (w2, Ok reloaded) =>
              (w2, signatures_getitem reloaded "serving_default")
          | (w2, Raise e) => (w2, Raise e)
          end
      | (w1, Raise e) => (w1, Raise e)
      end).
  { unfold body, bind, lift.
    destruct (Model_save env model (d // "model.savedmodel") false w)
      as [w1 [[]|e]]; [|reflexivity].
    destruct (load_model env (d // "model.savedmodel") VNone w1) as [w2 [m|e]];
      reflexivity. }
  rewrite Hbody. clear Hbody body.
  destruct (Model_save_same_outside env model d "model.savedmodel" false w Hne Hex)
    as [Hout _].
  specialize (Hout p Hp).
  destruct (Model_save env model (d // "model.savedmodel") false w) as [w1 [[]|e]];
    cbn [fst] in *; [|now left].
  pose proof (load_model_frame env (d // "model.savedmodel") VNone w1 p) as Hload.
  destruct (load_model env (d // "model.savedmodel") VNone w1) as [w2 [m|e]];
    cbn [fst] in *;
    (destruct Hload as [Hl|(rel & n & Hrel & Hfile & Hl)];
     [left; now rewrite Hl|right; now exists (w_fs w1), rel, n]).
Qed.

(** ** C9: the temporary directory of the regeneration step *)

(** C9.  Let [d] be the temporary directory of the regeneration step, made
    in the system temp root.  In every execution of the step, whether the
    save/reload round trip returns a signature or raises: when the
    directory was created, nothing is left at [d] or below it on exit; when
    it could not be created the step ends at once with that error and the
    world untouched.  A path that is not [d] or below it holds afterwards
    what it held before, unless it is a place in the temp root where the
    reload left a file of TensorFlow's own: so nothing changes outside the
    temp root, and nothing at all outside [d] when the reload leaves no
    such files.  The first of these holds of the whole schema derivation,
    too. *)
Theorem temporary_directory_removed :
  forall (env : Env) (model : Model) (w : World),
    let d := gettempdir env // mkdtemp_name env (w_fs w) in
    let r := regenerate_signature env model w in
    (snd (os_mkdir d w) = Ok tt ->
     forall p, is_under d p = true -> w_fs (fst r) p = None)
    /\ (forall e, snd (os_mkdir d w) = Raise e -> r = (w, Raise e))
    /\ (forall p,
          is_under d p = false ->
          w_fs (fst r) p = w_fs w p
          \/ exists fs0 rel n,
               p = gettempdir env ++ rel
               /\ assoc_path (keras_temp_files env fs0 (d // "model.savedmodel"))
                    rel = Some n
               /\ w_fs (fst r) p = Some n)
    /\ same_outside (gettempdir env) (w_fs w) (w_fs (fst r))
    /\ ((forall fs0 q, keras_temp_files env fs0 q = []) ->
        same_outside d (w_fs w) (w_fs (fst r)))
    /\ same_outside (gettempdir env) (w_fs w)
         (w_fs (fst (_construct_schemas_from_model env model w))).
Proof.
  intros env model w d r.
  assert (Hd : d <> []) by apply snoc_not_nil.
  assert (Hrun : forall m,
             regenerate_signature env m w
             = match os_mkdir d w with
               | (w1, Ok _) =>
                   let (w2, r2) :=
                     (Model_save env m (d // "model.savedmodel") false ;;
                      reloaded <- load_model env (d // "model.savedmodel") VNone ;;
                      lift (signatures_getitem reloaded "serving_default")) w1 in
                   (cleanup d w2, r2)
               | (w1, Raise e) => (w1, Raise e)
               end).
  { intros m. unfold regenerate_signature, TemporaryDirectory, finally.
    unfold bind at 1. unfold get_fs at 1. unfold bind at 1. fold d.
    destruct (os_mkdir d w) as [w1 [[]|e]]; reflexivity. }
  assert (Hchange : forall m p,
             is_under d p = false ->
             w_fs (fst (regenerate_signature env m w)) p = w_fs w p
             \/ exists fs0 rel n,
                  p = gettempdir env ++ rel
                  /\ assoc_path (keras_temp_files env fs0 (d // "model.savedmodel"))
                       rel = Some n
                  /\ w_fs (fst (regenerate_signature env m w)) p = Some n).
  { intros m p Hp. rewrite Hrun.
    pose proof (os_mkdir_only d p w) as Honly.
    pose proof (os_mkdir_ok d w) as Hok.
    pose proof (os_mkdir_raise d w) as Hraise.
    destruct (os_mkdir d w) as [w1 [[]|e]]; cbn [fst snd] in *.
    - pose proof (roundtrip_frame env m d w1 p Hd
                    (fs_is_dir_exists _ _ (Hok eq_refl)) Hp) as Hbody.
      cbv zeta in Hbody.
      destruct ((Model_save env m (d // "model.savedmodel") false ;;
                 reloaded <- load_model env (d // "model.savedmodel") VNone ;;
                 lift (signatures_getitem reloaded "serving_default")) w1)
        as [w2 r2]; cbn [fst] in *.
      assert (Hrm : fs_rmtree (w_fs w2) d p = w_fs w2 p)
        by (unfold fs_rmtree; now rewrite Hp).
      cbn [cleanup w_fs]. rewrite Hrm.
      destruct Hbody as [Hb|(fs0 & rel & n & Hrel & Hfile & Hb)].
      + left. rewrite Hb. apply Honly.
        now apply (is_under_false_ne d p []) in Hp; rewrite app_nil_r in Hp.
      + right. now exists fs0, rel, n.
    - specialize (Hraise e eq_refl). injection Hraise as ->. now left. }
  assert (Hroot : forall m,
             same_outside (gettempdir env) (w_fs w)
               (w_fs (fst (regenerate_signature env m w)))).
  { intros m p Hp.
    assert (Hpd : is_under d p = false)
      by (unfold d, pjoin; now apply is_under_trans_app).
    destruct (Hchange m p Hpd) as [H|(fs0 & rel & n & Hrel & _ & _)];
      [exact H|].
    subst p. now rewrite is_under_app in Hp. }
  split; [|split; [|split; [|split; [|split]]]].
  - subst r. rewrite Hrun. intros Hok p Hp.
    destruct (os_mkdir d w) as [w1 [[]|e]]; [|discriminate].
    destruct ((Model_save env model (d // "model.savedmodel") false ;;
               reloaded <- load_model env (d // "model.savedmodel") VNone ;;
               lift (signatures_getitem reloaded "serving_default")) w1)
      as [w2 r2].
    cbn. unfold fs_rmtree. now rewrite Hp.
  - subst r. rewrite Hrun. intros e He.
    apply os_mkdir_raise in He. now rewrite He.
  - apply Hchange.
  - apply Hroot.
  - intros Hnone p Hp.
    destruct (Hchange model p Hp) as [H|(fs0 & rel & n & _ & Hfile & _)];
      [exact H|].
    rewrite Hnone in Hfile. discriminate.
  - unfold _construct_schemas_from_model.
    destruct (dict_get _ "serving_default") as [s|].
    + unfold bind, ret, lift. cbn.
      destruct (schema_of_specs (structured_input_signature_1 s) Schema_new); cbn;
        [|intros p _; reflexivity].
      destruct (schema_of_specs (structured_outputs s) Schema_new); cbn;
        intros p _; reflexivity.
    + specialize (Hroot (_ensure_input_spec_includes_names model)).
      unfold bind at 1. unfold bind at 1.
      destruct (regenerate_signature env (_ensure_input_spec_includes_names model) w)
        as [w1 [s|e]]; cbn [fst] in *; [|exact Hroot].
      unfold bind, ret, lift. cbn.
      destruct (schema_of_specs (structured_input_signature_1 s) Schema_new); cbn;
        [|exact Hroot].
      destruct (schema_of_specs (structured_outputs s) Schema_new); cbn;
        exact Hroot.
Qed.

(** A round trip that ends in [KeyError]: the directory is gone all the
    same. *)
Lemma temporary_directory_removed_witness :
  (forall p, is_under ["/"; "tmp"; "tmp8x3k"] p = true ->
     w_fs (fst (regenerate_signature Demo.env Demo.bare_model Demo.world)) p = None)
  /\ snd (regenerate_signature Demo.env Demo.bare_model Demo.world)
     = Raise (mkExn KeyError "serving_default")
  /\ same_outside ["/"; "tmp"; "tmp8x3k"] (w_fs Demo.world)
       (w_fs (fst (regenerate_signature Demo.env Demo.bare_model Demo.world))).
Proof.
  destruct (temporary_directory_removed Demo.env Demo.bare_model Demo.world)
    as (H & _ & _ & _ & Hsame & _).
  split; [exact (H eq_refl)|]. split; [reflexivity|].
  apply Hsame. reflexivity.
Defined.

(** Stated for all file system state outside the temporary directory, C9
    fails: with a TensorFlow that leaves a generated source file in the
    temp root when it reloads the model, a path outside the temporary
    directory holds a file after the step that it did not hold before. *)
Lemma temporary_directory_removed_counterexample :
  let d := ["/"; "tmp"; "tmp8x3k"] in
  let p := ["/"; "tmp"; "__autograph_generated_file0a1b2c.py"] in
  let r := regenerate_signature Demo.env_autograph Demo.keras_model Demo.world in
  gettempdir Demo.env_autograph
    // mkdtemp_name Demo.env_autograph (w_fs Demo.world) = d
  /\ is_under d p = false
  /\ w_fs Demo.world p = None
  /\ w_fs (fst r) p = Some (File "# coding=utf-8")
  /\ ~ same_outside d (w_fs Demo.world) (w_fs (fst r)).
Proof.
  cbv zeta. split; [reflexivity|]. split; [reflexivity|].
  split; [reflexivity|]. split; [reflexivity|].
  intros H.
  specialize (H ["/"; "tmp"; "__autograph_generated_file0a1b2c.py"] eq_refl).
  discriminate H.
Qed.

(** ** C3: the two-step fallback of the schema derivation *)

Lemma regenerate_signature_run (env : Env) (m : Model) (w : World) :
  let d := gettempdir env // mkdtemp_name env (w_fs w) in
  let dst := d // "model.savedmodel" in
  regenerate_signature env m w
  = match os_mkdir d w with
    | (w1, Ok _) =>
        match Model_save env m dst false w1 with
        | (w2, Ok _) =>
            (cleanup d (fst (load_model env dst VNone w2)),
             rbind (load_model_from env (w_fs w2) dst VNone)
               (fun reloaded => signatures_getitem reloaded "serving_default"))
        | (w2, Raise e) => (cleanup d w2, Raise e)
        end
    | (w1, Raise e) => (w1, Raise e)
    end.
Proof.
  intros d dst. unfold regenerate_signature, TemporaryDirectory, finally.
  unfold bind at 1. unfold get_fs at 1. unfold bind at 1. fold d. fold dst.
  destruct (os_mkdir d w) as [w1 [[]|e]]; [|reflexivity].
  unfold bind at 1.
  destruct (Model_save env m dst false w1) as [w2 [[]|e]]; [|reflexivity].
  unfold bind, lift. rewrite load_model_run.
  destruct (load_model_from env (w_fs w2) dst VNone); reflexivity.
Qed.

Lemma construct_schemas_run (env : Env) (model : Model) (w : World) :
  _construct_schemas_from_model env model w
  = match dict_get (signatures_or_empty model) "serving_default" with
    | Some s => (w, schemas_of_signature model s)
    | None =>
        let m' := _ensure_input_spec_includes_names model in
        match regenerate_signature env m' w with
        | (w1, Ok s) => (w1, schemas_of_signature m' s)
        | (w1, Raise e) => (w1, Raise e)
        end
    end.
Proof.
  unfold _construct_schemas_from_model, signatures_or_empty, schemas_of_signature.
  destruct (dict_get _ "serving_default") as [s|].
  - unfold bind, ret, lift. cbn.
    destruct (schema_of_specs (structured_input_signature_1 s) Schema_new); cbn;
      [|reflexivity].
    destruct (schema_of_specs (structured_outputs s) Schema_new); reflexivity.
  - cbv zeta. unfold bind at 1. unfold bind at 1.
    destruct (regenerate_signature env (_ensure_input_spec_includes_names model) w)
      as [w1 [s|e]]; [|reflexivity].
    unfold bind, ret, lift. cbn.
    destruct (schema_of_specs (structured_input_signature_1 s) Schema_new); cbn;
      [|reflexivity].
    destruct (schema_of_specs (structured_outputs s) Schema_new); reflexivity.
Qed.

Lemma Model_save_log (env : Env) (m : Model) (dst : PurePath) (io : bool)
    (w : World) :
  w_log (fst (Model_save env m dst io w)) = w_log w ++ [CallSave m dst io].
Proof.
  unfold Model_save, bind, log_call, get_fs, put_fs, lift, ret.
  set (w0 := mkWorld (w_fs w) (w_log w ++ [CallSave m dst io])).
  pose proof (makedirs_adds dst w0) as [Hlog _].
  destruct (makedirs dst w0) as [w1 [[]|e]]; cbn [fst] in *; [|exact Hlog].
  destruct (saved_model_files env m) as [files [e|]]; cbn; exact Hlog.
Qed.

Lemma signatures_getitem_or_empty (m : Model) (key : string) :
  match dict_get (signatures_or_empty m) key with
  | Some s => signatures_getitem m key = Ok s
  | None => exists e, signatures_getitem m key = Raise e
  end.
Proof.
  unfold signatures_or_empty, signatures_getitem.
  destruct (signatures m) as [| |d]; simpl; try (eexists; reflexivity).
  destruct (dict_get d key); [reflexivity|eexists; reflexivity].
Qed.

(** [__init__] has no handler around the derivation: what it raises
    leaves the constructor. *)
Lemma construct_propagates (env : Env) (cls : OperatorClass) (model : Model)
    (custom_objects backend : PyVal) (w : World) (e : PyExn) :
  snd (_construct_schemas_from_model env model w) = Raise e ->
  snd (construct env cls (VModel model) custom_objects backend w) = Raise e.
Proof.
  unfold construct, init_body, bind, ret.
  destruct (_construct_schemas_from_model env model w) as [w1 [[m' [i o]]|e']];
    cbn; [discriminate|]. intros H. now injection H as ->.
Qed.

(** C3.  The schema derivation is a two-step fallback.  A model that shows
    a ['serving_default'] signature has it used directly: the world is
    untouched, nothing is saved or loaded.  Otherwise the model is saved
    into a temporary directory and loaded again, once each, and the
    signature of the reloaded model is used.  An error of the save or of
    the load leaves the derivation as it is, and when the reloaded model
    has no ['serving_default'] signature either, the derivation fails with
    the error of that lookup, a [KeyError] for a signature map without the
    key.  Whatever the derivation raises, the constructor that called it
    raises too. *)
Theorem schema_derivation_falls_back :
  forall (env : Env) (model : Model) (w : World),
    let d := gettempdir env // mkdtemp_name env (w_fs w) in
    let dst := d // "model.savedmodel" in
    let m' := _ensure_input_spec_includes_names model in
    let r := _construct_schemas_from_model env model w in
    (forall cls custom_objects backend e,
       snd r = Raise e ->
       snd (construct env cls (VModel model) custom_objects backend w) = Raise e)
    /\ (forall s,
          dict_get (signatures_or_empty model) "serving_default" = Some s ->
          r = (w, schemas_of_signature model s))
    /\ (dict_get (signatures_or_empty model) "serving_default" = None ->
        snd (os_mkdir d w) = Ok tt ->
        let saved := Model_save env m' dst false (fst (os_mkdir d w)) in
        match snd saved with
        | Raise e =>
            snd r = Raise e
            /\ w_log (fst r) = w_log w ++ [CallSave m' dst false]
        | Ok _ =>
            w_log (fst r)
            = w_log w ++ [CallSave m' dst false; CallLoadModel dst VNone]
            /\ match load_model_from env (w_fs (fst saved)) dst VNone with
               | Raise e => snd r = Raise e
               | Ok reloaded =>
                   match dict_get (signatures_or_empty reloaded) "serving_default" with
                   | Some s' => snd r = schemas_of_signature m' s'
                   | None =>
                       exists e,
                         signatures_getitem reloaded "serving_default" = Raise e
                         /\ snd r = Raise e
                   end
               end
        end)
    /\ (dict_get (signatures_or_empty model) "serving_default" = None ->
        forall e, snd (os_mkdir d w) = Raise e -> r = (w, Raise e))
    /\ (forall reloaded sigs,
          signatures reloaded = SigMap sigs ->
          dict_get sigs "serving_default" = None ->
          signatures_getitem reloaded "serving_default"
          = Raise (mkExn KeyError "serving_default")).
Proof.
  intros env model w d dst m' r.
  split; [intros cls custom_objects backend e; apply construct_propagates|].
  subst r. rewrite construct_schemas_run.
  split; [|split; [|split]].
  - intros s Hs. now rewrite Hs.
  - intros Hnone Hmk. rewrite Hnone. cbv zeta. fold m'.
    rewrite regenerate_signature_run. cbv zeta. fold d. fold dst.
    pose proof (os_mkdir_adds d w) as [Hlog0 _].
    destruct (os_mkdir d w) as [w1 [[]|e]]; [|discriminate]. cbn [fst] in *.
    pose proof (Model_save_log env m' dst false w1) as Hlog1.
    destruct (Model_save env m' dst false w1) as [w2 [[]|e]]; cbn [fst snd] in *.
    + assert (Hlog : w_log (fst (load_model env dst VNone w2))
                     = w_log w ++ [CallSave m' dst false; CallLoadModel dst VNone])
        by (rewrite load_model_log, Hlog1, Hlog0, <- app_assoc; reflexivity).
      set (wl := fst (load_model env dst VNone w2)) in *.
      destruct (load_model_from env (w_fs w2) dst VNone) as [reloaded|e]; cbn.
      * pose proof (signatures_getitem_or_empty reloaded "serving_default") as Hsig.
        destruct (dict_get (signatures_or_empty reloaded) "serving_default") as [s'|].
        -- rewrite Hsig. cbn. split; [exact Hlog|reflexivity].
        -- destruct Hsig as (e & He). rewrite He. cbn. split; [exact Hlog|].
           exists e. split; reflexivity.
      * split; [exact Hlog|reflexivity].
    + cbn. split; [reflexivity|]. now rewrite Hlog1, Hlog0.
  - intros Hnone e He. rewrite Hnone. cbv zeta.
    rewrite regenerate_signature_run. cbv zeta. fold d.
    apply os_mkdir_raise in He. now rewrite He.
  - intros reloaded sigs Hs Hk. unfold signatures_getitem. now rewrite Hs, Hk.
Qed.

(** The in-memory model of the small world: no signature of its own, one
    save, one load, and the schemas of the reloaded signature; and a model
    whose saved form has no signature either. *)
Lemma schema_derivation_falls_back_witness :
  w_log (fst (_construct_schemas_from_model Demo.env Demo.keras_model Demo.world))
  = [CallSave (_ensure_input_spec_includes_names Demo.keras_model)
       ["/"; "tmp"; "tmp8x3k"; "model.savedmodel"] false;
     CallLoadModel ["/"; "tmp"; "tmp8x3k"; "model.savedmodel"] VNone]
  /\ snd (_construct_schemas_from_model Demo.env Demo.keras_model Demo.world)
     = schemas_of_signature (_ensure_input_spec_includes_names Demo.keras_model)
         Demo.sig_abc
  /\ exists e,
       snd (_construct_schemas_from_model Demo.env Demo.bare_model Demo.world)
       = Raise e.
Proof.
  destruct (schema_derivation_falls_back Demo.env Demo.keras_model Demo.world)
    as (_ & _ & H & _).
  destruct (H eq_refl eq_refl) as (Hlog & Hres).
  split; [exact Hlog|]. split; [exact Hres|].
  destruct (schema_derivation_falls_back Demo.env Demo.bare_model Demo.world)
    as (_ & _ & H' & _).
  destruct (H' eq_refl eq_refl) as (_ & e & _ & He).
  exists e. exact He.
Defined.

(** ** Runs of [export] *)

Lemma write_text_run (p : PurePath) (content : string) (w : World) :
  write_text p content w
  = match w_fs w p with
    | Some Dir => (w, Raise (mkExn IsADirectoryError "Is a directory"))
    | _ =>
        if fs_is_dir (w_fs w) (removelast p)
        then (mkWorld (fs_set (w_fs w) p (File content)) (w_log w), Ok tt)
        else (w, Raise (lookup_error (w_fs w) (removelast p)))
    end.
Proof.
  unfold write_text, bind, get_fs, raise, put_fs.
  destruct (w_fs w p) as [[|c]|]; try reflexivity;
    destruct (fs_is_dir (w_fs w) (removelast p)); reflexivity.
Qed.

Lemma copytree_run (env : Env) (src dst : PurePath) (w : World) :
  copytree env src dst w
  = if fs_is_dir (w_fs w) src
    then match makedirs dst w with
         | (w1, Ok _) =>
             (mkWorld (fs_overlay (w_fs w1) dst
                         (fst (copytree_outcome env (w_fs w) src dst)))
                (w_log w1),
              match snd (copytree_outcome env (w_fs w) src dst) with
              | Some e => Raise e
              | None => Ok tt
              end)
         | (w1, Raise e) => (w1, Raise e)
         end
    else (w, Raise (lookup_error (w_fs w) src)).
Proof.
  unfold copytree, bind, get_fs, raise, put_fs, lift, ret. cbn.
  destruct (fs_is_dir (w_fs w) src); [|reflexivity].
  destruct (makedirs dst w) as [w1 [[]|e]]; [|reflexivity].
  destruct (copytree_outcome env (w_fs w) src dst) as [files [e|]]; reflexivity.
Qed.

(** A copy that does not fail has laid the entries of the source over the
    destination. *)
Lemma copytree_outcome_ok (env : Env) (fs : FS) (src dst : PurePath) :
  snd (copytree_outcome env fs src dst) = None ->
  fst (copytree_outcome env fs src dst) = fun rel => fs (src ++ rel).
Proof.
  unfold copytree_outcome.
  destruct (is_under src dst || is_under dst src); [|reflexivity].
  destruct (copytree_aliased env fs src dst) as [left_behind [e|]];
    [discriminate|reflexivity].
Qed.

(** Between a source and a destination that lie apart, it does not fail. *)
Lemma copytree_outcome_apart (env : Env) (fs : FS) (src dst : PurePath) :
  is_under src dst = false ->
  is_under dst src = false ->
  copytree_outcome env fs src dst = (fun rel => fs (src ++ rel), None).
Proof.
  intros H1 H2. unfold copytree_outcome. now rewrite H1, H2.
Qed.

Lemma Model_save_run (env : Env) (m : Model) (dst : PurePath) (io : bool)
    (w : World) :
  Model_save env m dst io w
  = match makedirs dst (mkWorld (w_fs w) (w_log w ++ [CallSave m dst io])) with
    | (w1, Ok _) =>
        (mkWorld (fs_overlay (w_fs w1) dst
                    (assoc_path (fst (saved_model_files env m))))
           (w_log w1),
         match snd (saved_model_files env m) with
         | Some e => Raise e
         | None => Ok tt
         end)
    | (w1, Raise e) => (w1, Raise e)
    end.
Proof.
  unfold Model_save, bind, log_call, get_fs, put_fs, lift, ret.
  destruct (makedirs dst _) as [w1 [[]|e]]; [|reflexivity].
  destruct (saved_model_files env m) as [files [e|]]; reflexivity.
Qed.

Lemma fold_add_model_param {P : Type}
    (paramclass : string -> option NPDType -> list Z -> P)
    (dims : ColumnSchema -> list Z) (cols : dict ColumnSchema) :
  forall acc,
    fold_left
      (fun params (item : string * ColumnSchema) =>
         add_model_param params paramclass (snd item) (dims (snd item)))
      cols acc
    = acc ++ map (fun item : string * ColumnSchema =>
                    paramclass (cs_name (snd item)) (cs_dtype (snd item))
                      (dims (snd item))) cols.
Proof.
  induction cols as [|item cols IH]; intros acc; simpl.
  - now rewrite app_nil_r.
  - rewrite IH. unfold add_model_param. now rewrite <- app_assoc.
Qed.

Lemma export_model_config_run (env : Env) (self : PredictTensorflow)
    (name : string) (output_path : PurePath) (w : World) (isch osch : Schema) :
  input_schema self = Some isch ->
  output_schema self = Some osch ->
  let config :=
    mkModelConfig name "tensorflow" "tensorflow_savedmodel"
      (map (fun item : string * ColumnSchema =>
              mkModelInput (cs_name (snd item)) (cs_dtype (snd item))
                (compute_dims (snd item) (scalar_shape self)))
         (column_schemas isch))
      (map (fun item : string * ColumnSchema =>
              mkModelOutput (cs_name (snd item)) (cs_dtype (snd item))
                (compute_dims (snd item) (scalar_shape self)))
         (column_schemas osch))
      [("TF_GRAPH_TAG", "serve"); ("TF_SIGNATURE_DEF", "serving_default")] in
  _export_model_config env self name output_path w
  = match write_text (output_path // "config.pbtxt") (PrintMessage env config) w with
    | (w', Ok _) => (w', Ok config)
    | (w', Raise e) => (w', Raise e)
    end.
Proof.
  intros Hin Hout config.
  unfold _export_model_config. rewrite Hin, Hout.
  unfold getattr. unfold bind at 1. unfold ret at 1. unfold bind at 1. unfold ret at 1.
  rewrite (fold_add_model_param mkModelInput
             (fun c => compute_dims c (scalar_shape self))).
  rewrite (fold_add_model_param mkModelOutput
             (fun c => compute_dims c (scalar_shape self))).
  cbn [app dict_set String.eqb Ascii.eqb Bool.eqb].
  unfold bind, ret. fold config.
  destruct (write_text _ _ w) as [w' [[]|e]]; reflexivity.
Qed.

Lemma export_run (env : Env) (self : PredictTensorflow) (path_arg : string)
    (isch_arg osch_arg : Schema) (params : option (dict string))
    (node_id : option Z) (version : Z) (backend : string) (w : World) :
  let name := package_name (export_name self) node_id in
  let node_export_path := Path path_arg // name in
  let dst := node_export_path // str_int version // "model.savedmodel" in
  export env self path_arg isch_arg osch_arg params node_id version backend w
  = match Path_mkdir_exist_ok node_export_path w with
    | (w1, Ok _) =>
        match place_artifact env self dst w1 with
        | (w2, Ok _) =>
            match _export_model_config env (set_tf_model_name self name) name
                    node_export_path w2 with
            | (w3, Ok config) => (w3, Ok (set_tf_model_name self name, config))
            | (w3, Raise e) => (w3, Raise e)
            end
        | (w2, Raise e) => (w2, Raise e)
        end
    | (w1, Raise e) => (w1, Raise e)
    end.
Proof.
  intros name node_export_path dst.
  unfold export, place_artifact. fold (export_name self).
  change (match node_id with
          | Some n => (str_int n ++ "_" ++ export_name self)%string
          | None => export_name self
          end) with name.
  fold node_export_path. fold dst.
  unfold bind at 1.
  destruct (Path_mkdir_exist_ok node_export_path w) as [w1 [[]|e]]; [|reflexivity].
  unfold bind at 1.
  match goal with
  | |- context [(if ?b then ?x else ?y) w1] => destruct ((if b then x else y) w1) as [w2 [[]|e]]
  end; [|reflexivity].
  unfold bind, ret.
  destruct (_export_model_config env (set_tf_model_name self name) name
              node_export_path w2) as [w3 [config|e]]; reflexivity.
Qed.

Lemma is_under_longer (d x : PurePath) : x <> [] -> is_under (d ++ x) d = false.
Proof.
  intros Hx. destruct (is_under (d ++ x) d) eqn:E; [|reflexivity].
  apply is_under_inv in E as (rel & E).
  apply (f_equal (@List.length string)) in E.
  rewrite !length_app in E. destruct x; [contradiction|simpl in E; lia].
Qed.

Lemma Path_mkdir_exist_ok_only (p q : PurePath) (w : World) :
  q <> p -> w_fs (fst (Path_mkdir_exist_ok p w)) q = w_fs w q.
Proof.
  intros Hne. unfold Path_mkdir_exist_ok.
  pose proof (os_mkdir_only p q w Hne) as H.
  destruct (os_mkdir p w) as [w' [u|e]]; simpl in *; [exact H|].
  destruct (exn_kind e); try exact H; destruct (fs_is_dir (w_fs w') p); exact H.
Qed.

(** [makedirs] two levels below an existing directory stays below it. *)
Lemma makedirs_two_levels (head : PurePath) (x y : string) (w : World) :
  head <> [] ->
  fs_exists (w_fs w) head = true ->
  same_outside head (w_fs w) (w_fs (fst (makedirs (head // x // y) w))).
Proof.
  intros Hne Hex p Hp. unfold pjoin.
  assert (Hp1 : p <> head ++ [x]) by now apply is_under_false_ne.
  assert (Hp2 : p <> (head ++ [x]) ++ [y])
    by (rewrite <- app_assoc; now apply is_under_false_ne).
  rewrite makedirs_snoc by apply snoc_not_nil.
  destruct (fs_exists (w_fs w) (head ++ [x])).
  - now apply mkdir_unless_isdir_only.
  - rewrite makedirs_snoc by exact Hne. rewrite Hex.
    pose proof (mkdir_unless_isdir_only (head ++ [x]) p w Hp1) as H1.
    destruct (mkdir_unless_isdir (head ++ [x]) w) as [w' [[]|e]]; cbn [fst] in *.
    + now rewrite mkdir_unless_isdir_only.
    + destruct (exn_kind e); try exact H1. now rewrite mkdir_unless_isdir_only.
Qed.

(** Placing the artifact changes nothing outside the package directory and
    keeps that directory. *)
Lemma place_artifact_frame (env : Env) (self : PredictTensorflow)
    (nep : PurePath) (x y : string) (w : World) :
  nep <> [] ->
  fs_is_dir (w_fs w) nep = true ->
  same_outside nep (w_fs w) (w_fs (fst (place_artifact env self (nep // x // y) w)))
  /\ fs_is_dir (w_fs (fst (place_artifact env self (nep // x // y) w))) nep = true.
Proof.
  intros Hne Hdir.
  pose proof (fs_is_dir_exists _ _ Hdir) as Hex.
  assert (Hstrict : is_under (nep // x // y) nep = false).
  { unfold pjoin. rewrite <- app_assoc. apply is_under_longer. discriminate. }
  assert (Hout : forall p, is_under nep p = false -> is_under (nep // x // y) p = false).
  { intros p Hp. unfold pjoin. rewrite <- app_assoc. now apply is_under_trans_app. }
  assert (Hmk : forall w0,
             w_fs w0 = w_fs w ->
             forall files,
               let w1 := fst (makedirs (nep // x // y) w0) in
               same_outside nep (w_fs w)
                 (fs_overlay (w_fs w1) (nep // x // y) files)
               /\ fs_is_dir (fs_overlay (w_fs w1) (nep // x // y) files) nep = true
               /\ same_outside nep (w_fs w) (w_fs w1)
               /\ fs_is_dir (w_fs w1) nep = true).
  { intros w0 E files w1.
    assert (Hex0 : fs_exists (w_fs w0) nep = true) by now rewrite E.
    pose proof (makedirs_two_levels nep x y w0 Hne Hex0) as Hsame.
    pose proof (makedirs_adds (nep // x // y) w0) as [_ Hadd].
    fold w1 in Hsame, Hadd. rewrite E in Hsame, Hadd.
    assert (Hd1 : fs_is_dir (w_fs w1) nep = true)
      by (eapply adds_dirs_to_is_dir; eassumption).
    repeat split; try assumption.
    - intros p Hp. rewrite fs_overlay_outside by now apply Hout. now apply Hsame.
    - destruct nep as [|a nep]; [contradiction|]. cbn [fs_is_dir] in *.
      now rewrite fs_overlay_outside. }
  unfold place_artifact.
  destruct (path_truthy (path self)).
  - destruct (path self) as [src|].
    + rewrite copytree_run. destruct (fs_is_dir (w_fs w) (fspath src)).
      * destruct (Hmk w eq_refl
                    (fst (copytree_outcome env (w_fs w) (fspath src)
                            (nep // x // y))))
          as (H1 & H2 & H3 & H4).
        destruct (makedirs (nep // x // y) w) as [w1 [[]|e]]; cbn [fst w_fs] in *;
          split; assumption.
      * split; [intros p _; reflexivity|exact Hdir].
    + split; [intros p _; reflexivity|exact Hdir].
  - unfold bind, getattr. destruct (model self) as [m|].
    + unfold ret. rewrite Model_save_run.
      destruct (Hmk (mkWorld (w_fs w) (w_log w ++ [CallSave m (nep // x // y) false]))
                  eq_refl (assoc_path (fst (saved_model_files env m))))
        as (H1 & H2 & H3 & H4).
      destruct (makedirs (nep // x // y) _) as [w1 [[]|e]]; cbn [fst w_fs] in *;
        split; assumption.
    + split; [intros p _; reflexivity|exact Hdir].
Qed.

Lemma export_model_config_only (env : Env) (self : PredictTensorflow)
    (name : string) (output_path : PurePath) (w : World) (p : PurePath) :
  p <> output_path // "config.pbtxt" ->
  w_fs (fst (_export_model_config env self name output_path w)) p = w_fs w p.
Proof.
  intros Hp.
  destruct (input_schema self) as [isch|] eqn:Hin;
    [|unfold _export_model_config; rewrite Hin; reflexivity].
  destruct (output_schema self) as [osch|] eqn:Hout;
    [|unfold _export_model_config; rewrite Hin, Hout; reflexivity].
  rewrite (export_model_config_run env self name output_path w isch osch Hin Hout).
  rewrite write_text_run.
  destruct (w_fs w (output_path // "config.pbtxt")) as [[|c]|];
    try reflexivity;
    destruct (fs_is_dir (w_fs w) (removelast (output_path // "config.pbtxt")));
    try reflexivity; cbn; now apply fs_set_ne.
Qed.

Lemma export_model_config_ok_inv (env : Env) (self : PredictTensorflow)
    (name : string) (output_path : PurePath) (w w' : World) (c : ModelConfig) :
  _export_model_config env self name output_path w = (w', Ok c) ->
  exists isch osch,
    input_schema self = Some isch
    /\ output_schema self = Some osch
    /\ c = mkModelConfig name "tensorflow" "tensorflow_savedmodel"
             (map (fun item : string * ColumnSchema =>
                     mkModelInput (cs_name (snd item)) (cs_dtype (snd item))
                       (compute_dims (snd item) (scalar_shape self)))
                (column_schemas isch))
             (map (fun item : string * ColumnSchema =>
                     mkModelOutput (cs_name (snd item)) (cs_dtype (snd item))
                       (compute_dims (snd item) (scalar_shape self)))
                (column_schemas osch))
             [("TF_GRAPH_TAG", "serve"); ("TF_SIGNATURE_DEF", "serving_default")]
    /\ w' = mkWorld (fs_set (w_fs w) (output_path // "config.pbtxt")
                       (File (PrintMessage env c))) (w_log w).
Proof.
  intros H.
  destruct (input_schema self) as [isch|] eqn:Hin;
    [|unfold _export_model_config in H; rewrite Hin in H; discriminate].
  destruct (output_schema self) as [osch|] eqn:Hout;
    [|unfold _export_model_config in H; rewrite Hin, Hout in H; discriminate].
  exists isch, osch. split; [reflexivity|]. split; [reflexivity|].
  rewrite (export_model_config_run env self name output_path w isch osch Hin Hout)
    in H.
  rewrite write_text_run in H. cbv zeta in H.
  destruct (w_fs w (output_path // "config.pbtxt")) as [[|c0]|];
    try discriminate;
    destruct (fs_is_dir (w_fs w) (removelast (output_path // "config.pbtxt")));
    try discriminate; injection H as <- <-; split; reflexivity.
Qed.

Lemma set_tf_model_name_fields (self : PredictTensorflow) (name : string) :
  tf_model_name (set_tf_model_name self name) = Some name
  /\ input_schema (set_tf_model_name self name) = input_schema self
  /\ output_schema (set_tf_model_name self name) = output_schema self
  /\ scalar_shape (set_tf_model_name self name) = scalar_shape self
  /\ path (set_tf_model_name self name) = path self
  /\ model (set_tf_model_name self name) = model self.
Proof. repeat split. Qed.

(** What a successful [export] leaves behind, stage by stage. *)
Lemma export_ok_inv (env : Env) (self : PredictTensorflow) (path_arg : string)
    (isch_arg osch_arg : Schema) (params : option (dict string))
    (node_id : option Z) (version : Z) (backend : string)
    (w w' : World) (self' : PredictTensorflow) (config : ModelConfig) :
  let name := package_name (export_name self) node_id in
  let nep := Path path_arg // name in
  let dst := nep // str_int version // "model.savedmodel" in
  export env self path_arg isch_arg osch_arg params node_id version backend w
  = (w', Ok (self', config)) ->
  exists w1 w2,
    Path_mkdir_exist_ok nep w = (w1, Ok tt)
    /\ place_artifact env self dst w1 = (w2, Ok tt)
    /\ _export_model_config env (set_tf_model_name self name) name nep w2
       = (w', Ok config)
    /\ self' = set_tf_model_name self name.
Proof.
  intros name nep dst H. rewrite export_run in H. cbv zeta in H.
  fold name in H. fold nep in H. fold dst in H.
  destruct (Path_mkdir_exist_ok nep w) as [w1 [[]|e]] eqn:Emk; [|discriminate].
  destruct (place_artifact env self dst w1) as [w2 [[]|e]] eqn:Eplace;
    [|discriminate].
  destruct (_export_model_config env (set_tf_model_name self name) name nep w2)
    as [w3 [c|e]] eqn:Ecfg; [|discriminate].
  injection H as <- <- <-. exists w1, w2. repeat split; assumption.
Qed.

Lemma export_ok_name (env : Env) (self : PredictTensorflow) (path_arg : string)
    (isch_arg osch_arg : Schema) (params : option (dict string))
    (node_id : option Z) (version : Z) (backend : string)
    (w w' : World) (self' : PredictTensorflow) (config : ModelConfig) :
  let name := package_name (export_name self) node_id in
  export env self path_arg isch_arg osch_arg params node_id version backend w
  = (w', Ok (self', config)) ->
  tf_model_name self' = Some name
  /\ cfg_name config = name
  /\ fs_is_dir (w_fs w') (Path path_arg // name) = true.
Proof.
  intros name H.
  apply export_ok_inv in H as (w1 & w2 & Hmk & Hplace & Hcfg & ->).
  fold name in Hmk, Hplace, Hcfg.
  set (nep := Path path_arg // name) in *.
  assert (Hne : nep <> []) by apply snoc_not_nil.
  pose proof (Path_mkdir_exist_ok_ok nep w) as Hd1. rewrite Hmk in Hd1.
  specialize (Hd1 eq_refl). cbn [fst] in Hd1.
  pose proof (place_artifact_frame env self nep (str_int version) "model.savedmodel"
                w1 Hne Hd1) as [_ Hd2].
  rewrite Hplace in Hd2. cbn [fst] in Hd2.
  apply export_model_config_ok_inv in Hcfg
    as (isch & osch & _ & _ & -> & ->).
  split; [reflexivity|]. split; [reflexivity|].
  destruct nep as [|a nep'] eqn:En; [contradiction|]. cbn [fs_is_dir w_fs] in *.
  rewrite fs_set_ne; [exact Hd2|].
  rewrite <- En. unfold pjoin. intros E.
  apply (f_equal (@List.length string)) in E. rewrite length_app in E.
  simpl in E. lia.
Qed.

Lemma export_same_outside (env : Env) (self : PredictTensorflow) (path_arg : string)
    (isch_arg osch_arg : Schema) (params : option (dict string))
    (node_id : option Z) (version : Z) (backend : string) (w : World) :
  same_outside (Path path_arg // package_name (export_name self) node_id) (w_fs w)
    (w_fs (fst (export env self path_arg isch_arg osch_arg params node_id version
                  backend w))).
Proof.
  rewrite export_run. cbv zeta.
  set (name := package_name (export_name self) node_id).
  set (nep := Path path_arg // name).
  assert (Hne : nep <> []) by apply snoc_not_nil.
  intros p Hp.
  assert (Hp0 : p <> nep)
    by (apply (is_under_false_ne nep p []) in Hp; now rewrite app_nil_r in Hp).
  assert (Hpc : p <> nep // "config.pbtxt") by now apply is_under_false_ne.
  pose proof (Path_mkdir_exist_ok_only nep p w Hp0) as H1.
  pose proof (Path_mkdir_exist_ok_ok nep w) as Hd1.
  destruct (Path_mkdir_exist_ok nep w) as [w1 [[]|e]]; cbn [fst snd] in *;
    [|exact H1].
  specialize (Hd1 eq_refl).
  pose proof (place_artifact_frame env self nep (str_int version) "model.savedmodel"
                w1 Hne Hd1) as [H2 _].
  specialize (H2 p Hp).
  destruct (place_artifact env self _ w1) as [w2 [[]|e]]; cbn [fst] in *;
    [|congruence].
  pose proof (export_model_config_only env (set_tf_model_name self name) name nep
                w2 p Hpc) as H3.
  destruct (_export_model_config env (set_tf_model_name self name) name nep w2)
    as [w3 [c|e]]; cbn [fst] in *; congruence.
Qed.

(** ** C4: the name of the package directory *)

(** C4.  For every export call the package directory is the export path
    joined with '<node_id>_<export_name>', or with '<export_name>' alone
    when node_id is None, where export_name is the class name in lower
    case.  A call that succeeds records that name as the model name, gives
    it to the returned config and leaves a directory of that name; in every
    execution, whatever the call creates or changes lies in that directory.
    So two exports of operators of the same class with the same node_id
    give the same package directory name. *)
Theorem export_package_directory_name :
  forall (env : Env) (self : PredictTensorflow) (path_arg : string)
         (isch_arg osch_arg : Schema) (params : option (dict string))
         (node_id : option Z) (version : Z) (backend : string) (w : World),
    let name := package_name (export_name self) node_id in
    let r := export env self path_arg isch_arg osch_arg params node_id version
               backend w in
    export_name self = lower (class_name self)
    /\ name = match node_id with
              | Some n => (str_int n ++ "_" ++ lower (class_name self))%string
              | None => lower (class_name self)
              end
    /\ (forall self' config,
          snd r = Ok (self', config) ->
          tf_model_name self' = Some name
          /\ cfg_name config = name
          /\ fs_is_dir (w_fs (fst r)) (Path path_arg // name) = true)
    /\ same_outside (Path path_arg // name) (w_fs w) (w_fs (fst r))
    /\ (forall self2 path2 isch2 osch2 params2 version2 backend2 w2 self2'
               config2 self' config,
          class_name self2 = class_name self ->
          snd (export env self2 path2 isch2 osch2 params2 node_id version2
                 backend2 w2) = Ok (self2', config2) ->
          snd r = Ok (self', config) ->
          tf_model_name self2' = tf_model_name self'
          /\ cfg_name config2 = cfg_name config).
Proof.
  intros env self path_arg isch_arg osch_arg params node_id version backend w
    name r.
  split; [reflexivity|]. split; [reflexivity|]. split; [|split].
  - intros self' config H. apply (export_ok_name env self path_arg isch_arg
      osch_arg params node_id version backend w).
    fold r. destruct r as [w' res]. cbn in *. now subst res.
  - apply export_same_outside.
  - intros self2 path2 isch2 osch2 params2 version2 backend2 w2 self2'
      config2 self' config Hcls H2 H1.
    assert (E1 : r = (fst r, Ok (self', config)))
      by (destruct r as [w' res]; cbn in *; now subst res).
    apply export_ok_name in E1 as (Hn1 & Hc1 & _).
    match type of H2 with
    | snd ?r2 = _ =>
        assert (E2 : r2 = (fst r2, Ok (self2', config2)))
          by (destruct r2 as [w' res]; cbn in *; now subst res)
    end.
    apply export_ok_name in E2 as (Hn2 & Hc2 & _).
    unfold export_name in *. rewrite Hcls in Hn2, Hc2. split; congruence.
Qed.

(** An export to [/out] with [node_id=0]. *)
Lemma export_package_directory_name_witness :
  exists self' config,
    snd (export Demo.env Demo.loaded_op "/out" Schema_new Schema_new None
           (Some 0%Z) 1%Z "ensemble" Demo.world) = Ok (self', config)
    /\ tf_model_name self' = Some "0_predicttensorflow"
    /\ cfg_name config = "0_predicttensorflow"
    /\ fs_is_dir
         (w_fs (fst (export Demo.env Demo.loaded_op "/out" Schema_new Schema_new
                       None (Some 0%Z) 1%Z "ensemble" Demo.world)))
         ["/"; "out"; "0_predicttensorflow"] = true.
Proof.
  destruct (export_package_directory_name Demo.env Demo.loaded_op "/out"
              Schema_new Schema_new None (Some 0%Z) 1%Z "ensemble" Demo.world)
    as (_ & _ & H & _).
  eexists. eexists. split; [reflexivity|].
  exact (H _ _ eq_refl).
Defined.

(** ** C6: the exported configuration *)

(** C6.  For an operator whose schemas are set, the configuration built
    by [_export_model_config] has the given name, backend ['tensorflow'],
    platform ['tensorflow_savedmodel'], one input descriptor per column of
    the input schema and one output descriptor per column of the output
    schema, in schema order, each with the column's name, its data type
    and the dims [compute_dims] gives for it, and exactly the two string
    parameters TF_GRAPH_TAG = 'serve' and TF_SIGNATURE_DEF =
    'serving_default'.  Where the output path is a directory and
    'config.pbtxt' is not one, the call succeeds, returns that
    configuration and leaves its text in the file 'config.pbtxt' of the
    output path; every successful call does, and [export] returns the same
    configuration under the package name and leaves the file in the
    package directory. *)
Theorem config_pbtxt_contents :
  forall (env : Env) (self : PredictTensorflow) (name : string)
         (output_path : PurePath) (w : World) (isch osch : Schema),
    input_schema self = Some isch ->
    output_schema self = Some osch ->
    exists config,
      cfg_name config = name
      /\ cfg_backend config = "tensorflow"
      /\ cfg_platform config = "tensorflow_savedmodel"
      /\ cfg_input config
         = map (fun item : string * ColumnSchema =>
                  mkModelInput (cs_name (snd item)) (cs_dtype (snd item))
                    (compute_dims (snd item) (scalar_shape self)))
             (column_schemas isch)
      /\ cfg_output config
         = map (fun item : string * ColumnSchema =>
                  mkModelOutput (cs_name (snd item)) (cs_dtype (snd item))
                    (compute_dims (snd item) (scalar_shape self)))
             (column_schemas osch)
      /\ List.length (cfg_input config) = List.length (column_schemas isch)
      /\ List.length (cfg_output config) = List.length (column_schemas osch)
      /\ cfg_parameters config
         = [("TF_GRAPH_TAG", "serve"); ("TF_SIGNATURE_DEF", "serving_default")]
      /\ (fs_is_dir (w_fs w) output_path = true ->
          w_fs w (output_path // "config.pbtxt") <> Some Dir ->
          _export_model_config env self name output_path w
          = (mkWorld (fs_set (w_fs w) (output_path // "config.pbtxt")
                        (File (PrintMessage env config))) (w_log w),
             Ok config))
      /\ (forall c,
            snd (_export_model_config env self name output_path w) = Ok c ->
            c = config
            /\ w_fs (fst (_export_model_config env self name output_path w))
                 (output_path // "config.pbtxt")
               = Some (File (PrintMessage env config)))
      /\ (forall path_arg isch_arg osch_arg params node_id version backend w0
                 self' c,
            name = package_name (export_name self) node_id ->
            snd (export env self path_arg isch_arg osch_arg params node_id version
                   backend w0) = Ok (self', c) ->
            c = config
            /\ w_fs (fst (export env self path_arg isch_arg osch_arg params node_id
                            version backend w0))
                 (Path path_arg // name // "config.pbtxt")
               = Some (File (PrintMessage env config))).
Proof.
  intros env self name output_path w isch osch Hin Hout.
  exists (mkModelConfig name "tensorflow" "tensorflow_savedmodel"
            (map (fun item : string * ColumnSchema =>
                    mkModelInput (cs_name (snd item)) (cs_dtype (snd item))
                      (compute_dims (snd item) (scalar_shape self)))
               (column_schemas isch))
            (map (fun item : string * ColumnSchema =>
                    mkModelOutput (cs_name (snd item)) (cs_dtype (snd item))
                      (compute_dims (snd item) (scalar_shape self)))
               (column_schemas osch))
            [("TF_GRAPH_TAG", "serve"); ("TF_SIGNATURE_DEF", "serving_default")]).
  cbn [cfg_name cfg_backend cfg_platform cfg_input cfg_output cfg_parameters].
  split; [reflexivity|]. split; [reflexivity|]. split; [reflexivity|].
  split; [reflexivity|]. split; [reflexivity|].
  split; [apply length_map|]. split; [apply length_map|].
  split; [reflexivity|]. split; [|split].
  - intros Hdir Hfile.
    rewrite (export_model_config_run env self name output_path w isch osch Hin Hout).
    cbv zeta. rewrite write_text_run.
    replace (removelast (output_path // "config.pbtxt")) with output_path
      by (unfold pjoin; now rewrite removelast_last).
    rewrite Hdir.
    destruct (w_fs w (output_path // "config.pbtxt")) as [[|c]|];
      [contradiction|reflexivity|reflexivity].
  - intros c Hc.
    destruct (_export_model_config env self name output_path w) as [w' res] eqn:E.
    cbn in Hc. subst res.
    apply export_model_config_ok_inv in E as (isch' & osch' & Hi & Ho & -> & ->).
    rewrite Hin in Hi. rewrite Hout in Ho. injection Hi as <-. injection Ho as <-.
    split; [reflexivity|]. cbn. apply fs_set_eq.
  - intros path_arg isch_arg osch_arg params node_id version backend w0 self' c
      Hname Hc.
    destruct (export env self path_arg isch_arg osch_arg params node_id version
                backend w0) as [w' res] eqn:E.
    cbn in Hc. subst res.
    apply export_ok_inv in E as (w1 & w2 & _ & _ & E & _).
    rewrite <- Hname in E.
    apply export_model_config_ok_inv in E as (isch' & osch' & Hi & Ho & -> & ->).
    cbn in Hi, Ho. rewrite Hin in Hi. rewrite Hout in Ho.
    injection Hi as <-. injection Ho as <-.
    split; [reflexivity|]. cbn. apply fs_set_eq.
Qed.

(** The config written for the operator of the small world. *)
Lemma config_pbtxt_contents_witness :
  exists config,
    cfg_input config
    = [mkModelInput "a" (Some np_float32) [-1; 1]%Z;
       mkModelInput "b" (Some np_int64) [-1; -1]%Z]
    /\ cfg_output config = [mkModelOutput "c" (Some np_float32) [-1; 1]%Z]
    /\ _export_model_config Demo.env Demo.loaded_op "predicttensorflow"
         ["/"; "out"] Demo.world
       = (mkWorld (fs_set Demo.disk ["/"; "out"; "config.pbtxt"]
                     (File (PrintMessage Demo.env config))) [],
          Ok config).
Proof.
  destruct (config_pbtxt_contents Demo.env Demo.loaded_op "predicttensorflow"
              ["/"; "out"] Demo.world (mkSchema Demo.input_cols)
              (mkSchema Demo.output_cols) eq_refl eq_refl)
    as (config & _ & _ & _ & Hi & Ho & _ & _ & _ & Hrun & _).
  exists config. split; [exact Hi|]. split; [exact Ho|].
  apply Hrun; [reflexivity|discriminate].
Defined.

(** ** C5: where the model artifact goes *)

Ltac path_ne :=
  let E := fresh "E" in
  intros E; apply (f_equal (@List.length string)) in E;
  rewrite ?length_app in E; simpl in E; lia.

Lemma str_int_not_config (n : Z) : str_int n <> "config.pbtxt".
Proof.
  unfold str_int, NilZero.string_of_int.
  destruct (Z.to_int n) as [u|u]; [|discriminate].
  unfold NilZero.string_of_uint. destruct u; simpl; discriminate.
Qed.







Lemma fs_is_dir_ext (fs fs' : FS) (p : PurePath) :
  fs' p = fs p -> fs_is_dir fs' p = fs_is_dir fs p.
Proof. intros H. destruct p; [reflexivity|]. cbn. now rewrite H. Qed.

(** Where a successful [export] has put the artifact. *)
Lemma export_ok_artifact (env : Env) (self : PredictTensorflow) (path_arg : string)
    (isch_arg osch_arg : Schema) (params : option (dict string))
    (node_id : option Z) (version : Z) (backend : string)
    (w w' : World) (self' : PredictTensorflow) (config : ModelConfig) :
  let dst := Path path_arg // package_name (export_name self) node_id
             // str_int version // "model.savedmodel" in
  export env self path_arg isch_arg osch_arg params node_id version backend w
  = (w', Ok (self', config)) ->
  fs_is_dir (w_fs w') dst = true
  /\ (path_truthy (path self) = true ->
      exists src,
        path self = Some src
        /\ w_log w' = w_log w
        /\ forall c rel n,
             w_fs w (fspath src ++ c :: rel) = Some n ->
             w_fs w' (dst ++ c :: rel) = Some n)
  /\ (path_truthy (path self) = false ->
      exists m,
        model self = Some m
        /\ w_log w' = w_log w ++ [CallSave m dst false]
        /\ forall c rel n,
             assoc_path (fst (saved_model_files env m)) (c :: rel) = Some n ->
             w_fs w' (dst ++ c :: rel) = Some n).
Proof.
  intros dst H.
  apply export_ok_inv in H as (w1 & w2 & Hmk & Hplace & Hcfg & _).
  set (name := package_name (export_name self) node_id) in *.
  set (nep := Path path_arg // name) in *. fold dst in Hplace.
  apply export_model_config_ok_inv in Hcfg as (_ & _ & _ & _ & _ & ->).
  cbn [w_fs w_log].
  pose proof (Path_mkdir_exist_ok_adds nep w) as [Hlog1 Hadd1].
  rewrite Hmk in Hlog1, Hadd1. cbn [fst] in Hlog1, Hadd1.
  assert (Hdst : forall rel, dst ++ rel <> nep // "config.pbtxt").
  { intros rel. unfold dst, nep, pjoin. path_ne. }
  assert (Hdst0 : dst <> nep // "config.pbtxt").
  { specialize (Hdst []). now rewrite app_nil_r in Hdst. }
  assert (Hmkdst : forall w0 wm files,
             makedirs dst w0 = (wm, Ok tt) ->
             fs_is_dir (fs_set (fs_overlay (w_fs wm) dst files)
                          (nep // "config.pbtxt") (File (PrintMessage env config)))
               dst = true).
  { intros w0 wm files E.
    pose proof (makedirs_ok dst w0) as Hok. rewrite E in Hok.
    specialize (Hok eq_refl). cbn [fst] in Hok.
    rewrite (fs_is_dir_ext (w_fs wm)); [exact Hok|].
    rewrite fs_set_ne by exact Hdst0. apply fs_overlay_at. }
  unfold place_artifact in Hplace.
  destruct (path_truthy (path self)) eqn:Htruthy.
  - destruct (path self) as [src|] eqn:Hpath; [|discriminate].
    rewrite copytree_run in Hplace.
    destruct (fs_is_dir (w_fs w1) (fspath src)); [|discriminate].
    pose proof (makedirs_adds dst w1) as [Hlogm _].
    destruct (makedirs dst w1) as [wm [[]|e]] eqn:Em; [|discriminate].
    destruct (snd (copytree_outcome env (w_fs w1) (fspath src) dst)) eqn:Herr;
      [discriminate|].
    rewrite (copytree_outcome_ok _ _ _ _ Herr) in Hplace.
    injection Hplace as <-. cbn [fst w_fs w_log] in *.
    split; [now apply (Hmkdst w1 wm)|]. split; [|discriminate].
    intros _. exists src. split; [reflexivity|]. split; [congruence|].
    intros c rel n Hn. rewrite fs_set_ne by apply Hdst.
    apply fs_overlay_under. eapply adds_dirs_to_keeps; eassumption.
  - unfold bind, getattr in Hplace.
    destruct (model self) as [m|] eqn:Hmodel; [|discriminate].
    unfold ret in Hplace. rewrite Model_save_run in Hplace.
    pose proof (makedirs_adds dst
                  (mkWorld (w_fs w1) (w_log w1 ++ [CallSave m dst false])))
      as [Hlogm _].
    destruct (makedirs dst _) as [wm [[]|e]] eqn:Em; [|discriminate].
    destruct (snd (saved_model_files env m)); [discriminate|].
    injection Hplace as <-. cbn [fst w_fs w_log] in *.
    split; [now apply (Hmkdst _ wm _ Em)|]. split; [discriminate|].
    intros _. exists m. split; [reflexivity|]. split; [congruence|].
    intros c rel n Hn. rewrite fs_set_ne by apply Hdst.
    now apply fs_overlay_under.
Qed.

Lemma is_under_disjoint (a b rel : PurePath) :
  is_under a b = false -> is_under b a = false -> is_under a (b ++ rel) = false.
Proof.
  intros Hab Hba. destruct (is_under a (b ++ rel)) eqn:E; [|reflexivity].
  apply is_under_inv in E as (r & E).
  apply app_eq_app in E as [l [[-> _]|[-> _]]].
  - now rewrite is_under_app in Hab.
  - now rewrite is_under_app in Hba.
Qed.





(** ** Pickling: [__getstate__] *)

(** X1.  The state handed to pickle has no ["model"] entry; every other
    attribute is there with its value, in the order of the instance
    dict. *)
Theorem getstate_drops_only_model :
  forall (V : Type) (d : dict V),
    dict_get (__getstate__ d) "model" = None
    /\ (forall k, k <> "model" -> dict_get (__getstate__ d) k = dict_get d k)
    /\ dict_keys (__getstate__ d)
       = filter (fun k => negb (String.eqb k "model")) (dict_keys d)
    /\ (NoDup (dict_keys d) -> NoDup (dict_keys (__getstate__ d))).
Proof.
  intros V d. unfold __getstate__.
  assert (Hkeys : dict_keys (filter (fun kv : string * V =>
                                       negb (String.eqb (fst kv) "model")) d)
                  = filter (fun k => negb (String.eqb k "model")) (dict_keys d)).
  { induction d as [|[k v] d IH]; simpl; [reflexivity|].
    destruct (String.eqb k "model"); simpl; now rewrite IH. }
  split; [|split; [|split]].
  - clear Hkeys. induction d as [|[k v] d IH]; simpl; [reflexivity|].
    destruct (String.eqb k "model") eqn:E; simpl; [exact IH|]. now rewrite E.
  - clear Hkeys. intros k0 Hk. induction d as [|[k v] d IH]; simpl; [reflexivity|].
    destruct (String.eqb k "model") eqn:E; simpl.
    + apply String.eqb_eq in E. subst k.
      destruct (String.eqb_spec "model" k0) as [<-|_]; [contradiction|exact IH].
    + destruct (String.eqb k k0); [reflexivity|exact IH].
  - exact Hkeys.
  - intros Hnd. rewrite Hkeys. now apply NoDup_filter.
Qed.

(** The instance dict of an operator built from a path, by attribute
    names. *)
Lemma getstate_drops_only_model_witness :
  dict_keys (__getstate__
               [("_tf_model_name", VNone); ("path", VStr "/models/m1");
                ("model", VModel Demo.served_model);
                ("input_schema", VInt 0); ("output_schema", VInt 1)])
  = ["_tf_model_name"; "path"; "input_schema"; "output_schema"]
  /\ NoDup (dict_keys (__getstate__
                         [("_tf_model_name", VNone); ("path", VStr "/models/m1");
                          ("model", VModel Demo.served_model);
                          ("input_schema", VInt 0); ("output_schema", VInt 1)])).
Proof.
  destruct (getstate_drops_only_model PyVal
              [("_tf_model_name", VNone); ("path", VStr "/models/m1");
               ("model", VModel Demo.served_model);
               ("input_schema", VInt 0); ("output_schema", VInt 1)])
    as (_ & _ & Hk & Hnd).
  split; [exact Hk|].
  apply Hnd. simpl. repeat constructor; simpl; intuition discriminate.
Defined.

(** ** Naming the input specs: [_ensure_input_spec_includes_names] *)

Lemma dict_set_app_skip {V} (a b : dict V) (k : string) (v x : V) :
  ~ In k (dict_keys a) ->
  dict_set (a ++ (k, v) :: b) k x = a ++ (k, x) :: b.
Proof.
  induction a as [|[k0 v0] a IH]; simpl; intros Hk.
  - now rewrite String.eqb_refl.
  - destruct (String.eqb k0 k) eqn:E.
    + apply String.eqb_eq in E. exfalso. apply Hk. now left.
    + rewrite IH; [reflexivity|]. intros Hin. apply Hk. now right.
Qed.

Lemma dict_keys_map_snd {V W} (g : string -> V -> W) (d : dict V) :
  dict_keys (map (fun item => (fst item, g (fst item) (snd item))) d)
  = dict_keys d.
Proof.
  unfold dict_keys. rewrite map_map. now apply map_ext.
Qed.

Lemma dict_get_map_snd {V W} (g : string -> V -> W) (d : dict V) (k : string) :
  dict_get (map (fun item => (fst item, g (fst item) (snd item))) d) k
  = option_map (g k) (dict_get d k).
Proof.
  induction d as [|[k0 v0] d IH]; simpl; [reflexivity|].
  destruct (String.eqb k0 k) eqn:E; [|exact IH].
  apply String.eqb_eq in E. now subst k0.
Qed.

(** Assigning to every key of a dict while iterating over its own items
    maps the values and keeps keys and order. *)
Lemma fold_dict_set_own_items {V} (g : string -> V -> V) (items : dict V) :
  forall pre : dict V,
    NoDup (dict_keys (pre ++ items)) ->
    fold_left (fun acc (item : string * V) =>
                 let (key, spec) := item in dict_set acc key (g key spec))
      items
      (map (fun item => (fst item, g (fst item) (snd item))) pre ++ items)
    = map (fun item => (fst item, g (fst item) (snd item))) (pre ++ items).
Proof.
  induction items as [|[k v] items IH]; intros pre Hnd; simpl.
  - now rewrite !app_nil_r.
  - rewrite dict_set_app_skip.
    + specialize (IH (pre ++ [(k, v)])).
      rewrite <- app_assoc in IH. simpl in IH.
      rewrite map_app in IH. simpl in IH. rewrite <- app_assoc in IH. simpl in IH.
      apply IH. exact Hnd.
    + rewrite dict_keys_map_snd. rewrite dict_keys_app in Hnd. simpl in Hnd.
      apply NoDup_remove_2 in Hnd. intros Hin. apply Hnd.
      apply in_or_app. now left.
Qed.

Lemma ensure_names_run (model : Model) (d : dict SpecItem) :
  _saved_model_inputs_spec model = SpecDict d ->
  NoDup (dict_keys d) ->
  _ensure_input_spec_includes_names model
  = mkModel (model_id model) (signatures model)
      (SpecDict (map (fun item => (fst item, named_item (fst item) (snd item))) d)).
Proof.
  intros Hspec Hnd. unfold _ensure_input_spec_includes_names. rewrite Hspec.
  f_equal. f_equal.
  pose proof (fold_dict_set_own_items named_item d [] Hnd) as H.
  simpl in H. exact H.
Qed.

(** X2.  For a model whose input spec is a dict with unique keys, every
    entry comes out under its own key and in its old place, as a spec of
    the same shape and dtype whose name is the key; of a tuple the first
    two specs are kept, named alike.  The model's identity and signatures
    are not touched. *)
Theorem ensure_names_every_spec :
  forall (model : Model) (d : dict SpecItem),
    _saved_model_inputs_spec model = SpecDict d ->
    NoDup (dict_keys d) ->
    let m' := _ensure_input_spec_includes_names model in
    model_id m' = model_id model
    /\ signatures m' = signatures model
    /\ exists d',
         _saved_model_inputs_spec m' = SpecDict d'
         /\ dict_keys d' = dict_keys d
         /\ (forall key item,
               dict_get d key = Some item ->
               dict_get d' key
               = Some match item with
                      | SpecOne s =>
                          SpecOne (mkTensorSpec (ts_shape s) (ts_dtype s) (Some key))
                      | SpecTuple s0 s1 _ =>
                          SpecTuple
                            (mkTensorSpec (ts_shape s0) (ts_dtype s0) (Some key))
                            (mkTensorSpec (ts_shape s1) (ts_dtype s1) (Some key))
                            []
                      end)
         /\ (forall key, dict_get d key = None -> dict_get d' key = None).
Proof.
  intros model d Hspec Hnd m'. subst m'.
  rewrite (ensure_names_run model d Hspec Hnd). cbn.
  split; [reflexivity|]. split; [reflexivity|].
  eexists. split; [reflexivity|]. split; [apply dict_keys_map_snd|]. split.
  - intros key item Hget. rewrite dict_get_map_snd, Hget. cbn.
    destruct item; reflexivity.
  - intros key Hget. now rewrite dict_get_map_snd, Hget.
Qed.

Lemma ensure_names_every_spec_witness :
  exists d',
    _saved_model_inputs_spec (_ensure_input_spec_includes_names Demo.keras_model)
    = SpecDict d'
    /\ dict_keys d' = ["a"; "b"]
    /\ dict_get d' "b"
       = Some (SpecOne (mkTensorSpec (Some [None; Some 3%Z]) tf_int64 (Some "b"))).
Proof.
  destruct (ensure_names_every_spec Demo.keras_model
              [("a", SpecOne (Demo.spec [None; Some 1%Z] tf_float32));
               ("b", SpecOne (Demo.spec [None; Some 3%Z] tf_int64))]
              eq_refl)
    as (_ & _ & d' & Hd & Hk & Hget & _).
  - simpl. repeat constructor; simpl; intuition discriminate.
  - exists d'. split; [exact Hd|]. split; [exact Hk|].
    exact (Hget "b" _ eq_refl).
Defined.

Lemma named_item_idem (key : string) (item : SpecItem) :
  named_item key (named_item key item) = named_item key item.
Proof. destruct item; reflexivity. Qed.

(** X3.  Naming the specs is idempotent: a model that went through it is
    not changed by going through it again. *)
Theorem ensure_names_idempotent :
  forall (model : Model),
    match _saved_model_inputs_spec model with
    | SpecDict d => NoDup (dict_keys d)
    | SpecOther => True
    end ->
    _ensure_input_spec_includes_names (_ensure_input_spec_includes_names model)
    = _ensure_input_spec_includes_names model.
Proof.
  intros model H.
  destruct (_saved_model_inputs_spec model) as [d|] eqn:Hspec.
  - rewrite (ensure_names_run model d Hspec H).
    set (d1 := map (fun item => (fst item, named_item (fst item) (snd item))) d).
    rewrite (ensure_names_run
               (mkModel (model_id model) (signatures model) (SpecDict d1)) d1
               eq_refl)
      by (unfold d1; now rewrite dict_keys_map_snd).
    cbn. f_equal. f_equal. unfold d1. rewrite map_map. apply map_ext.
    intros [k v]. cbn. now rewrite named_item_idem.
  - assert (E : _ensure_input_spec_includes_names model = model)
      by (unfold _ensure_input_spec_includes_names; now rewrite Hspec).
    now rewrite !E.
Qed.

Lemma ensure_names_idempotent_witness :
  _ensure_input_spec_includes_names
    (_ensure_input_spec_includes_names Demo.keras_model)
  = _ensure_input_spec_includes_names Demo.keras_model.
Proof.
  apply ensure_names_idempotent.
  simpl. repeat constructor; simpl; intuition discriminate.
Defined.

(** ** More on the schema derivation *)

Lemma column_of_tensor_no_second_dim (col_name : string) (col : TensorSpec) :
  has_second_dim col = false ->
  column_of_tensor col_name col
  = Raise (mkExn IndexError "tuple index out of range").
Proof.
  unfold has_second_dim, column_of_tensor, shape_getitem.
  destruct (ts_shape col) as [[|d0 [|d1 ds]]|]; simpl; try discriminate;
    reflexivity.
Qed.

Lemma schema_of_specs_total (items : dict TensorSpec) :
  forall acc : Schema,
    if forallb has_second_dim (map snd items)
    then exists s, schema_of_specs items acc = Ok s
    else schema_of_specs items acc
         = Raise (mkExn IndexError "tuple index out of range").
Proof.
  induction items as [|[col_name col] rest IH]; intros acc; simpl.
  - now exists acc.
  - destruct (has_second_dim col) eqn:Hcol; simpl.
    + destruct (column_of_tensor_describes col_name col Hcol) as (c & Hc & _).
      rewrite Hc. simpl. apply IH.
    + now rewrite column_of_tensor_no_second_dim.
Qed.

(** X4.  With a ['serving_default'] signature at hand the derivation
    succeeds exactly when every input and output tensor has a second
    dimension to read (rank unknown or at least 2), the model and the world
    being left alone; a tensor of known rank 0 or 1 makes it raise the
    [IndexError] of [col.shape[1]], and nothing else can fail. *)
Theorem derivation_needs_second_dims :
  forall (env : Env) (model : Model) (s : Signature) (w : World),
    dict_get (signatures_or_empty model) "serving_default" = Some s ->
    if forallb has_second_dim (map snd (structured_input_signature_1 s))
       && forallb has_second_dim (map snd (structured_outputs s))
    then exists input_schema output_schema,
           _construct_schemas_from_model env model w
           = (w, Ok (model, (input_schema, output_schema)))
    else _construct_schemas_from_model env model w
         = (w, Raise (mkExn IndexError "tuple index out of range")).
Proof.
  intros env model s w Hs. rewrite construct_schemas_run, Hs.
  unfold schemas_of_signature.
  pose proof (schema_of_specs_total (structured_input_signature_1 s) Schema_new)
    as Hin.
  pose proof (schema_of_specs_total (structured_outputs s) Schema_new) as Hout.
  destruct (forallb has_second_dim (map snd (structured_input_signature_1 s))).
  - destruct Hin as (i & ->). simpl.
    destruct (forallb has_second_dim (map snd (structured_outputs s))).
    + destruct Hout as (o & ->). simpl. now exists i, o.
    + now rewrite Hout.
  - now rewrite Hin.
Qed.

(** A signature with a one-dimensional input. *)
Lemma derivation_needs_second_dims_witness :
  _construct_schemas_from_model Demo.env
    (mkModel "flat"
       (SigMap [("serving_default",
                 mkSignature [("x", Demo.spec [None] tf_float32)]
                             [("y", Demo.spec [None; Some 1%Z] tf_float32)])])
       SpecOther)
    Demo.world
  = (Demo.world, Raise (mkExn IndexError "tuple index out of range")).
Proof.
  exact (derivation_needs_second_dims Demo.env
           (mkModel "flat"
              (SigMap [("serving_default",
                        mkSignature [("x", Demo.spec [None] tf_float32)]
                                    [("y", Demo.spec [None; Some 1%Z] tf_float32)])])
              SpecOther)
           _ Demo.world eq_refl).
Defined.

Lemma column_of_tensor_ok (col_name : string) (col : TensorSpec) (c : ColumnSchema) :
  column_of_tensor col_name col = Ok c -> derived_column_ok (col_name, c).
Proof.
  unfold column_of_tensor, derived_column_ok.
  destruct (shape_getitem (ts_shape col) 1) as [d|e]; simpl; [|discriminate].
  destruct d as [L|]; simpl.
  - destruct (Z.eqb_spec L 0) as [->|Hnz]; simpl.
    + intros H. injection H as <-. simpl. repeat split. discriminate.
    + destruct (Z.ltb_spec 1 L) as [Hlt|Hle]; intros H; injection H as <-; simpl.
      * repeat split; try discriminate. exists L. now split.
      * repeat split. discriminate.
  - intros H. injection H as <-. simpl. repeat split. discriminate.
Qed.

Lemma dict_set_Forall {V} (P : string * V -> Prop) (d : dict V) (k : string) (v : V) :
  Forall P d -> P (k, v) -> Forall P (dict_set d k v).
Proof.
  intros Hd Hkv. induction d as [|[k0 v0] d IH]; simpl.
  - now constructor.
  - inversion Hd as [|x l Hx Hl]; subst.
    destruct (String.eqb k0 k) eqn:E.
    + apply String.eqb_eq in E. subst k0. now constructor.
    + constructor; [exact Hx|now apply IH].
Qed.

Lemma dict_set_keys {V} (d : dict V) (k : string) (v : V) :
  dict_keys (dict_set d k v)
  = if existsb (String.eqb k) (dict_keys d) then dict_keys d
    else dict_keys d ++ [k].
Proof.
  induction d as [|[k0 v0] d IH]; simpl; [reflexivity|].
  rewrite (String.eqb_sym k k0).
  destruct (String.eqb k0 k) eqn:E; simpl.
  - apply String.eqb_eq in E. now subst k0.
  - rewrite IH. destruct (existsb (String.eqb k) (dict_keys d)); reflexivity.
Qed.

Lemma dict_set_NoDup {V} (d : dict V) (k : string) (v : V) :
  NoDup (dict_keys d) -> NoDup (dict_keys (dict_set d k v)).
Proof.
  intros Hnd. rewrite dict_set_keys.
  destruct (existsb (String.eqb k) (dict_keys d)) eqn:E; [exact Hnd|].
  apply NoDup_app; [exact Hnd|repeat constructor; intros []|].
  intros x Hx [<-|[]].
  apply existsb_eqb_In in Hx. congruence.
Qed.

Lemma schema_of_specs_inv (items : dict TensorSpec) :
  forall (acc s : Schema),
    Forall derived_column_ok (column_schemas acc) ->
    NoDup (column_names acc) ->
    schema_of_specs items acc = Ok s ->
    Forall derived_column_ok (column_schemas s) /\ NoDup (column_names s).
Proof.
  induction items as [|[col_name col] rest IH]; intros acc s Hacc Hnd; simpl.
  - intros H. injection H as <-. now split.
  - destruct (column_of_tensor col_name col) as [c|e] eqn:Hc; simpl; [|discriminate].
    apply IH; cbn.
    + apply dict_set_Forall; [exact Hacc|]. now apply column_of_tensor_ok in Hc.
    + unfold column_names in *. now apply dict_set_NoDup.
Qed.

(** X5.  Whichever way the signature was found, the schemas that come out
    of a successful derivation are well formed: their keys are unique,
    every column sits under its own name with a known element type, none
    has explicit dims or is ragged, a list column carries its length
    [L > 1] as value_count min = max = L and a scalar column carries no
    value_count. *)
Theorem derived_schemas_well_formed :
  forall (env : Env) (model m' : Model) (w : World) (i o : Schema),
    snd (_construct_schemas_from_model env model w) = Ok (m', (i, o)) ->
    Forall derived_column_ok (column_schemas i)
    /\ NoDup (column_names i)
    /\ Forall derived_column_ok (column_schemas o)
    /\ NoDup (column_names o).
Proof.
  intros env model m' w i o H.
  assert (Hs : exists m s, schemas_of_signature m s = Ok (m', (i, o))).
  { rewrite construct_schemas_run in H.
    destruct (dict_get (signatures_or_empty model) "serving_default") as [s|].
    - cbn in H. now exists model, s.
    - cbv zeta in H.
      destruct (regenerate_signature env _ w) as [w1 [s|e]]; cbn in H;
        [|discriminate].
      now exists (_ensure_input_spec_includes_names model), s. }
  destruct Hs as (m & s & Hs). unfold schemas_of_signature in Hs.
  destruct (schema_of_specs (structured_input_signature_1 s) Schema_new)
    as [i0|e] eqn:Hi; simpl in Hs; [|discriminate].
  destruct (schema_of_specs (structured_outputs s) Schema_new)
    as [o0|e] eqn:Ho; simpl in Hs; [|discriminate].
  injection Hs as _ <- <-.
  apply schema_of_specs_inv in Hi as [Hi1 Hi2]; [|constructor|constructor].
  apply schema_of_specs_inv in Ho as [Ho1 Ho2]; [|constructor|constructor].
  repeat split; assumption.
Qed.

Lemma derived_schemas_well_formed_witness :
  Forall derived_column_ok Demo.input_cols
  /\ Forall derived_column_ok Demo.output_cols.
Proof.
  destruct (derived_schemas_well_formed Demo.env Demo.keras_model
              (_ensure_input_spec_includes_names Demo.keras_model) Demo.world
              (mkSchema Demo.input_cols) (mkSchema Demo.output_cols) eq_refl)
    as (Hi & _ & Ho & _).
  split; [exact Hi|exact Ho].
Defined.

(** ** More on [transform] *)

Lemma transform_unfold (env : Env) (self : PredictTensorflow)
    (col_selector : list string) (t : Transformable) (w : World) :
  transform env self col_selector t w
  = match input_schema self with
    | None => (w, Raise (mkExn AttributeError "input_schema"))
    | Some isch =>
        match collect_inputs (column_names isch) t [] with
        | Raise e => (w, Raise e)
        | Ok tensors =>
            match output_schema self with
            | None => (w, Raise (mkExn AttributeError "output_schema"))
            | Some osch =>
                let req := mkInferenceRequest (tf_model_name self)
                             (column_names osch) tensors in
                (mkWorld (w_fs w) (w_log w ++ [CallInfer req]),
                 rbind (triton_exec env (w_log w) req) (fun resp =>
                   rbind (collect_outputs (column_names osch) resp [])
                     (Transformable_new env (container_type t))))
            end
        end
    end.
Proof.
  unfold transform, column_names.
  destruct (input_schema self) as [isch|]; [|reflexivity].
  unfold getattr, bind, ret, lift, exec, get_log, log_call, raise. simpl.
  destruct (collect_inputs (dict_keys (column_schemas isch)) t []) as [tensors|e];
    [|reflexivity].
  destruct (output_schema self) as [osch|]; [|reflexivity]. simpl.
  destruct (triton_exec env (w_log w) _) as [resp|e]; simpl; [|reflexivity].
  destruct (collect_outputs _ resp []); reflexivity.
Qed.

Lemma collect_inputs_missing (t : Transformable) (pre : list string) (k : string)
    (post : list string) :
  forall acc,
    (forall x, In x pre -> dict_get (columns t) x <> None) ->
    dict_get (columns t) k = None ->
    collect_inputs (pre ++ k :: post) t acc = Raise (mkExn KeyError k).
Proof.
  induction pre as [|x pre IH]; intros acc Hpre Hk; simpl.
  - now rewrite Hk.
  - destruct (dict_get (columns t) x) eqn:Hx.
    + apply IH; [|exact Hk]. intros y Hy. apply Hpre. now right.
    + exfalso. apply (Hpre x); [now left|exact Hx].
Qed.

(** X6.  When the container lacks a column of the input schema,
    [transform] raises the [KeyError] of the first such column, in schema
    order; no request is sent and the world is as before. *)
Theorem transform_missing_input_column :
  forall (env : Env) (self : PredictTensorflow) (col_selector : list string)
         (t : Transformable) (w : World) (isch : Schema)
         (pre : list string) (k : string) (post : list string),
    input_schema self = Some isch ->
    column_names isch = pre ++ k :: post ->
    (forall x, In x pre -> dict_get (columns t) x <> None) ->
    dict_get (columns t) k = None ->
    transform env self col_selector t w = (w, Raise (mkExn KeyError k)).
Proof.
  intros env self sel t w isch pre k post Hin Hnames Hpre Hk.
  rewrite transform_unfold, Hin, Hnames.
  now rewrite (collect_inputs_missing t pre k post [] Hpre Hk).
Qed.

Lemma transform_missing_input_column_witness :
  transform Demo.env Demo.exported_op []
    (mkTransformable "DataFrame" [("a", mkArray np_float32 [1%Z; 1%Z] [1%Z])])
    Demo.world
  = (Demo.world, Raise (mkExn KeyError "b")).
Proof.
  apply (transform_missing_input_column Demo.env Demo.exported_op []
           (mkTransformable "DataFrame" [("a", mkArray np_float32 [1%Z; 1%Z] [1%Z])])
           Demo.world (mkSchema Demo.input_cols) ["a"] "b" []).
  - reflexivity.
  - reflexivity.
  - intros x [<-|[]]. discriminate.
  - reflexivity.
Defined.

Lemma collect_inputs_ext (t t' : Transformable) (keys : list string) :
  forall acc,
    (forall k, In k keys -> dict_get (columns t) k = dict_get (columns t') k) ->
    collect_inputs keys t acc = collect_inputs keys t' acc.
Proof.
  induction keys as [|k keys IH]; intros acc H; simpl; [reflexivity|].
  rewrite <- (H k (or_introl eq_refl)).
  destruct (dict_get (columns t) k); [|reflexivity].
  apply IH. intros k' Hk'. apply H. now right.
Qed.

(** X7.  [transform] reads of its container the type and the columns the
    input schema names, and does not read the column selector at all: two
    calls whose containers are of one type and agree on those columns do
    the same, whatever else the containers hold and whatever selectors are
    passed. *)
Theorem transform_reads_schema_columns_only :
  forall (env : Env) (self : PredictTensorflow) (sel sel' : list string)
         (t t' : Transformable) (w : World),
    container_type t = container_type t' ->
    (forall isch k,
       input_schema self = Some isch -> In k (column_names isch) ->
       dict_get (columns t) k = dict_get (columns t') k) ->
    transform env self sel t w = transform env self sel' t' w.
Proof.
  intros env self sel sel' t t' w Hty Hcols.
  rewrite !transform_unfold.
  destruct (input_schema self) as [isch|]; [|reflexivity].
  rewrite (collect_inputs_ext t t' (column_names isch) []), Hty; [reflexivity|].
  intros k Hk. now apply (Hcols isch).
Qed.

(** The frame of the demonstration with a third column and another
    selector. *)
Lemma transform_reads_schema_columns_only_witness :
  transform Demo.env Demo.exported_op [] Demo.df Demo.world
  = transform Demo.env Demo.exported_op ["zzz"]
      (mkTransformable "DataFrame"
         (("extra", mkArray np_int64 [1%Z] [0%Z]) :: columns Demo.df))
      Demo.world.
Proof.
  apply transform_reads_schema_columns_only.
  - reflexivity.
  - intros isch k H. injection H as <-.
    intros [<-|[<-|[]]]; reflexivity.
Defined.

Lemma collect_outputs_keys (resp : InferenceResponse) (keys : list string) :
  forall acc d,
    NoDup (dict_keys acc ++ keys) ->
    collect_outputs keys resp acc = Ok d ->
    dict_keys d = dict_keys acc ++ keys.
Proof.
  induction keys as [|k keys IH]; intros acc d Hnd; simpl.
  - intros H. injection H as <-. now rewrite app_nil_r.
  - destruct (get_output_tensor_by_name resp k) as [x|]; [|discriminate].
    intros H.
    assert (Hfresh : ~ In k (dict_keys acc)).
    { apply NoDup_remove_2 in Hnd. intros Hin. apply Hnd.
      apply in_or_app. now left. }
    rewrite (dict_set_fresh acc k (as_numpy x) Hfresh) in H.
    apply IH in H.
    + rewrite H, dict_keys_app. simpl. now rewrite <- app_assoc.
    + rewrite dict_keys_app. simpl. now rewrite <- app_assoc.
Qed.

(** X8.  What a successful [transform] returns is a container of the
    caller's container type whose columns are the output-schema columns, one
    each and in schema order; the input columns are not carried over. *)
Theorem transform_result_columns :
  forall (env : Env) (self : PredictTensorflow) (col_selector : list string)
         (t t' : Transformable) (w : World) (osch : Schema),
    output_schema self = Some osch ->
    NoDup (column_names osch) ->
    snd (transform env self col_selector t w) = Ok t' ->
    container_type t' = container_type t
    /\ dict_keys (columns t') = column_names osch.
Proof.
  intros env self sel t t' w osch Hout Hnd. rewrite transform_unfold, Hout.
  destruct (input_schema self) as [isch|]; [|discriminate].
  destruct (collect_inputs (column_names isch) t []) as [tensors|e];
    [|discriminate].
  cbn. destruct (triton_exec env (w_log w) _) as [resp|e]; cbn; [|discriminate].
  destruct (collect_outputs (column_names osch) resp []) as [d|e] eqn:Hd; cbn;
    [|discriminate].
  unfold Transformable_new.
  destruct (container_rejects env (container_type t) d); [discriminate|].
  intros H. injection H as <-. cbn. split; [reflexivity|].
  now apply (collect_outputs_keys resp (column_names osch) [] d).
Qed.

Lemma transform_result_columns_witness :
  exists t',
    snd (transform Demo.env Demo.exported_op [] Demo.df Demo.world) = Ok t'
    /\ container_type t' = "DataFrame"
    /\ dict_keys (columns t') = ["c"].
Proof.
  eexists. split; [reflexivity|].
  apply (transform_result_columns Demo.env Demo.exported_op [] Demo.df _
           Demo.world (mkSchema Demo.output_cols) eq_refl).
  - repeat constructor; simpl; intuition discriminate.
  - reflexivity.
Defined.

Lemma transform_effects (env : Env) (self : PredictTensorflow)
    (col_selector : list string) (t : Transformable) (w : World) :
  let r := transform env self col_selector t w in
  w_fs (fst r) = w_fs w
  /\ ((fst r = w /\ exists e, snd r = Raise e)
      \/ exists osch tensors,
           output_schema self = Some osch
           /\ w_log (fst r)
              = w_log w ++ [CallInfer (mkInferenceRequest (tf_model_name self)
                                         (column_names osch) tensors)]).
Proof.
  cbv zeta. rewrite transform_unfold.
  destruct (input_schema self) as [isch|];
    [|split; [reflexivity|left; split; [reflexivity|eexists; reflexivity]]].
  destruct (collect_inputs (column_names isch) t []) as [tensors|e];
    [|split; [reflexivity|left; split; [reflexivity|eexists; reflexivity]]].
  destruct (output_schema self) as [osch|];
    [|split; [reflexivity|left; split; [reflexivity|eexists; reflexivity]]].
  cbn. split; [reflexivity|]. right. now exists osch, tensors.
Qed.

(** X9.  [transform] never writes to the file system, and it talks to the
    server at most once: either it raises before any request, leaving the
    world as it was, or the log has grown by exactly one inference
    request, whether that request was answered or not. *)
Theorem transform_at_most_one_request :
  forall (env : Env) (self : PredictTensorflow) (col_selector : list string)
         (t : Transformable) (w : World),
    let r := transform env self col_selector t w in
    w_fs (fst r) = w_fs w
    /\ ((fst r = w /\ exists e, snd r = Raise e)
        \/ exists req, w_log (fst r) = w_log w ++ [CallInfer req]).
Proof.
  intros env self sel t w.
  destruct (transform_effects env self sel t w) as [Hfs [H|(osch & tensors & _ & H)]].
  - split; [exact Hfs|now left].
  - split; [exact Hfs|]. right. eexists. exact H.
Qed.

(** X10.  Export and transform compose: the operator an export returns
    addresses every request it sends to the model named like the exported
    package, which is the name written to the configuration and the name
    of the package directory. *)
Theorem exported_operator_addresses_package :
  forall (env : Env) (self self' : PredictTensorflow) (path_arg : string)
         (isch_arg osch_arg : Schema) (params : option (dict string))
         (node_id : option Z) (version : Z) (backend : string) (w : World)
         (config : ModelConfig),
    snd (export env self path_arg isch_arg osch_arg params node_id version
           backend w) = Ok (self', config) ->
    fs_is_dir
      (w_fs (fst (export env self path_arg isch_arg osch_arg params node_id
                    version backend w)))
      (Path path_arg // cfg_name config) = true
    /\ input_schema self' = input_schema self
    /\ output_schema self' = output_schema self
    /\ forall (col_selector : list string) (t : Transformable) (w2 : World),
         let r := transform env self' col_selector t w2 in
         (fst r = w2 /\ exists e, snd r = Raise e)
         \/ exists osch tensors,
              output_schema self = Some osch
              /\ w_log (fst r)
                 = w_log w2 ++ [CallInfer (mkInferenceRequest
                                             (Some (cfg_name config))
                                             (column_names osch) tensors)].
Proof.
  intros env self self' path_arg isch_arg osch_arg params node_id version backend
    w config H.
  destruct (export env self path_arg isch_arg osch_arg params node_id version
              backend w) as [w' r] eqn:E.
  cbn in H. subst r.
  pose proof (export_ok_name env self path_arg isch_arg osch_arg params node_id
                version backend w w' self' config E) as (Hname & Hcfg & Hdir).
  pose proof (export_ok_inv env self path_arg isch_arg osch_arg params node_id
                version backend w w' self' config E)
    as (w1 & w2 & _ & _ & _ & Hself).
  cbn [fst]. rewrite Hcfg. split; [exact Hdir|].
  pose proof (set_tf_model_name_fields self
                (package_name (export_name self) node_id))
    as (_ & Hi & Ho & _).
  rewrite <- Hself in Hi, Ho.
  split; [exact Hi|]. split; [exact Ho|].
  intros sel t w0.
  destruct (transform_effects env self' sel t w0) as [_ [Hl|(osch & tensors & Hos & Hl)]].
  - now left.
  - right. exists osch, tensors. rewrite <- Ho. split; [exact Hos|].
    cbv zeta. rewrite Hl, Hname. reflexivity.
Qed.

Lemma exported_operator_addresses_package_witness :
  exists self' tensors,
    snd (export Demo.env Demo.loaded_op "/out" Schema_new Schema_new None
           (Some 0%Z) 1%Z "ensemble" Demo.world)
    = Ok (self', mkModelConfig "0_predicttensorflow" "tensorflow"
                   "tensorflow_savedmodel"
                   [mkModelInput "a" (Some np_float32) [-1; 1]%Z;
                    mkModelInput "b" (Some np_int64) [-1; -1]%Z]
                   [mkModelOutput "c" (Some np_float32) [-1; 1]%Z]
                   [("TF_GRAPH_TAG", "serve");
                    ("TF_SIGNATURE_DEF", "serving_default")])
    /\ w_log (fst (transform Demo.env self' [] Demo.df Demo.world))
       = [CallInfer (mkInferenceRequest (Some "0_predicttensorflow") ["c"] tensors)].
Proof.
  exists (set_tf_model_name Demo.loaded_op "0_predicttensorflow").
  destruct (exported_operator_addresses_package Demo.env Demo.loaded_op
              (set_tf_model_name Demo.loaded_op "0_predicttensorflow")
              "/out" Schema_new Schema_new None (Some 0%Z) 1%Z "ensemble"
              Demo.world _ eq_refl) as (_ & _ & _ & H).
  destruct (H [] Demo.df Demo.world) as [[_ [e He]]|(osch & tensors & Hos & Hl)].
  - discriminate He.
  - exists tensors. split; [reflexivity|].
    injection Hos as <-. exact Hl.
Defined.

(** ** More on [export] *)

Lemma fs_exists_snoc (fs : FS) (p : PurePath) (x : string) :
  fs_exists fs (p ++ [x])
  = match fs (p ++ [x]) with Some _ => true | None => false end.
Proof. destruct p; reflexivity. Qed.

Lemma fs_is_dir_snoc (fs : FS) (p : PurePath) (x : string) :
  fs_is_dir fs (p ++ [x])
  = match fs (p ++ [x]) with Some Dir => true | _ => false end.
Proof. destruct p; reflexivity. Qed.

(** An error of the first step is the error of [export], and nothing has
    been done. *)
Lemma export_mkdir_raise (env : Env) (self : PredictTensorflow) (path_arg : string)
    (isch_arg osch_arg : Schema) (params : option (dict string))
    (node_id : option Z) (version : Z) (backend : string) (w : World) (e : PyExn) :
  snd (Path_mkdir_exist_ok
         (Path path_arg // package_name (export_name self) node_id) w) = Raise e ->
  export env self path_arg isch_arg osch_arg params node_id version backend w
  = (w, Raise e).
Proof.
  intros H. rewrite export_run. cbv zeta.
  pose proof (Path_mkdir_exist_ok_raise _ w e H) as Hw.
  destruct (Path_mkdir_exist_ok _ w) as [w1 [[]|e1]]; cbn in *; [discriminate|].
  congruence.
Qed.

(** Once the first step is through, the package directory stays. *)
Lemma export_keeps_package_dir (env : Env) (self : PredictTensorflow)
    (path_arg : string) (isch_arg osch_arg : Schema) (params : option (dict string))
    (node_id : option Z) (version : Z) (backend : string) (w : World) :
  let nep := Path path_arg // package_name (export_name self) node_id in
  snd (Path_mkdir_exist_ok nep w) = Ok tt ->
  fs_is_dir
    (w_fs (fst (export env self path_arg isch_arg osch_arg params node_id version
                  backend w))) nep = true.
Proof.
  intros nep H. rewrite export_run. cbv zeta. fold nep.
  pose proof (Path_mkdir_exist_ok_ok nep w H) as Hdir.
  destruct (Path_mkdir_exist_ok nep w) as [w1 [[]|e1]]; cbn in *; [|discriminate].
  assert (Hne : nep <> []) by apply snoc_not_nil.
  pose proof (place_artifact_frame env self nep (str_int version) "model.savedmodel"
                w1 Hne Hdir) as [_ Hdir2].
  destruct (place_artifact env self _ w1) as [w2 [[]|e2]]; cbn in *;
    [|exact Hdir2].
  pose proof (export_model_config_only env
                (set_tf_model_name self (package_name (export_name self) node_id))
                (package_name (export_name self) node_id) nep w2 nep) as Hcfg.
  assert (Hp : nep <> nep // "config.pbtxt") by (unfold pjoin; path_ne).
  specialize (Hcfg Hp).
  destruct (_export_model_config env _ _ nep w2) as [w3 [c|e3]]; cbn in *;
    now rewrite (fs_is_dir_ext (w_fs w2)).
Qed.

Lemma lookup_error_file (fs : FS) (dir : PurePath) (c : string) :
  dir <> [] ->
  fs dir = Some (File c) ->
  lookup_error fs dir = mkExn NotADirectoryError "Not a directory".
Proof.
  intros Hne Hdir. unfold lookup_error.
  destruct (rev dir) as [|x rest] eqn:E.
  - apply rev_nil_inv in E. contradiction.
  - cbn [nearest_is_file]. rewrite <- E, rev_involutive, Hdir. reflexivity.
Qed.

Lemma lookup_error_missing (fs : FS) (dir : PurePath) :
  fs dir = None ->
  fs_is_dir fs (removelast dir) = true ->
  lookup_error fs dir = mkExn FileNotFoundError "No such file or directory".
Proof.
  intros Hdir Hparent. unfold lookup_error.
  destruct (rev dir) as [|x rest] eqn:E; [reflexivity|].
  cbn [nearest_is_file]. rewrite <- E, rev_involutive, Hdir.
  assert (Hd : dir = rev rest ++ [x])
    by (rewrite <- (rev_involutive dir), E; reflexivity).
  rewrite Hd, removelast_last in Hparent.
  destruct rest as [|y rest']; [reflexivity|].
  cbn [nearest_is_file].
  destruct (rev (y :: rest')) as [|a l] eqn:E2.
  - apply rev_nil_inv in E2. discriminate.
  - cbn [fs_is_dir] in Hparent.
    destruct (fs (a :: l)) as [[|c]|]; try discriminate. reflexivity.
Qed.

(** X11.  The first thing [export] does decides between two outcomes.  If
    the package path is taken by a file, or is free but its parent is not a
    directory, [export] raises at once and the world is as before: with
    [FileExistsError] in the first case, and in the second with the error
    of the failed lookup, [NotADirectoryError] when the parent is a regular
    file and [FileNotFoundError] when it is simply missing.  Otherwise the
    package directory exists when [export] is left, also when a later step
    has failed. *)
Theorem export_package_directory_first :
  forall (env : Env) (self : PredictTensorflow) (path_arg : string)
         (isch_arg osch_arg : Schema) (params : option (dict string))
         (node_id : option Z) (version : Z) (backend : string) (w : World),
    let nep := Path path_arg // package_name (export_name self) node_id in
    let r := export env self path_arg isch_arg osch_arg params node_id version
               backend w in
    match w_fs w nep with
    | Some (File _) => r = (w, Raise (mkExn FileExistsError "File exists"))
    | Some Dir => fs_is_dir (w_fs (fst r)) nep = true
    | None =>
        if fs_is_dir (w_fs w) (Path path_arg)
        then fs_is_dir (w_fs (fst r)) nep = true
        else
          r = (w, Raise (lookup_error (w_fs w) (Path path_arg)))
          /\ (forall c,
                w_fs w (Path path_arg) = Some (File c) ->
                r = (w, Raise (mkExn NotADirectoryError "Not a directory")))
          /\ (w_fs w (Path path_arg) = None ->
              fs_is_dir (w_fs w) (removelast (Path path_arg)) = true ->
              r = (w, Raise (mkExn FileNotFoundError
                               "No such file or directory")))
    end.
Proof.
  intros env self path_arg isch_arg osch_arg params node_id version backend w
    nep r.
  assert (Hrun : Path_mkdir_exist_ok nep w
                 = match w_fs w nep with
                   | Some (File _) =>
                       (w, Raise (mkExn FileExistsError "File exists"))
                   | Some Dir => (w, Ok tt)
                   | None =>
                       if fs_is_dir (w_fs w) (Path path_arg)
                       then (mkWorld (fs_set (w_fs w) nep Dir) (w_log w), Ok tt)
                       else (w, Raise (lookup_error (w_fs w) (Path path_arg)))
                   end).
  { unfold Path_mkdir_exist_ok. rewrite os_mkdir_run.
    unfold nep, pjoin. rewrite fs_exists_snoc, removelast_last.
    destruct (w_fs w (Path path_arg ++ [package_name (export_name self) node_id]))
      as [[|c]|] eqn:E; cbn [exn_kind fst snd w_fs];
      rewrite ?fs_is_dir_snoc, ?E; try reflexivity.
    destruct (fs_is_dir (w_fs w) (Path path_arg)); [reflexivity|].
    destruct (exn_kind (lookup_error (w_fs w) (Path path_arg)));
      rewrite ?fs_is_dir_snoc, ?E; reflexivity. }
  destruct (w_fs w nep) as [[|c]|] eqn:Hn.
  - apply export_keeps_package_dir. fold nep. now rewrite Hrun.
  - apply export_mkdir_raise. fold nep. now rewrite Hrun.
  - destruct (fs_is_dir (w_fs w) (Path path_arg)) eqn:Hp.
    + apply export_keeps_package_dir. fold nep. now rewrite Hrun.
    + assert (Hr : r = (w, Raise (lookup_error (w_fs w) (Path path_arg))))
        by (apply export_mkdir_raise; fold nep; now rewrite Hrun).
      assert (Hne : Path path_arg <> [])
        by (intros E; now rewrite E in Hp).
      split; [exact Hr|]. split.
      * intros c Hc. now rewrite Hr, (lookup_error_file _ _ c Hne Hc).
      * intros Hnone Hgp. now rewrite Hr, lookup_error_missing.
Qed.

(** Exporting below a regular file. *)
Lemma export_package_directory_first_witness :
  export Demo.env Demo.loaded_op "/models/m1/saved_model.pb" Schema_new
    Schema_new None (Some 0%Z) 1%Z "ensemble" Demo.world
  = (Demo.world, Raise (mkExn NotADirectoryError "Not a directory")).
Proof.
  pose proof (export_package_directory_first Demo.env Demo.loaded_op
                "/models/m1/saved_model.pb" Schema_new Schema_new None
                (Some 0%Z) 1%Z "ensemble" Demo.world) as H.
  cbv zeta in H.
  destruct H as (_ & H & _).
  exact (H "weights" eq_refl).
Defined.

Lemma makedirs_keeps (name : PurePath) (w : World) (p : PurePath) :
  w_fs w p <> None -> w_fs (fst (makedirs name w)) p <> None.
Proof.
  intros Hp. destruct (makedirs_adds name w) as [_ Hadd].
  destruct (w_fs w p) as [n|] eqn:E; [|contradiction].
  now rewrite (adds_dirs_to_keeps _ _ _ _ _ Hadd E).
Qed.

Lemma fs_overlay_keeps (fs : FS) (dst : PurePath) (files : PurePath -> option Node)
    (p : PurePath) :
  fs p <> None -> fs_overlay fs dst files p <> None.
Proof.
  intros Hp. unfold fs_overlay.
  destruct (strip_prefix dst p) as [[|c rel]|]; try exact Hp.
  destruct (files (c :: rel)); [discriminate|exact Hp].
Qed.

Lemma place_artifact_keeps (env : Env) (self : PredictTensorflow) (dst : PurePath)
    (w : World) (p : PurePath) :
  w_fs w p <> None -> w_fs (fst (place_artifact env self dst w)) p <> None.
Proof.
  intros Hp. unfold place_artifact.
  destruct (path_truthy (path self)).
  - destruct (path self) as [src|]; [|exact Hp].
    rewrite copytree_run. destruct (fs_is_dir (w_fs w) (fspath src)); [|exact Hp].
    pose proof (makedirs_keeps dst w p Hp) as H.
    destruct (makedirs dst w) as [w1 [[]|e]]; cbn in *; [|exact H].
    now apply fs_overlay_keeps.
  - unfold bind, getattr. destruct (model self) as [m|]; [|exact Hp].
    unfold ret. rewrite Model_save_run.
    pose proof (makedirs_keeps dst
                  (mkWorld (w_fs w) (w_log w ++ [CallSave m dst false])) p Hp) as H.
    destruct (makedirs dst _) as [w1 [[]|e]]; cbn in *; [|exact H].
    now apply fs_overlay_keeps.
Qed.

Lemma export_model_config_failure (env : Env) (self : PredictTensorflow)
    (name : string) (output_path : PurePath) (w : World) (e : PyExn) :
  snd (_export_model_config env self name output_path w) = Raise e ->
  fst (_export_model_config env self name output_path w) = w.
Proof.
  destruct (input_schema self) as [isch|] eqn:Hin;
    [|unfold _export_model_config; rewrite Hin; reflexivity].
  destruct (output_schema self) as [osch|] eqn:Hout;
    [|unfold _export_model_config; rewrite Hin, Hout; reflexivity].
  rewrite (export_model_config_run env self name output_path w isch osch Hin Hout).
  cbv zeta. rewrite write_text_run.
  destruct (w_fs w (output_path // "config.pbtxt")) as [[|c]|];
    try reflexivity;
    destruct (fs_is_dir (w_fs w) (removelast (output_path // "config.pbtxt")));
    cbn; try reflexivity; discriminate.
Qed.

Lemma export_model_config_keeps (env : Env) (self : PredictTensorflow)
    (name : string) (output_path : PurePath) (w : World) (p : PurePath) :
  w_fs w p <> None ->
  w_fs (fst (_export_model_config env self name output_path w)) p <> None.
Proof.
  intros Hp.
  destruct (_export_model_config env self name output_path w) as [w' [c|e]] eqn:E.
  - apply export_model_config_ok_inv in E as (isch & osch & _ & _ & _ & ->).
    cbn. unfold fs_set. destruct (path_eqb p _); [discriminate|exact Hp].
  - pose proof (export_model_config_failure env self name output_path w e) as H.
    rewrite E in H. cbn in *. now rewrite (H eq_refl).
Qed.

(** X12.  [export] deletes nothing: every path that held a file or a
    directory before the call still holds one after it, whether the export
    went through or raised on the way. *)
Theorem export_never_removes :
  forall (env : Env) (self : PredictTensorflow) (path_arg : string)
         (isch_arg osch_arg : Schema) (params : option (dict string))
         (node_id : option Z) (version : Z) (backend : string) (w : World)
         (p : PurePath),
    w_fs w p <> None ->
    w_fs (fst (export env self path_arg isch_arg osch_arg params node_id version
                 backend w)) p <> None.
Proof.
  intros env self path_arg isch_arg osch_arg params node_id version backend w p Hp.
  rewrite export_run. cbv zeta.
  set (nep := Path path_arg // package_name (export_name self) node_id).
  assert (H1 : w_fs (fst (Path_mkdir_exist_ok nep w)) p <> None).
  { destruct (Path_mkdir_exist_ok_adds nep w) as [_ Hadd].
    destruct (w_fs w p) as [n|] eqn:E; [|contradiction].
    now rewrite (adds_dirs_to_keeps _ _ _ _ _ Hadd E). }
  destruct (Path_mkdir_exist_ok nep w) as [w1 [[]|e1]]; cbn in *; [|exact H1].
  pose proof (place_artifact_keeps env self
                (nep // str_int version // "model.savedmodel") w1 p H1) as H2.
  destruct (place_artifact env self _ w1) as [w2 [[]|e2]]; cbn in *; [|exact H2].
  pose proof (export_model_config_keeps env
                (set_tf_model_name self (package_name (export_name self) node_id))
                (package_name (export_name self) node_id) nep w2 p H2) as H3.
  destruct (_export_model_config env _ _ nep w2) as [w3 [c|e3]]; exact H3.
Qed.

Lemma export_never_removes_witness :
  w_fs (fst (export Demo.env Demo.loaded_op "/out" Schema_new Schema_new None
               (Some 0%Z) 1%Z "ensemble" Demo.world))
    ["/"; "models"; "m1"; "saved_model.pb"] <> None.
Proof.
  apply export_never_removes. discriminate.
Defined.

Lemma fs_is_dir_set_dir (fs : FS) (p q : PurePath) :
  fs_is_dir fs q = true -> fs_is_dir (fs_set fs p Dir) q = true.
Proof.
  destruct q as [|a q]; [reflexivity|]. cbn [fs_is_dir]. unfold fs_set.
  destruct (path_eqb (a :: q) p); [reflexivity|tauto].
Qed.

(** X13.  An operator whose recorded path is no directory any more cannot
    be exported: into a fresh place below an existing directory, [export]
    raises the error of listing the source, [NotADirectoryError] when the
    path now holds a regular file and [FileNotFoundError] when it is simply
    missing; it returns no configuration and saves nothing, and what it
    leaves behind is the package directory, made and empty. *)
Theorem export_source_gone :
  forall (env : Env) (self : PredictTensorflow) (path_arg : string)
         (isch_arg osch_arg : Schema) (params : option (dict string))
         (node_id : option Z) (version : Z) (backend : string) (w : World)
         (src : PathLike),
    let nep := Path path_arg // package_name (export_name self) node_id in
    let w1 := mkWorld (fs_set (w_fs w) nep Dir) (w_log w) in
    let r := export env self path_arg isch_arg osch_arg params node_id version
               backend w in
    path self = Some src ->
    path_truthy (path self) = true ->
    fs_is_dir (w_fs w) (fspath src) = false ->
    fspath src <> nep ->
    fs_is_dir (w_fs w) (Path path_arg) = true ->
    w_fs w nep = None ->
    r = (w1, Raise (lookup_error (w_fs w1) (fspath src)))
    /\ (forall c,
          w_fs w (fspath src) = Some (File c) ->
          r = (w1, Raise (mkExn NotADirectoryError "Not a directory")))
    /\ (w_fs w (fspath src) = None ->
        fs_is_dir (w_fs w) (removelast (fspath src)) = true ->
        r = (w1, Raise (mkExn FileNotFoundError "No such file or directory"))).
Proof.
  intros env self path_arg isch_arg osch_arg params node_id version backend w src
    nep w1 r Hpath Htruthy Hsrc Hne Hparent Hfree.
  assert (Hr : r = (w1, Raise (lookup_error (w_fs w1) (fspath src)))).
  { unfold r. rewrite export_run. cbv zeta. fold nep.
    assert (Hrun : Path_mkdir_exist_ok nep w = (w1, Ok tt)).
    { unfold Path_mkdir_exist_ok. rewrite os_mkdir_run.
      unfold nep, pjoin. rewrite fs_exists_snoc, removelast_last.
      unfold nep, pjoin in Hfree. now rewrite Hfree, Hparent. }
    rewrite Hrun. unfold place_artifact. rewrite Htruthy, Hpath, copytree_run.
    unfold w1 at 1. cbn [w_fs].
    rewrite (fs_is_dir_ext (w_fs w)), Hsrc by now apply fs_set_ne.
    reflexivity. }
  assert (Hnil : fspath src <> [])
    by (intros E; now rewrite E in Hsrc).
  assert (Hsame : w_fs w1 (fspath src) = w_fs w (fspath src))
    by (unfold w1; cbn [w_fs]; now apply fs_set_ne).
  split; [exact Hr|]. split.
  - intros c Hc. rewrite Hr. f_equal. f_equal.
    apply (lookup_error_file _ _ c Hnil). now rewrite Hsame.
  - intros Hnone Hgp. rewrite Hr. f_equal. f_equal.
    apply lookup_error_missing; [now rewrite Hsame|].
    unfold w1. cbn [w_fs]. now apply fs_is_dir_set_dir.
Qed.

(** A source path that is missing, and one that holds a file. *)
Lemma export_source_gone_witness :
  snd (export Demo.env
         (mkPredictTensorflow "PredictTensorflow" None None
            (Some (PStr "/models/gone")) (Some Demo.served_model)
            (Some (mkSchema Demo.input_cols)) (Some (mkSchema Demo.output_cols)))
         "/out" Schema_new Schema_new None None 1%Z "ensemble" Demo.world)
  = Raise (mkExn FileNotFoundError "No such file or directory")
  /\ snd (export Demo.env
            (mkPredictTensorflow "PredictTensorflow" None None
               (Some (PStr "/models/m1/saved_model.pb")) (Some Demo.served_model)
               (Some (mkSchema Demo.input_cols)) (Some (mkSchema Demo.output_cols)))
            "/out" Schema_new Schema_new None None 1%Z "ensemble" Demo.world)
     = Raise (mkExn NotADirectoryError "Not a directory").
Proof.
  split.
  - destruct (export_source_gone Demo.env
                (mkPredictTensorflow "PredictTensorflow" None None
                   (Some (PStr "/models/gone")) (Some Demo.served_model)
                   (Some (mkSchema Demo.input_cols))
                   (Some (mkSchema Demo.output_cols)))
                "/out" Schema_new Schema_new None None 1%Z "ensemble" Demo.world
                (PStr "/models/gone") eq_refl eq_refl eq_refl)
      as (_ & _ & H); [discriminate|reflexivity|reflexivity|].
    now rewrite (H eq_refl eq_refl).
  - destruct (export_source_gone Demo.env
                (mkPredictTensorflow "PredictTensorflow" None None
                   (Some (PStr "/models/m1/saved_model.pb"))
                   (Some Demo.served_model)
                   (Some (mkSchema Demo.input_cols))
                   (Some (mkSchema Demo.output_cols)))
                "/out" Schema_new Schema_new None None 1%Z "ensemble" Demo.world
                (PStr "/models/m1/saved_model.pb") eq_refl eq_refl eq_refl)
      as (_ & H & _); [discriminate|reflexivity|reflexivity|].
    now rewrite (H "weights" eq_refl).
Defined.

(** ** More on [_export_model_config] *)

(** X14.  Writing the configuration touches one path and nothing else:
    the call log and every other path are as before, and when the call
    raises, the whole world is.  With both schemas set it raises exactly
    when ['config.pbtxt'] is a directory ([IsADirectoryError]) or the output
    path is no directory, with the error of that lookup:
    [NotADirectoryError] when the output path is a regular file,
    [FileNotFoundError] when it is simply missing.  An existing file of
    that name is overwritten. *)
Theorem export_model_config_effects :
  forall (env : Env) (self : PredictTensorflow) (name : string)
         (output_path : PurePath) (w : World),
    let r := _export_model_config env self name output_path w in
    let target := output_path // "config.pbtxt" in
    w_log (fst r) = w_log w
    /\ (forall p, p <> target -> w_fs (fst r) p = w_fs w p)
    /\ (forall e, snd r = Raise e -> fst r = w)
    /\ (input_schema self <> None -> output_schema self <> None ->
        match w_fs w target with
        | Some Dir => snd r = Raise (mkExn IsADirectoryError "Is a directory")
        | _ =>
            if fs_is_dir (w_fs w) output_path
            then exists c,
                   snd r = Ok c
                   /\ w_fs (fst r) target = Some (File (PrintMessage env c))
            else
              snd r = Raise (lookup_error (w_fs w) output_path)
              /\ (forall c,
                    w_fs w output_path = Some (File c) ->
                    snd r = Raise (mkExn NotADirectoryError "Not a directory"))
              /\ (w_fs w output_path = None ->
                  fs_is_dir (w_fs w) (removelast output_path) = true ->
                  snd r = Raise (mkExn FileNotFoundError
                                   "No such file or directory"))
        end).
Proof.
  intros env self name output_path w r target.
  assert (Hfail : forall e, snd r = Raise e -> fst r = w)
    by (intros e; apply export_model_config_failure).
  split; [|split; [|split]].
  - destruct r as [w' [c|e]] eqn:E.
    + apply export_model_config_ok_inv in E as (_ & _ & _ & _ & _ & ->).
      reflexivity.
    + cbn in *. now rewrite (Hfail e eq_refl).
  - intros p Hp. now apply export_model_config_only.
  - exact Hfail.
  - intros Hin Hout.
    destruct (input_schema self) as [isch|] eqn:Hi; [|contradiction].
    destruct (output_schema self) as [osch|] eqn:Ho; [|contradiction].
    unfold r.
    rewrite (export_model_config_run env self name output_path w isch osch Hi Ho).
    cbv zeta. rewrite write_text_run. fold target.
    replace (removelast target) with output_path
      by (unfold target, pjoin; now rewrite removelast_last).
    assert (Herr : fs_is_dir (w_fs w) output_path = false ->
              (Raise (lookup_error (w_fs w) output_path) : result ModelConfig)
              = Raise (lookup_error (w_fs w) output_path)
              /\ (forall c,
                    w_fs w output_path = Some (File c) ->
                    (Raise (lookup_error (w_fs w) output_path)
                     : result ModelConfig)
                    = Raise (mkExn NotADirectoryError "Not a directory"))
              /\ (w_fs w output_path = None ->
                  fs_is_dir (w_fs w) (removelast output_path) = true ->
                  (Raise (lookup_error (w_fs w) output_path) : result ModelConfig)
                  = Raise (mkExn FileNotFoundError "No such file or directory"))).
    { intros Hd.
      assert (Hnil : output_path <> []) by (intros E; now rewrite E in Hd).
      split; [reflexivity|]. split.
      - intros c Hc. now rewrite (lookup_error_file _ _ c Hnil Hc).
      - intros Hnone Hgp. now rewrite lookup_error_missing. }
    destruct (w_fs w target) as [[|c]|]; [reflexivity| |];
      (destruct (fs_is_dir (w_fs w) output_path) eqn:Hd;
       [cbn; eexists; (split; [reflexivity|apply fs_set_eq])
       |exact (Herr eq_refl)]).
Qed.

(** An output path that is missing, and one that holds a file. *)
Lemma export_model_config_effects_witness :
  snd (_export_model_config Demo.env Demo.loaded_op "predicttensorflow"
         ["/"; "nowhere"] Demo.world)
  = Raise (mkExn FileNotFoundError "No such file or directory")
  /\ snd (_export_model_config Demo.env Demo.loaded_op "predicttensorflow"
            ["/"; "models"; "m1"; "saved_model.pb"] Demo.world)
     = Raise (mkExn NotADirectoryError "Not a directory").
Proof.
  split.
  - destruct (export_model_config_effects Demo.env Demo.loaded_op
                "predicttensorflow" ["/"; "nowhere"] Demo.world)
      as (_ & _ & _ & H).
    destruct H as (_ & _ & H); [discriminate|discriminate|].
    exact (H eq_refl eq_refl).
  - destruct (export_model_config_effects Demo.env Demo.loaded_op
                "predicttensorflow" ["/"; "models"; "m1"; "saved_model.pb"]
                Demo.world)
      as (_ & _ & _ & H).
    destruct H as (_ & H & _); [discriminate|discriminate|].
    exact (H "weights" eq_refl).
Defined.

(** ** More on the constructor *)

(** The derivation only ever appends to the call log. *)
Lemma construct_schemas_log (env : Env) (model : Model) (w : World) :
  exists rest,
    w_log (fst (_construct_schemas_from_model env model w)) = w_log w ++ rest.
Proof.
  rewrite construct_schemas_run.
  destruct (dict_get (signatures_or_empty model) "serving_default") as [s|].
  - exists []. cbn. now rewrite app_nil_r.
  - cbv zeta.
    assert (H : exists rest,
               w_log (fst (regenerate_signature env
                             (_ensure_input_spec_includes_names model) w))
               = w_log w ++ rest).
    { rewrite regenerate_signature_run. cbv zeta. rewrite os_mkdir_run.
      destruct (fs_exists (w_fs w) _);
        [exists []; cbn; now rewrite app_nil_r|].
      destruct (fs_is_dir (w_fs w) _);
        [|exists []; cbn; now rewrite app_nil_r].
      match goal with
      | |- context [Model_save env ?m ?d ?io ?w0] =>
          pose proof (Model_save_log env m d io w0) as Hlog;
          destruct (Model_save env m d io w0) as [w2 [[]|e]]
      end; cbn [fst snd cleanup w_log w_fs] in *.
      - eexists. rewrite load_model_log, Hlog, <- app_assoc. reflexivity.
      - eexists. exact Hlog. }
    destruct H as [rest H].
    destruct (regenerate_signature env _ w) as [w1 [s|e]]; cbn in *;
      now exists rest.
Qed.

(** X15.  An operator constructed from anything but [None] is complete:
    its model and both schemas are set, the schemas being the ones derived
    from the model that was given or loaded, and no Triton name is recorded
    yet.  [compute_input_schema] and [compute_output_schema] then answer
    these schemas whatever they are passed. *)
Theorem constructed_operator_has_schemas :
  forall (env : Env) (cls : OperatorClass)
         (model_or_path custom_objects backend : PyVal) (w : World)
         (self0 : PredictTensorflow),
    model_or_path <> VNone ->
    snd (construct env cls model_or_path custom_objects backend w) = Ok self0 ->
    exists (m0 : Model) (w1 : World) (m : Model) (i o : Schema),
      snd (_construct_schemas_from_model env m0 w1) = Ok (m, (i, o))
      /\ (forall given, model_or_path = VModel given -> m0 = given /\ w1 = w)
      /\ model self0 = Some m
      /\ input_schema self0 = Some i
      /\ output_schema self0 = Some o
      /\ tf_model_name self0 = None
      /\ class_name self0 = cls_name cls
      /\ (forall root_schema parents_schema deps_schema selector,
            compute_input_schema self0 root_schema parents_schema deps_schema
              selector = Ok i)
      /\ (forall input_schema_arg col_selector prev_output_schema,
            compute_output_schema self0 input_schema_arg col_selector
              prev_output_schema = Ok o).
Proof.
  intros env cls mop co backend w self0 Hnone.
  unfold construct, init_body.
  destruct mop; try contradiction; unfold bind, ret, raise; try discriminate.
  - match goal with
    | |- context [load_model env ?p ?c w] =>
        destruct (load_model env p c w) as [w1 [m0|e]]
    end; [|discriminate].
    destruct (_construct_schemas_from_model env m0 w1) as [w2 [[m [i o]]|e]] eqn:E;
      [|discriminate].
    cbn. intros H. injection H as <-.
    exists m0, w1, m, i, o. rewrite E. cbn.
    split; [reflexivity|]. split; [discriminate|]. repeat split.
  - match goal with
    | |- context [load_model env ?q ?c w] =>
        destruct (load_model env q c w) as [w1 [m0|e]]
    end; [|discriminate].
    destruct (_construct_schemas_from_model env m0 w1) as [w2 [[m [i o]]|e]] eqn:E;
      [|discriminate].
    cbn. intros H. injection H as <-.
    exists m0, w1, m, i, o. rewrite E. cbn.
    split; [reflexivity|]. split; [discriminate|]. repeat split.
  - destruct (_construct_schemas_from_model env m w) as [w2 [[m' [i o]]|e]] eqn:E;
      [|discriminate].
    cbn. intros H. injection H as <-.
    exists m, w, m', i, o. rewrite E. cbn.
    split; [reflexivity|].
    split; [intros given Hg; now injection Hg as <-|]. repeat split.
Qed.

Lemma constructed_operator_has_schemas_witness :
  exists self0,
    snd (construct Demo.env Demo.cls (VModel Demo.served_model) VNone
           (VStr "tensorflow") Demo.world) = Ok self0
    /\ compute_input_schema self0 Schema_new Schema_new Schema_new []
       = Ok (mkSchema Demo.input_cols)
    /\ compute_output_schema self0 Schema_new [] None
       = Ok (mkSchema Demo.output_cols).
Proof.
  eexists. split; [reflexivity|].
  destruct (constructed_operator_has_schemas Demo.env Demo.cls
              (VModel Demo.served_model) VNone (VStr "tensorflow") Demo.world _
              ltac:(discriminate) eq_refl)
    as (m0 & w1 & m & i & o & _ & _ & _ & Hi & Ho & _ & _ & Hci & Hco).
  injection Hi as <-. injection Ho as <-.
  split; [apply Hci|apply Hco].
Defined.

(** X16.  Constructing from a path loads the model first, from that very
    path, with the custom objects given, or with an empty dict when none
    or a falsy value was given.  If the load fails, its error is the
    constructor's, and nothing but the load call has happened.  A finished
    operator remembers the path as it was given. *)
Theorem construct_loads_from_path :
  forall (env : Env) (cls : OperatorClass) (src : PathLike)
         (custom_objects backend : PyVal) (w : World),
    let model_or_path :=
      match src with PStr s => VStr s | PPath p => VPathLike p end in
    let passed := if py_truthy custom_objects then custom_objects else VDict [] in
    let r := construct env cls model_or_path custom_objects backend w in
    (exists rest,
       w_log (fst r) = w_log w ++ CallLoadModel (fspath src) passed :: rest)
    /\ (forall e,
          load_model_from env (w_fs w) (fspath src) passed = Raise e ->
          r = (mkWorld (w_fs w) (w_log w ++ [CallLoadModel (fspath src) passed]),
               Raise e))
    /\ (forall self0, snd r = Ok self0 -> path self0 = Some src).
Proof.
  intros env cls src co backend w mop passed r.
  assert (Hrun :
    r = match load_model_from env (w_fs w) (fspath src) passed with
        | Ok m0 =>
            match _construct_schemas_from_model env m0
                    (fst (load_model env (fspath src) passed w)) with
            | (w2, Ok (m, (i, o))) =>
                (w2, Ok (mkPredictTensorflow (cls_name cls) (cls_scalar_shape cls)
                           None (Some src) (Some m) (Some i) (Some o)))
            | (w2, Raise e) => (w2, Raise e)
            end
        | Raise e =>
            (mkWorld (w_fs w) (w_log w ++ [CallLoadModel (fspath src) passed]),
             Raise e)
        end).
  { unfold r, mop, construct, init_body.
    destruct src as [s|p]; unfold bind, ret; rewrite !load_model_run;
      fold passed; cbn [fspath];
      (destruct (load_model_from env (w_fs w) _ passed) as [m0|e]; [|reflexivity]);
      cbn [fst];
      (destruct (_construct_schemas_from_model env m0 _) as [w2 [[m [i o]]|e]];
       reflexivity). }
  rewrite Hrun. clear Hrun.
  pose proof (load_model_log env (fspath src) passed w) as Hload.
  destruct (load_model_from env (w_fs w) (fspath src) passed) as [m0|e].
  - pose proof (construct_schemas_log env m0
                  (fst (load_model env (fspath src) passed w)))
      as [rest Hlog].
    rewrite Hload in Hlog.
    destruct (_construct_schemas_from_model env m0 _) as [w2 [[m [i o]]|e]];
      cbn [fst snd] in *.
    + split; [exists rest; now rewrite Hlog, <- app_assoc|].
      split; [discriminate|]. intros self0 H. now injection H as <-.
    + split; [exists rest; now rewrite Hlog, <- app_assoc|].
      split; [discriminate|]. discriminate.
  - cbn. split; [now exists []|]. split; [|discriminate].
    intros e0 H. now injection H as <-.
Qed.

(** A path that holds no saved model. *)
Lemma construct_loads_from_path_witness :
  construct Demo.env Demo.cls (VStr "/models/gone") VNone (VStr "tensorflow")
    Demo.world
  = (mkWorld Demo.disk [CallLoadModel ["/"; "models"; "gone"] (VDict [])],
     Raise (mkExn FileNotFoundError "No file or directory found")).
Proof.
  destruct (construct_loads_from_path Demo.env Demo.cls (PStr "/models/gone")
              VNone (VStr "tensorflow") Demo.world) as (_ & H & _).
  exact (H _ eq_refl).
Defined.

(** ** Package names *)

Lemma int_of_string_of_int (d : Decimal.signed_int) :
  option_map Z.of_int (NilZero.int_of_string (NilZero.string_of_int d))
  = Some (Z.of_int d).
Proof.
  destruct d as [u|u]; destruct u;
    try (rewrite NilZero.isi by discriminate; reflexivity).
  - now rewrite NilZero.isi_posnil.
  - now rewrite NilZero.isi_negnil.
Qed.

Lemma str_int_inj (n m : Z) : str_int n = str_int m -> n = m.
Proof.
  unfold str_int. intros H.
  pose proof (int_of_string_of_int (Z.to_int n)) as Hn.
  pose proof (int_of_string_of_int (Z.to_int m)) as Hm.
  rewrite H, Hm in Hn. rewrite !DecimalZ.of_to in Hn. now injection Hn.
Qed.

Lemma string_length_app (a b : string) :
  String.length (a ++ b)%string = (String.length a + String.length b)%nat.
Proof. induction a as [|c a IH]; simpl; [reflexivity|now rewrite IH]. Qed.

Lemma string_app_cancel_r (a b s : string) :
  (a ++ s)%string = (b ++ s)%string -> a = b.
Proof.
  revert b. induction a as [|c a IH]; intros [|c' b] H; simpl in H.
  - reflexivity.
  - apply (f_equal String.length) in H. simpl in H.
    rewrite string_length_app in H. lia.
  - apply (f_equal String.length) in H. simpl in H.
    rewrite string_length_app in H. lia.
  - injection H as -> H. f_equal. now apply IH.
Qed.

Lemma package_name_inj (e : string) (id1 id2 : option Z) :
  package_name e id1 = package_name e id2 -> id1 = id2.
Proof.
  destruct id1 as [n|], id2 as [m|]; simpl; intros H.
  - apply string_app_cancel_r in H. f_equal. now apply str_int_inj.
  - apply (f_equal String.length) in H. rewrite !string_length_app in H.
    simpl in H. lia.
  - apply (f_equal String.length) in H. rewrite !string_length_app in H.
    simpl in H. lia.
  - reflexivity.
Qed.

(** X17.  Operators of one class that are exported under different node
    ids, or one with and one without a node id, never share a package:
    the names written to their configurations differ, and so do the names
    they record and the package directories below a common path. *)
Theorem export_node_ids_keep_packages_apart :
  forall (env : Env) (self1 self2 : PredictTensorflow) (path1 path2 : string)
         (isch1 osch1 isch2 osch2 : Schema) (params1 params2 : option (dict string))
         (id1 id2 : option Z) (version1 version2 : Z) (backend1 backend2 : string)
         (w1 w2 : World) (self1' self2' : PredictTensorflow)
         (config1 config2 : ModelConfig),
    class_name self1 = class_name self2 ->
    id1 <> id2 ->
    snd (export env self1 path1 isch1 osch1 params1 id1 version1 backend1 w1)
    = Ok (self1', config1) ->
    snd (export env self2 path2 isch2 osch2 params2 id2 version2 backend2 w2)
    = Ok (self2', config2) ->
    cfg_name config1 <> cfg_name config2
    /\ tf_model_name self1' <> tf_model_name self2'
    /\ forall p : PurePath, p // cfg_name config1 <> p // cfg_name config2.
Proof.
  intros env self1 self2 path1 path2 isch1 osch1 isch2 osch2 params1 params2
    id1 id2 version1 version2 backend1 backend2 w1 w2 self1' self2'
    config1 config2 Hcls Hid H1 H2.
  destruct (export env self1 path1 isch1 osch1 params1 id1 version1 backend1 w1)
    as [w1' r1] eqn:E1.
  destruct (export env self2 path2 isch2 osch2 params2 id2 version2 backend2 w2)
    as [w2' r2] eqn:E2.
  cbn in H1, H2. subst r1 r2.
  apply export_ok_name in E1 as (Hn1 & Hc1 & _).
  apply export_ok_name in E2 as (Hn2 & Hc2 & _).
  assert (Hne : package_name (export_name self1) id1
                <> package_name (export_name self2) id2).
  { unfold export_name. rewrite Hcls. intros H. apply Hid.
    now apply package_name_inj in H. }
  rewrite Hn1, Hn2, Hc1, Hc2.
  split; [exact Hne|]. split; [congruence|].
  intros p H. unfold pjoin in H. apply app_inj_tail in H as [_ H]. contradiction.
Qed.

Lemma export_node_ids_keep_packages_apart_witness :
  exists self1' config1 self2' config2,
    snd (export Demo.env Demo.loaded_op "/out" Schema_new Schema_new None
           (Some 0%Z) 1%Z "ensemble" Demo.world) = Ok (self1', config1)
    /\ snd (export Demo.env Demo.memory_op "/out" Schema_new Schema_new None
              (Some 10%Z) 1%Z "ensemble" Demo.world) = Ok (self2', config2)
    /\ cfg_name config1 <> cfg_name config2.
Proof.
  do 4 eexists. split; [reflexivity|]. split; [reflexivity|].
  apply (export_node_ids_keep_packages_apart Demo.env Demo.loaded_op Demo.memory_op
           "/out" "/out" Schema_new Schema_new Schema_new Schema_new None None
           (Some 0%Z) (Some 10%Z) 1%Z 1%Z "ensemble" "ensemble"
           Demo.world Demo.world _ _ _ _ eq_refl ltac:(discriminate)
           eq_refl eq_refl).
Defined.

(** ** The calls [export] makes *)

Lemma export_model_config_log (env : Env) (self : PredictTensorflow)
    (name : string) (output_path : PurePath) (w : World) :
  w_log (fst (_export_model_config env self name output_path w)) = w_log w.
Proof.
  destruct (_export_model_config env self name output_path w) as [w' [c|e]] eqn:E.
  - apply export_model_config_ok_inv in E as (_ & _ & _ & _ & _ & ->).
    reflexivity.
  - pose proof (export_model_config_failure env self name output_path w e) as H.
    rewrite E in H. cbn in *. now rewrite (H eq_refl).
Qed.

Lemma place_artifact_log (env : Env) (self : PredictTensorflow) (dst : PurePath)
    (w : World) :
  let r := place_artifact env self dst w in
  if path_truthy (path self) then w_log (fst r) = w_log w
  else match model self with
       | Some m => w_log (fst r) = w_log w ++ [CallSave m dst false]
       | None => r = (w, Raise (mkExn AttributeError "model"))
       end.
Proof.
  cbv zeta. unfold place_artifact.
  destruct (path_truthy (path self)).
  - destruct (path self) as [src|]; [|reflexivity].
    rewrite copytree_run. destruct (fs_is_dir (w_fs w) (fspath src)); [|reflexivity].
    pose proof (makedirs_adds dst w) as [Hlog _].
    destruct (makedirs dst w) as [w1 [[]|e]]; exact Hlog.
  - unfold bind, getattr. destruct (model self) as [m|]; [|reflexivity].
    unfold ret.
    pose proof (Model_save_log env m dst false w) as H.
    destruct (Model_save env m dst false w) as [w1 [[]|e]]; exact H.
Qed.

(** X19.  What [export] asks of the outside world is bounded, whether it
    succeeds or fails: it never loads a model and never sends an inference
    request; for an operator with a path it saves nothing either, and for
    one without a path it saves its model at most once, to the
    '<version>/model.savedmodel' place of the package and without the
    optimizer. *)
Theorem export_calls_bounded :
  forall (env : Env) (self : PredictTensorflow) (path_arg : string)
         (isch_arg osch_arg : Schema) (params : option (dict string))
         (node_id : option Z) (version : Z) (backend : string) (w : World),
    let dst := Path path_arg // package_name (export_name self) node_id
               // str_int version // "model.savedmodel" in
    let r := export env self path_arg isch_arg osch_arg params node_id version
               backend w in
    w_log (fst r) = w_log w
    \/ (path_truthy (path self) = false
        /\ exists m,
             model self = Some m
             /\ w_log (fst r) = w_log w ++ [CallSave m dst false]).
Proof.
  intros env self path_arg isch_arg osch_arg params node_id version backend w
    dst r.
  unfold r. rewrite export_run. cbv zeta.
  set (nep := Path path_arg // package_name (export_name self) node_id).
  fold nep in dst. fold dst.
  destruct (Path_mkdir_exist_ok_adds nep w) as [Hlog1 _].
  destruct (Path_mkdir_exist_ok nep w) as [w1 [[]|e1]]; cbn [fst] in *;
    [|now left].
  pose proof (place_artifact_log env self dst w1) as Hlog2. cbv zeta in Hlog2.
  assert (Hstep :
    w_log (fst (place_artifact env self dst w1)) = w_log w
    \/ (path_truthy (path self) = false
        /\ exists m,
             model self = Some m
             /\ w_log (fst (place_artifact env self dst w1))
                = w_log w ++ [CallSave m dst false])).
  { destruct (path_truthy (path self)); [left; congruence|].
    destruct (model self) as [m|].
    - right. split; [reflexivity|]. exists m. split; [reflexivity|]. congruence.
    - left. rewrite Hlog2. exact Hlog1. }
  destruct (place_artifact env self dst w1) as [w2 [[]|e2]]; cbn [fst] in *;
    [|exact Hstep].
  pose proof (export_model_config_log env
                (set_tf_model_name self (package_name (export_name self) node_id))
                (package_name (export_name self) node_id) nep w2) as Hlog3.
  destruct (_export_model_config env _ _ nep w2) as [w3 [c|e3]]; cbn [fst] in *;
    rewrite Hlog3; exact Hstep.
Qed.

(** ** Exporting twice *)

Lemma Path_mkdir_exist_ok_existing (p : PurePath) (w : World) :
  fs_is_dir (w_fs w) p = true -> Path_mkdir_exist_ok p w = (w, Ok tt).
Proof.
  intros Hdir. unfold Path_mkdir_exist_ok. rewrite os_mkdir_run.
  rewrite (fs_is_dir_exists _ _ Hdir). cbn. now rewrite Hdir.
Qed.

Lemma mkdir_unless_isdir_existing (p : PurePath) (w : World) :
  fs_is_dir (w_fs w) p = true -> mkdir_unless_isdir p w = (w, Ok tt).
Proof.
  intros Hdir. unfold mkdir_unless_isdir. rewrite os_mkdir_run.
  rewrite (fs_is_dir_exists _ _ Hdir). cbn. now rewrite Hdir.
Qed.

Lemma makedirs_existing (head : PurePath) (x : string) (w : World) :
  head <> [] ->
  fs_exists (w_fs w) head = true ->
  fs_is_dir (w_fs w) (head ++ [x]) = true ->
  makedirs (head ++ [x]) w = (w, Ok tt).
Proof.
  intros Hne Hex Hdir. rewrite makedirs_snoc by exact Hne. rewrite Hex.
  now apply mkdir_unless_isdir_existing.
Qed.

Lemma mkdir_unless_isdir_exists_error (p : PurePath) (w w' : World) (e : PyExn) :
  mkdir_unless_isdir p w = (w', Raise e) ->
  exn_kind e = FileExistsError ->
  fs_exists (w_fs w) p = true.
Proof.
  unfold mkdir_unless_isdir. rewrite os_mkdir_run.
  destruct (fs_exists (w_fs w) p); [reflexivity|].
  destruct (fs_is_dir (w_fs w) (removelast p)); cbn.
  - discriminate.
  - destruct (fs_is_dir (w_fs w) p); [discriminate|].
    intros H Hk. injection H as _ <-. unfold lookup_error in Hk.
    destruct (nearest_is_file (w_fs w) (rev (removelast p))); discriminate.
Qed.

(** A [makedirs] two levels below an existing directory that went through
    has made, or found, the level in between. *)
Lemma makedirs_two_ok (head : PurePath) (x y : string) (w : World) :
  head <> [] ->
  fs_exists (w_fs w) head = true ->
  snd (makedirs (head // x // y) w) = Ok tt ->
  fs_exists (w_fs (fst (makedirs (head // x // y) w))) (head // x) = true.
Proof.
  intros Hne Hex. unfold pjoin.
  rewrite makedirs_snoc by apply snoc_not_nil.
  destruct (fs_exists (w_fs w) (head ++ [x])) eqn:Hx.
  - intros _.
    destruct (mkdir_unless_isdir_adds ((head ++ [x]) ++ [y]) w) as [_ Hadd].
    eapply adds_dirs_to_exists; eassumption.
  - rewrite makedirs_snoc by exact Hne. rewrite Hex.
    pose proof (mkdir_unless_isdir_ok (head ++ [x]) w) as Hok.
    destruct (mkdir_unless_isdir (head ++ [x]) w) as [w1 [[]|e]] eqn:E1;
      cbn [fst snd] in *.
    + intros _.
      destruct (mkdir_unless_isdir_adds ((head ++ [x]) ++ [y]) w1) as [_ Hadd].
      eapply adds_dirs_to_exists; [exact Hadd|].
      apply fs_is_dir_exists. now apply Hok.
    + destruct (exn_kind e) eqn:Hk; cbn [snd]; try discriminate.
      pose proof (mkdir_unless_isdir_exists_error _ _ _ _ E1 Hk). congruence.
Qed.

(** What a successful export tells about its second step. *)
Lemma export_ok_source (env : Env) (self : PredictTensorflow) (path_arg : string)
    (isch_arg osch_arg : Schema) (params : option (dict string))
    (node_id : option Z) (version : Z) (backend : string)
    (w w' : World) (self' : PredictTensorflow) (config : ModelConfig) :
  let nep := Path path_arg // package_name (export_name self) node_id in
  export env self path_arg isch_arg osch_arg params node_id version backend w
  = (w', Ok (self', config)) ->
  fs_exists (w_fs w') (nep // str_int version) = true
  /\ if path_truthy (path self)
     then exists src,
            path self = Some src
            /\ fs_is_dir (w_fs (fst (Path_mkdir_exist_ok nep w))) (fspath src) = true
     else exists m,
            model self = Some m /\ snd (saved_model_files env m) = None.
Proof.
  intros nep H.
  apply export_ok_inv in H as (w1 & w2 & Hmk & Hplace & Hcfg & _).
  fold nep in Hmk, Hplace, Hcfg.
  apply export_model_config_ok_inv in Hcfg as (_ & _ & _ & _ & _ & ->).
  cbn [w_fs]. rewrite Hmk. cbn [fst].
  pose proof (Path_mkdir_exist_ok_ok nep w) as Hdir1.
  rewrite Hmk in Hdir1. specialize (Hdir1 eq_refl). cbn [fst] in Hdir1.
  assert (Hne : nep <> []) by apply snoc_not_nil.
  set (ver := nep // str_int version) in *.
  set (dst := ver // "model.savedmodel") in *.
  assert (Hver : forall w0 wm files,
             w_fs w0 = w_fs w1 ->
             makedirs dst w0 = (wm, Ok tt) ->
             fs_exists (fs_set (fs_overlay (w_fs wm) dst files)
                          (nep // "config.pbtxt") (File (PrintMessage env config)))
               ver = true).
  { intros w0 wm files E0 Em.
    pose proof (makedirs_two_ok nep (str_int version) "model.savedmodel" w0 Hne)
      as Hok.
    fold ver in Hok. fold dst in Hok. rewrite Em in Hok. cbn [fst snd] in Hok.
    rewrite E0 in Hok. specialize (Hok (fs_is_dir_exists _ _ Hdir1) eq_refl).
    unfold ver, pjoin in *. rewrite fs_exists_snoc in *.
    rewrite fs_set_ne.
    - rewrite fs_overlay_outside; [exact Hok|].
      unfold dst, pjoin. apply is_under_longer. discriminate.
    - intros E. apply app_inj_tail in E as [_ E].
      now apply str_int_not_config in E. }
  unfold place_artifact in Hplace.
  destruct (path_truthy (path self)) eqn:Htruthy.
  - destruct (path self) as [src|]; [|discriminate].
    rewrite copytree_run in Hplace.
    destruct (fs_is_dir (w_fs w1) (fspath src)) eqn:Hsrc; [|discriminate].
    destruct (makedirs dst w1) as [wm [[]|e]] eqn:Em; [|discriminate].
    injection Hplace as <-. cbn [w_fs].
    split; [now apply (Hver w1 wm)|]. now exists src.
  - unfold bind, getattr in Hplace.
    destruct (model self) as [m|]; [|discriminate].
    unfold ret in Hplace. rewrite Model_save_run in Hplace.
    destruct (makedirs dst _) as [wm [[]|e]] eqn:Em; [|discriminate].
    destruct (snd (saved_model_files env m)) eqn:Herr; [discriminate|].
    injection Hplace as <-. cbn [w_fs].
    split; [|now exists m].
    now apply (Hver (mkWorld (w_fs w1) (w_log w1 ++ [CallSave m dst false])) wm).
Qed.

Lemma fs_overlay_same (fs : FS) (dst : PurePath) (files : PurePath -> option Node) :
  (forall c rel n, files (c :: rel) = Some n -> fs (dst ++ c :: rel) = Some n) ->
  forall p, fs_overlay fs dst files p = fs p.
Proof.
  intros H p. unfold fs_overlay.
  destruct (strip_prefix dst p) as [[|c rel]|] eqn:E; try reflexivity.
  apply strip_prefix_Some in E. subst p.
  destruct (files (c :: rel)) as [n|] eqn:F; [|reflexivity].
  symmetry. now apply H.
Qed.

Lemma set_tf_model_name_twice (self : PredictTensorflow) (a b : string) :
  set_tf_model_name (set_tf_model_name self a) b = set_tf_model_name self b.
Proof. reflexivity. Qed.

(** X20.  An export can be repeated.  When an export has gone through,
    exporting the returned operator again to the same place, with the
    same node id and version, goes through as well and returns the same
    operator and the same configuration, and every path holds afterwards
    what it held after the first export.  For an operator with a path the
    source directory and the package directory must not lie inside one
    another. *)
Theorem export_repeatable :
  forall (env : Env) (self : PredictTensorflow) (path_arg : string)
         (isch_arg osch_arg : Schema) (params : option (dict string))
         (node_id : option Z) (version : Z) (backend : string) (w : World)
         (self' : PredictTensorflow) (config : ModelConfig),
    let nep := Path path_arg // package_name (export_name self) node_id in
    let w' := fst (export env self path_arg isch_arg osch_arg params node_id
                     version backend w) in
    snd (export env self path_arg isch_arg osch_arg params node_id version
           backend w) = Ok (self', config) ->
    (path_truthy (path self) = true ->
     forall src, path self = Some src ->
       is_under nep (fspath src) = false /\ is_under (fspath src) nep = false) ->
    forall (isch2 osch2 : Schema) (params2 : option (dict string))
           (backend2 : string),
      let r2 := export env self' path_arg isch2 osch2 params2 node_id version
                  backend2 w' in
      snd r2 = Ok (self', config)
      /\ forall p, w_fs (fst r2) p = w_fs w' p.
Proof.
  intros env self path_arg isch_arg osch_arg params node_id version backend w
    self' config nep w' H Hdisj isch2 osch2 params2 backend2 r2.
  destruct (export env self path_arg isch_arg osch_arg params node_id version
              backend w) as [w0 r] eqn:E.
  cbn in H, w'. subst r. subst w'.
  set (name := package_name (export_name self) node_id) in *.
  set (ver := nep // str_int version).
  set (dst := ver // "model.savedmodel").
  set (cfg := nep // "config.pbtxt").
  (* what the first export established *)
  pose proof (export_ok_name _ _ _ _ _ _ _ _ _ _ _ _ _ E) as (_ & _ & Hnep).
  fold name in Hnep. fold nep in Hnep.
  pose proof (export_ok_artifact _ _ _ _ _ _ _ _ _ _ _ _ _ E) as (Hdst & Hcopy & Hsave).
  fold name in Hdst, Hcopy, Hsave. fold nep in Hdst, Hcopy, Hsave.
  fold ver in Hdst, Hcopy, Hsave. fold dst in Hdst, Hcopy, Hsave.
  pose proof (export_ok_source _ _ _ _ _ _ _ _ _ _ _ _ _ E) as (Hver & Hsrc).
  fold name in Hver, Hsrc. fold nep in Hver, Hsrc. fold ver in Hver.
  pose proof (export_same_outside env self path_arg isch_arg osch_arg params
                node_id version backend w) as Hout.
  rewrite E in Hout. cbn [fst] in Hout. fold name in Hout. fold nep in Hout.
  pose proof (export_ok_inv _ _ _ _ _ _ _ _ _ _ _ _ _ E)
    as (w1 & w2 & Hmk & _ & Hcfg & ->).
  fold name in Hmk, Hcfg. fold nep in Hmk, Hcfg. fold name in r2.
  pose proof (export_model_config_ok_inv _ _ _ _ _ _ _ Hcfg)
    as (isch & osch & Hin & Hou & Hconfig & Hw0).
  assert (Hcfg0 : w_fs w0 cfg = Some (File (PrintMessage env config)))
    by (rewrite Hw0; apply fs_set_eq).
  assert (Hne : ver <> []) by apply snoc_not_nil.
  (* the second export, step by step *)
  assert (Hplace : exists w2',
             place_artifact env (set_tf_model_name self name) dst w0 = (w2', Ok tt)
             /\ forall p, w_fs w2' p = w_fs w0 p).
  { unfold place_artifact.
    change (path (set_tf_model_name self name)) with (path self).
    change (model (set_tf_model_name self name)) with (model self).
    destruct (path_truthy (path self)) eqn:Htruthy.
    - destruct Hsrc as (src & Hpath & Hsrcdir). rewrite Hpath.
      destruct (Hdisj eq_refl src Hpath) as [Hd1 Hd2].
      assert (Hsame : forall rel, w_fs w0 (fspath src ++ rel) = w_fs w (fspath src ++ rel))
        by (intros rel; apply Hout; now apply is_under_disjoint).
      assert (Hap : copytree_outcome env (w_fs w0) (fspath src) dst
                    = (fun rel => w_fs w0 (fspath src ++ rel), None)).
      { apply copytree_outcome_apart; unfold dst, ver, pjoin.
        - rewrite <- app_assoc. now apply is_under_disjoint.
        - now do 2 apply is_under_trans_app. }
      rewrite copytree_run, Hap. cbn [fst snd].
      assert (Hdir0 : fs_is_dir (w_fs w0) (fspath src) = true).
      { rewrite Hmk in Hsrcdir. cbn [fst] in Hsrcdir.
        rewrite <- Hsrcdir. apply fs_is_dir_ext.
        specialize (Hsame []). rewrite app_nil_r in Hsame. rewrite Hsame.
        symmetry.
        pose proof (Path_mkdir_exist_ok_only nep (fspath src) w) as Honly.
        rewrite Hmk in Honly. cbn [fst] in Honly. apply Honly.
        pose proof (is_under_false_ne nep (fspath src) [] Hd1) as Hx.
        now rewrite app_nil_r in Hx. }
      rewrite Hdir0.
      unfold dst, pjoin. rewrite makedirs_existing; [|exact Hne|exact Hver|exact Hdst].
      eexists. split; [reflexivity|]. cbn [w_fs]. apply fs_overlay_same.
      intros c rel n Hn. destruct (Hcopy eq_refl) as (src' & Hpath' & _ & Hc).
      rewrite Hpath in Hpath'. injection Hpath' as <-.
      apply Hc. now rewrite <- Hsame.
    - destruct Hsrc as (m & Hmodel & Herr). rewrite Hmodel.
      unfold bind, getattr, ret. rewrite Model_save_run.
      unfold dst, pjoin. rewrite makedirs_existing; [|exact Hne|exact Hver|exact Hdst].
      rewrite Herr. eexists. split; [reflexivity|]. cbn [w_fs].
      apply fs_overlay_same.
      intros c rel n Hn. destruct (Hsave eq_refl) as (m' & Hmodel' & _ & Hc).
      rewrite Hmodel in Hmodel'. injection Hmodel' as <-. now apply Hc. }
  destruct Hplace as (w2' & Hplace & Hfs2).
  unfold r2. rewrite export_run. cbv zeta.
  change (export_name (set_tf_model_name self name)) with (export_name self).
  fold name. fold nep. fold ver. fold dst.
  rewrite (Path_mkdir_exist_ok_existing nep w0 Hnep), Hplace.
  rewrite set_tf_model_name_twice.
  rewrite (export_model_config_run env (set_tf_model_name self name) name nep w2'
             isch osch Hin Hou).
  cbv zeta. rewrite <- Hconfig. rewrite write_text_run. fold cfg.
  replace (removelast cfg) with nep
    by (unfold cfg, pjoin; now rewrite removelast_last).
  rewrite (Hfs2 cfg), Hcfg0.
  rewrite (fs_is_dir_ext (w_fs w0) (w_fs w2') nep (Hfs2 nep)), Hnep.
  cbn [fst snd w_fs]. split; [reflexivity|].
  intros p. unfold fs_set. destruct (path_eqb p cfg) eqn:Ep.
  - apply path_eqb_eq in Ep. subst p. now rewrite Hcfg0.
  - apply Hfs2.
Qed.

Lemma export_repeatable_witness :
  let first := export Demo.env Demo.loaded_op "/out" Schema_new Schema_new None
                 (Some 0%Z) 1%Z "ensemble" Demo.world in
  exists self' config,
    snd first = Ok (self', config)
    /\ snd (export Demo.env self' "/out" Schema_new Schema_new None (Some 0%Z)
              1%Z "ensemble" (fst first)) = Ok (self', config).
Proof.
  cbv zeta. do 2 eexists. split; [reflexivity|].
  apply (export_repeatable Demo.env Demo.loaded_op "/out" Schema_new Schema_new
           None (Some 0%Z) 1%Z "ensemble" Demo.world _ _ eq_refl).
  intros _ src H. injection H as <-. split; reflexivity.
Defined.
